(** * FluxControl: the rate-limiting decision engine

    A shallow embedding of [server/rate-limiter.ts], of the in-memory
    store of [server/storage.ts] and of the middleware that [server/routes.ts]
    puts in front of the protected routes, with the properties of the engine
    stated and proved over it.

    Modelling conventions.
    - A JavaScript number is an integer [Num z] or [NaN].  The engine only
      ever produces integers (every division is wrapped in [Math.ceil] or
      [Math.floor]) and [NaN] (from [parseInt], from [undefined] operands
      and from a zero window).  Arithmetic on [Num] is exact integer
      arithmetic, which is what the code computes as long as every value
      has magnitude at most [JS.MAX_SAFE_INTEGER] (2^53 - 1); beyond that
      the code rounds, and the theorems that state the value of a window
      read from a numeral carry that bound.
    - A [Date] is its time value in milliseconds ([getTime]); [NaN] is the
      invalid date.  Every [new Date(x)] of the code goes through
      [JS.newDate], which gives the invalid date to a number of magnitude
      above [JS.MAX_TIME] (8.64e15).
    - A string is a sequence of 8-bit code units.
    - [async] methods are run to completion one call at a time; the clock is
      read once per call and passed as [now].
    - [Map<string, _>] objects that are only read by key are [gmap]s; the
      [configs] map, which is searched in insertion order, is an
      association list. *)

From Stdlib Require Import ZArith String Ascii List Bool Lia Sorted.
From Stdlib Require Import DecimalString DecimalNat.
From stdpp Require Import base option gmap strings.

Import ListNotations.
Open Scope string_scope.
Open Scope Z_scope.

(** ** JavaScript numbers *)

Inductive num : Type :=
| Num (z : Z)
| NaN.

Module JS.

Definition add (a b : num) : num :=
  match a, b with
  | Num x, Num y => Num (x + y)
  | _, _ => NaN
  end.

Definition sub (a b : num) : num :=
  match a, b with
  | Num x, Num y => Num (x - y)
  | _, _ => NaN
  end.

Definition mul (a b : num) : num :=
  match a, b with
  | Num x, Num y => Num (x * y)
  | _, _ => NaN
  end.

(** Comparisons with [NaN] are false. *)
Definition leb (a b : num) : bool :=
  match a, b with
  | Num x, Num y => x <=? y
  | _, _ => false
  end.

Definition ltb (a b : num) : bool :=
  match a, b with
  | Num x, Num y => x <? y
  | _, _ => false
  end.

Definition geb (a b : num) : bool := leb b a.
Definition gtb (a b : num) : bool := ltb b a.

(** [Math.ceil(a / d)] for a positive integer constant [d]. *)
Definition ceil_div (a : num) (d : Z) : num :=
  match a with
  | Num x => Num (- ((- x) / d))
  | NaN => NaN
  end.

(** [Math.floor(a / w) * w].  For [w = 0] the quotient is an infinity or
    [NaN], and its product with zero is [NaN]. *)
Definition floor_multiple (a w : num) : num :=
  match a, w with
  | Num x, Num y => if y =? 0 then NaN else Num (x / y * y)
  | _, _ => NaN
  end.

(** *** Dates *)

(** [Number.MAX_SAFE_INTEGER]: up to this magnitude every integer is a
    double, and sums, differences and products that stay below it are
    exact. *)
Definition MAX_SAFE_INTEGER : Z := 9007199254740991.

(** The largest magnitude of the time value of a [Date]: 100 000 000 days
    on either side of the epoch. *)
Definition MAX_TIME : Z := 8640000000000000.

(** [new Date(x).getTime()]: the time value of the date built from the
    number [x].  A number that is not finite or whose magnitude exceeds
    [MAX_TIME] gives the invalid date. *)
Definition newDate (x : num) : num :=
  match x with
  | Num z => if Z.abs z <=? MAX_TIME then Num z else NaN
  | NaN => NaN
  end.

(** *** Strings *)

(** [s.slice(-1)] *)
Fixpoint slice_last (s : string) : string :=
  match s with
  | EmptyString => EmptyString
  | String c s' =>
      match s' with
      | EmptyString => String c EmptyString
      | String _ _ => slice_last s'
      end
  end.

(** [s.slice(0, -1)] *)
Fixpoint slice_init (s : string) : string :=
  match s with
  | EmptyString => EmptyString
  | String c s' =>
      match s' with
      | EmptyString => EmptyString
      | String _ _ => String c (slice_init s')
      end
  end.

(** White space and line terminators among the 8-bit code units:
    TAB, LF, VT, FF, CR, SP and NBSP. *)
Definition isWhiteSpace (c : ascii) : bool :=
  let n := Z.of_nat (nat_of_ascii c) in
  ((9 <=? n) && (n <=? 13)) || (n =? 32) || (n =? 160).

Fixpoint trimStart (s : string) : string :=
  match s with
  | EmptyString => EmptyString
  | String c s' => if isWhiteSpace c then trimStart s' else s
  end.

(** [trimEnd] drops trailing white space: a character is kept when it is
    not white space or when something is kept after it. *)
Fixpoint trimEnd (s : string) : string :=
  match s with
  | EmptyString => EmptyString
  | String c s' =>
      match trimEnd s' with
      | EmptyString => if isWhiteSpace c then EmptyString else String c EmptyString
      | r => String c r
      end
  end.

Definition trim (s : string) : string := trimEnd (trimStart s).

(** [s.split(sep)[0]] for a one-character separator: the text before the
    first separator, the whole string when there is none. *)
Fixpoint split_first (sep : ascii) (s : string) : string :=
  match s with
  | EmptyString => EmptyString
  | String c s' =>
      if Ascii.eqb c sep then EmptyString else String c (split_first sep s')
  end.

Fixpoint drop (n : nat) (s : string) : string :=
  match n, s with
  | O, _ => s
  | S n', String _ s' => drop n' s'
  | S _, EmptyString => EmptyString
  end.

(** [s.replace(pat, rep)] with a string pattern: the first occurrence
    only. *)
Fixpoint replace (pat rep s : string) : string :=
  if String.prefix pat s then (rep ++ drop (String.length pat) s)%string
  else match s with
       | EmptyString => EmptyString
       | String c s' => String c (replace pat rep s')
       end.

(** *** [parseInt] (no radix argument)

    The value of the digits is kept as the integer they denote, which is
    the number [parseInt] returns while it is at most [MAX_SAFE_INTEGER]. *)

Definition digitValue (radix : Z) (c : ascii) : option Z :=
  let n := Z.of_nat (nat_of_ascii c) in
  let v :=
    if (48 <=? n) && (n <=? 57) then Some (n - 48)
    else if (97 <=? n) && (n <=? 122) then Some (n - 87)
    else if (65 <=? n) && (n <=? 90) then Some (n - 55)
    else None in
  match v with
  | Some d => if d <? radix then Some d else None
  | None => None
  end.

(** The longest prefix of radix digits, read left to right; [None] when it
    is empty. *)
Fixpoint parseDigits (radix : Z) (s : string) (acc : option Z) : option Z :=
  match s with
  | EmptyString => acc
  | String c s' =>
      match digitValue radix c with
      | Some d =>
          parseDigits radix s'
            (Some (match acc with Some a => a * radix + d | None => d end))
      | None => acc
      end
  end.

Definition parseInt (s : string) : num :=
  let s1 := trimStart s in
  let '(sign, s2) :=
    match s1 with
    | String "-" r => (-1, r)
    | String "+" r => (1, r)
    | _ => (1, s1)
    end in
  let '(radix, s3) :=
    match s2 with
    | String "0" (String x r) =>
        if Ascii.eqb x "x" || Ascii.eqb x "X" then (16, r) else (10, s2)
    | _ => (10, s2)
    end in
  match parseDigits radix s3 None with
  | Some v => Num (sign * v)
  | None => NaN
  end.

(** *** Truthiness of optional strings and the [||] chain *)

Definition truthy (o : option string) : bool :=
  match o with
  | Some s => negb (String.eqb s "")
  | None => false
  end.

(** [a || b] *)
Definition or (a b : option string) : option string :=
  if truthy a then a else b.

(** [a || 'literal'] with a non-empty literal: always a string. *)
Definition or_lit (a : option string) (lit : string) : string :=
  match or a (Some lit) with
  | Some s => s
  | None => lit
  end.

End JS.

(** [parseTimeWindow] is a private method repeated verbatim in
    [TokenBucketLimiter], [SlidingWindowLimiter] and [FixedWindowLimiter]. *)
Definition parseTimeWindow (timeWindow : string) : num :=
  let unit := JS.slice_last timeWindow in
  let value := JS.parseInt (JS.slice_init timeWindow) in
  if String.eqb unit "s" then JS.mul value (Num 1000)
  else if String.eqb unit "m" then JS.mul (JS.mul value (Num 60)) (Num 1000)
  else if String.eqb unit "h" then
    JS.mul (JS.mul (JS.mul value (Num 60)) (Num 60)) (Num 1000)
  else if String.eqb unit "d" then
    JS.mul (JS.mul (JS.mul (JS.mul value (Num 24)) (Num 60)) (Num 60)) (Num 1000)
  else Num (60 * 1000).

(** ** Data model ([shared/schema.ts]) *)

Inductive Status : Type := active | warning | blocked.

Module RateLimitConfig.
Record t : Type := mk {
  id : Z;
  name : string;
  algorithm : string;
  requestLimit : Z;
  timeWindow : string;
  clientIdType : string;
  isActive : bool;
  createdAt : Z;
  updatedAt : option Z;
  userId : option string;
  apiKeyId : option string;
  endpoints : option string
}.

Definition deactivate (c : t) : t :=
  mk (id c) (name c) (algorithm c) (requestLimit c) (timeWindow c)
     (clientIdType c) false (createdAt c) (updatedAt c) (userId c)
     (apiKeyId c) (endpoints c).
End RateLimitConfig.

Module InsertRateLimitConfig.
Record t : Type := mk {
  name : option string;
  algorithm : string;
  requestLimit : Z;
  timeWindow : string;
  clientIdType : string;
  isActive : option bool;
  userId : option string;
  apiKeyId : option string;
  endpoints : option string
}.
End InsertRateLimitConfig.

Module ActiveRateLimit.
Record t : Type := mk {
  id : Z;
  userId : option string;
  status : Status;
  apiKeyId : option string;
  algorithm : option string;
  clientId : string;
  requestCount : Z;
  resetTime : num;
  lastRequest : Z
}.

Definition with_status (a : t) (s : Status) : t :=
  mk (id a) (userId a) s (apiKeyId a) (algorithm a) (clientId a)
     (requestCount a) (resetTime a) (lastRequest a).
End ActiveRateLimit.

Module InsertActiveRateLimit.
Record t : Type := mk {
  clientId : string;
  requestCount : option Z;
  resetTime : num;
  status : Status;
  userId : option string;
  apiKeyId : option string;
  algorithm : option string
}.

(** The object literal the limiters pass:
    [{ clientId, requestCount, resetTime, status }]. *)
Definition literal (c : string) (n : Z) (r : num) (s : Status) : t :=
  mk c (Some n) r s None None None.
End InsertActiveRateLimit.

Module RateLimitViolation.
Record t : Type := mk {
  id : Z;
  userId : option string;
  apiKeyId : option string;
  clientId : string;
  endpoint : string;
  attempts : Z;
  timestamp : Z;
  isBlocked : bool;
  userAgent : option string;
  ipAddress : option string
}.

Definition block (v : t) : t :=
  mk (id v) (userId v) (apiKeyId v) (clientId v) (endpoint v) (attempts v)
     (timestamp v) true (userAgent v) (ipAddress v).
End RateLimitViolation.

Module InsertRateLimitViolation.
Record t : Type := mk {
  clientId : string;
  endpoint : string;
  attempts : Z;
  isBlocked : option bool;
  userId : option string;
  apiKeyId : option string;
  userAgent : option string;
  ipAddress : option string
}.

(** [{ clientId, endpoint, attempts: 1, isBlocked: false }] *)
Definition literal (c e : string) : t :=
  mk c e 1 (Some false) None None None None.
End InsertRateLimitViolation.

Module SystemStats.
Record t : Type := mk {
  id : Z;
  userId : option string;
  totalRequests : Z;
  rateLimitedRequests : Z;
  activeClients : Z;
  avgResponseTime : Z;
  requestsToday : Z;
  requestsThisMonth : Z;
  timestamp : Z
}.
End SystemStats.

(** [Partial<InsertSystemStats>]: every field may be absent. *)
Module PartialSystemStats.
Record t : Type := mk {
  userId : option (option string);
  totalRequests : option Z;
  rateLimitedRequests : option Z;
  activeClients : option Z;
  avgResponseTime : option Z;
  requestsToday : option Z;
  requestsThisMonth : option Z
}.

Definition empty : t := mk None None None None None None None.

(** [{ totalRequests: n }] *)
Definition only_totalRequests (n : Z) : t :=
  mk None (Some n) None None None None None.

(** [{ rateLimitedRequests: n }] *)
Definition only_rateLimitedRequests (n : Z) : t :=
  mk None None (Some n) None None None None.
End PartialSystemStats.

Module DashboardStats.
Record t : Type := mk {
  totalRequests : Z;
  rateLimited : Z;
  activeClients : Z;
  avgResponseTime : Z
}.
End DashboardStats.

Module RateLimitStatus.
Record t : Type := mk {
  allowed : bool;
  remaining : Z;
  resetTime : num;
  retryAfter : option num
}.
End RateLimitStatus.

(** [a ?? b] *)
Definition nullish {A : Type} (a : option A) (b : A) : A :=
  match a with
  | Some x => x
  | None => b
  end.

(** ** The in-memory store ([MemStorage]) *)

Module MemStorage.

(** The [users], [apiKeys] and [usageMetrics] members are left out: no
    operation of the engine reads them; their only effect on the rest of
    the store is that [upsertUser], [createApiKey] and [recordUsage] draw
    an identifier from [currentId] (see [allocateId]). *)
Record t : Type := mk {
  configs : list (Z * RateLimitConfig.t);
  activeLimits : gmap string ActiveRateLimit.t;
  violations : list RateLimitViolation.t;
  stats : SystemStats.t;
  currentId : Z
}.

(** [Map.prototype.set] on the insertion-ordered [configs] map: an existing
    key keeps its position. *)
Fixpoint map_set {V : Type} (k : Z) (v : V) (m : list (Z * V)) : list (Z * V) :=
  match m with
  | [] => [(k, v)]
  | (k', v') :: m' =>
      if k =? k' then (k, v) :: m' else (k', v') :: map_set k v m'
  end.

Definition defaultConfig (now : Z) : RateLimitConfig.t :=
  RateLimitConfig.mk 1 "Default Config" "fixed-window" 100 "1m" "ip" true
                     now None None None None.

(** The constructor. *)
Definition new (now : Z) : t :=
  mk [(1, defaultConfig now)] ∅ []
     (SystemStats.mk 1 None 0 0 0 0 0 0 now) 1.

(** [Array.from(this.configs.values()).find(config => config.isActive)] *)
Definition getRateLimitConfig (s : t) : option RateLimitConfig.t :=
  List.find RateLimitConfig.isActive (List.map snd (configs s)).

Definition updateRateLimitConfig (configData : InsertRateLimitConfig.t)
    (now : Z) (s : t) : RateLimitConfig.t * t :=
  let id := currentId s in
  let config :=
    RateLimitConfig.mk id
      (nullish (InsertRateLimitConfig.name configData) "Default Config")
      (InsertRateLimitConfig.algorithm configData)
      (InsertRateLimitConfig.requestLimit configData)
      (InsertRateLimitConfig.timeWindow configData)
      (InsertRateLimitConfig.clientIdType configData)
      (nullish (InsertRateLimitConfig.isActive configData) true)
      now None
      (InsertRateLimitConfig.userId configData)
      (InsertRateLimitConfig.apiKeyId configData)
      (InsertRateLimitConfig.endpoints configData) in
  (* Deactivate old configs *)
  let deactivated :=
    List.map (fun kc => (fst kc, RateLimitConfig.deactivate (snd kc)))
             (configs s) in
  (* Clear all active limits when configuration changes *)
  (config,
   mk (map_set id config deactivated) ∅ (violations s) (stats s) (id + 1)).

Definition getActiveRateLimit (clientId : string) (s : t)
    : option ActiveRateLimit.t :=
  activeLimits s !! clientId.

Definition upsertActiveRateLimit (limitData : InsertActiveRateLimit.t)
    (now : Z) (s : t) : ActiveRateLimit.t * t :=
  let existing := activeLimits s !! InsertActiveRateLimit.clientId limitData in
  let '(id, next) :=
    match existing with
    | Some e => (ActiveRateLimit.id e, currentId s)
    | None => (currentId s, currentId s + 1)
    end in
  let limit :=
    ActiveRateLimit.mk id
      (InsertActiveRateLimit.userId limitData)
      (InsertActiveRateLimit.status limitData)
      (InsertActiveRateLimit.apiKeyId limitData)
      (InsertActiveRateLimit.algorithm limitData)
      (InsertActiveRateLimit.clientId limitData)
      (nullish (InsertActiveRateLimit.requestCount limitData) 0)
      (InsertActiveRateLimit.resetTime limitData)
      now in
  (limit,
   mk (configs s)
      (<[InsertActiveRateLimit.clientId limitData := limit]> (activeLimits s))
      (violations s) (stats s) next).

Definition deleteActiveRateLimit (clientId : string) (s : t) : t :=
  mk (configs s) (delete clientId (activeLimits s)) (violations s) (stats s)
     (currentId s).

Definition createViolation (violationData : InsertRateLimitViolation.t)
    (now : Z) (s : t) : RateLimitViolation.t * t :=
  let id := currentId s in
  let violation :=
    RateLimitViolation.mk id
      (InsertRateLimitViolation.userId violationData)
      (InsertRateLimitViolation.apiKeyId violationData)
      (InsertRateLimitViolation.clientId violationData)
      (InsertRateLimitViolation.endpoint violationData)
      (InsertRateLimitViolation.attempts violationData)
      now
      (nullish (InsertRateLimitViolation.isBlocked violationData) false)
      (InsertRateLimitViolation.userAgent violationData)
      (InsertRateLimitViolation.ipAddress violationData) in
  let unshifted := violation :: violations s in
  (* Keep only the last 100 violations *)
  let kept :=
    if (100 <? Z.of_nat (List.length unshifted))
    then List.firstn 100 unshifted
    else unshifted in
  (violation, mk (configs s) (activeLimits s) kept (stats s) (id + 1)).

(** [this.violations.slice(0, limit)]; a negative [limit] counts from the
    end. *)
Definition getRecentViolations (limit : Z) (s : t)
    : list RateLimitViolation.t :=
  let len := Z.of_nat (List.length (violations s)) in
  let stop := if limit <? 0 then Z.max (len + limit) 0 else limit in
  List.firstn (Z.to_nat stop) (violations s).

Definition blockClient (clientId : string) (s : t) : t :=
  let limits :=
    match activeLimits s !! clientId with
    | Some activeLimit =>
        <[clientId := ActiveRateLimit.with_status activeLimit blocked]>
          (activeLimits s)
    | None => activeLimits s
    end in
  (* Mark recent violations as blocked *)
  let vs :=
    List.map (fun v =>
                if String.eqb (RateLimitViolation.clientId v) clientId
                then RateLimitViolation.block v else v)
             (violations s) in
  mk (configs s) limits vs (stats s) (currentId s).

Definition getSystemStats (s : t) : DashboardStats.t :=
  DashboardStats.mk
    (SystemStats.totalRequests (stats s))
    (SystemStats.rateLimitedRequests (stats s))
    (Z.of_nat (size (activeLimits s)))
    (SystemStats.avgResponseTime (stats s)).

(** [{ ...this.stats, ...statsData, timestamp: new Date() }] *)
Definition updateSystemStats (statsData : PartialSystemStats.t) (now : Z)
    (s : t) : t :=
  let old := stats s in
  let merged :=
    SystemStats.mk
      (SystemStats.id old)
      (nullish (PartialSystemStats.userId statsData) (SystemStats.userId old))
      (nullish (PartialSystemStats.totalRequests statsData)
               (SystemStats.totalRequests old))
      (nullish (PartialSystemStats.rateLimitedRequests statsData)
               (SystemStats.rateLimitedRequests old))
      (nullish (PartialSystemStats.activeClients statsData)
               (SystemStats.activeClients old))
      (nullish (PartialSystemStats.avgResponseTime statsData)
               (SystemStats.avgResponseTime old))
      (nullish (PartialSystemStats.requestsToday statsData)
               (SystemStats.requestsToday old))
      (nullish (PartialSystemStats.requestsThisMonth statsData)
               (SystemStats.requestsThisMonth old))
      now in
  mk (configs s) (activeLimits s) (violations s) merged (currentId s).

(** Deletes every entry whose [resetTime] is before [now]; an invalid
    date compares false and stays. *)
Definition cleanupExpiredLimits (now : Z) (s : t) : t :=
  mk (configs s)
     (filter (fun kv => JS.ltb (ActiveRateLimit.resetTime (snd kv)) (Num now) = false)
             (activeLimits s))
     (violations s) (stats s) (currentId s).

(** What [upsertUser] (without an id), [createApiKey] and [recordUsage] do
    to the members modelled here: [this.currentId++]. *)
Definition allocateId (s : t) : t :=
  mk (configs s) (activeLimits s) (violations s) (stats s) (currentId s + 1).

End MemStorage.

(** ** The process state and the monad of the engine

    The limiters share the singleton [storage]; the sliding-window limiter
    also owns the private map [requestTimes], which lives as long as the
    [RateLimiterService] singleton that holds the limiter. *)

Record World : Type := mkWorld {
  storage : MemStorage.t;
  requestTimes : gmap string (list Z)
}.

Inductive outcome (A : Type) : Type :=
| Returned (a : A) (w : World)
| Thrown (msg : string) (w : World).
Arguments Returned {A} a w.
Arguments Thrown {A} msg w.

Definition M (A : Type) : Type := World -> outcome A.

Definition ret {A : Type} (a : A) : M A := fun w => Returned a w.

Definition bind {A B : Type} (c : M A) (k : A -> M B) : M B :=
  fun w =>
    match c w with
    | Returned a w' => k a w'
    | Thrown msg w' => Thrown msg w'
    end.

Definition throw {A : Type} (msg : string) : M A := fun w => Thrown msg w.

Notation "x <- c ;; k" := (bind c (fun x => k))
  (at level 100, c at next level, right associativity).
Notation "c ;;; k" := (bind c (fun _ => k))
  (at level 100, right associativity).

(** Calls on the [storage] singleton. *)
Definition storage_read {A : Type} (f : MemStorage.t -> A) : M A :=
  fun w => Returned (f (storage w)) w.

Definition storage_call {A : Type} (f : MemStorage.t -> A * MemStorage.t) : M A :=
  fun w =>
    let r := f (storage w) in
    Returned (fst r) (mkWorld (snd r) (requestTimes w)).

Definition storage_exec (f : MemStorage.t -> MemStorage.t) : M unit :=
  fun w => Returned tt (mkWorld (f (storage w)) (requestTimes w)).

Definition requestTimes_get (clientId : string) : M (option (list Z)) :=
  fun w => Returned (requestTimes w !! clientId) w.

Definition requestTimes_set (clientId : string) (times : list Z) : M unit :=
  fun w => Returned tt (mkWorld (storage w) (<[clientId := times]> (requestTimes w))).

(** [newCount >= config.requestLimit * 0.8] on integers. *)
Definition reaches_80_percent (newCount requestLimit : Z) : bool :=
  4 * requestLimit <=? 5 * newCount.

(** [remaining <= config.requestLimit * 0.2] on integers. *)
Definition within_20_percent (remaining requestLimit : Z) : bool :=
  5 * remaining <=? requestLimit.

(** The interface [RateLimiterAlgorithm]. *)
Record RateLimiterAlgorithm : Type := {
  checkLimit : string -> RateLimitConfig.t -> Z -> M RateLimitStatus.t
}.

Module TokenBucketLimiter.

Definition checkLimit (clientId : string) (config : RateLimitConfig.t)
    (now : Z) : M RateLimitStatus.t :=
  activeLimit <- storage_read (MemStorage.getActiveRateLimit clientId) ;;
  let windowMs := parseTimeWindow (RateLimitConfig.timeWindow config) in
  let requestLimit := RateLimitConfig.requestLimit config in
  match activeLimit with
  | None =>
      (* First request - create new bucket with full tokens *)
      let resetTime := JS.newDate (JS.add (Num now) windowMs) in
      storage_call (MemStorage.upsertActiveRateLimit
        (InsertActiveRateLimit.literal clientId 1 resetTime active) now) ;;;
      ret (RateLimitStatus.mk true (requestLimit - 1) resetTime None)
  | Some activeLimit =>
      (* Check if bucket needs refill (time window has passed) *)
      if JS.geb (Num now) (ActiveRateLimit.resetTime activeLimit) then
        (* Refill bucket - reset count and extend time window *)
        let resetTime := JS.newDate (JS.add (Num now) windowMs) in
        storage_call (MemStorage.upsertActiveRateLimit
          (InsertActiveRateLimit.literal clientId 1 resetTime active) now) ;;;
        ret (RateLimitStatus.mk true (requestLimit - 1) resetTime None)
      (* Check if we have tokens available *)
      else if requestLimit <=? ActiveRateLimit.requestCount activeLimit then
        (* No tokens available, request denied *)
        ret (RateLimitStatus.mk false 0
               (ActiveRateLimit.resetTime activeLimit)
               (Some (JS.ceil_div
                        (JS.sub (ActiveRateLimit.resetTime activeLimit) (Num now))
                        1000)))
      else
        (* Consume a token *)
        let newCount := ActiveRateLimit.requestCount activeLimit + 1 in
        let status :=
          if reaches_80_percent newCount requestLimit then warning else active in
        storage_call (MemStorage.upsertActiveRateLimit
          (InsertActiveRateLimit.literal clientId newCount
             (ActiveRateLimit.resetTime activeLimit) status) now) ;;;
        ret (RateLimitStatus.mk true (requestLimit - newCount)
               (ActiveRateLimit.resetTime activeLimit) None)
  end.

Definition algorithm : RateLimiterAlgorithm :=
  Build_RateLimiterAlgorithm checkLimit.

End TokenBucketLimiter.

Module SlidingWindowLimiter.

(** [times[0]]: [undefined] on an empty array, which every arithmetic
    operation turns into [NaN]. *)
Definition first (times : list Z) : num :=
  match times with
  | t :: _ => Num t
  | [] => NaN
  end.

Definition checkLimit (clientId : string) (config : RateLimitConfig.t)
    (now : Z) : M RateLimitStatus.t :=
  let windowMs := parseTimeWindow (RateLimitConfig.timeWindow config) in
  let windowStart := JS.sub (Num now) windowMs in
  let requestLimit := RateLimitConfig.requestLimit config in
  (* Get request times for this client *)
  stored <- requestTimes_get clientId ;;
  let times := nullish stored [] in
  (* Remove old requests outside the window *)
  let times := List.filter (fun time => JS.gtb (Num time) windowStart) times in
  (* Check if limit exceeded *)
  if requestLimit <=? Z.of_nat (List.length times) then
    let oldest := first times in
    let retryAfter := JS.ceil_div (JS.sub oldest windowStart) 1000 in
    storage_call (MemStorage.upsertActiveRateLimit
      (InsertActiveRateLimit.literal clientId
         (Z.of_nat (List.length times) + 1)
         (JS.newDate (JS.add oldest windowMs)) blocked)
      now) ;;;
    ret (RateLimitStatus.mk false 0 (JS.add oldest windowMs) (Some retryAfter))
  else
    (* Add current request *)
    let times := (times ++ [now])%list in
    requestTimes_set clientId times ;;;
    let remaining := requestLimit - Z.of_nat (List.length times) in
    let status :=
      if within_20_percent remaining requestLimit then warning else active in
    storage_call (MemStorage.upsertActiveRateLimit
      (InsertActiveRateLimit.literal clientId (Z.of_nat (List.length times))
         (JS.newDate (JS.add (Num now) windowMs)) status) now) ;;;
    ret (RateLimitStatus.mk true remaining (JS.add (Num now) windowMs) None).

Definition algorithm : RateLimiterAlgorithm :=
  Build_RateLimiterAlgorithm checkLimit.

End SlidingWindowLimiter.

Module FixedWindowLimiter.

(** [windowEnd.getTime()], through the two dates the code builds:
    [windowStart = new Date(Math.floor(now / windowMs) * windowMs)] and
    [windowEnd = new Date(windowStart.getTime() + windowMs)]. *)
Definition windowEnd (now : Z) (windowMs : num) : num :=
  let windowStart := JS.newDate (JS.floor_multiple (Num now) windowMs) in
  JS.newDate (JS.add windowStart windowMs).

(** The branch taken when [!activeLimit] holds or the stored [resetTime]
    is not after [now]. *)
Definition startWindow (clientId : string) (requestLimit : Z)
    (windowEnd : num) (now : Z) : M RateLimitStatus.t :=
  storage_call (MemStorage.upsertActiveRateLimit
    (InsertActiveRateLimit.literal clientId 1 windowEnd active) now) ;;;
  ret (RateLimitStatus.mk true (requestLimit - 1) windowEnd None).

Definition checkLimit (clientId : string) (config : RateLimitConfig.t)
    (now : Z) : M RateLimitStatus.t :=
  let windowMs := parseTimeWindow (RateLimitConfig.timeWindow config) in
  let windowEnd := windowEnd now windowMs in
  let requestLimit := RateLimitConfig.requestLimit config in
  activeLimit <- storage_read (MemStorage.getActiveRateLimit clientId) ;;
  match activeLimit with
  | None =>
      (* New window or expired *)
      startWindow clientId requestLimit windowEnd now
  | Some activeLimit =>
      if JS.leb (ActiveRateLimit.resetTime activeLimit) (Num now) then
        startWindow clientId requestLimit windowEnd now
      (* Check if limit exceeded *)
      else if requestLimit <=? ActiveRateLimit.requestCount activeLimit then
        storage_call (MemStorage.upsertActiveRateLimit
          (InsertActiveRateLimit.literal clientId
             (ActiveRateLimit.requestCount activeLimit + 1)
             (ActiveRateLimit.resetTime activeLimit) blocked) now) ;;;
        ret (RateLimitStatus.mk false 0
               (ActiveRateLimit.resetTime activeLimit)
               (Some (JS.ceil_div
                        (JS.sub (ActiveRateLimit.resetTime activeLimit) (Num now))
                        1000)))
      else
        (* Increment counter *)
        let newCount := ActiveRateLimit.requestCount activeLimit + 1 in
        let status :=
          if reaches_80_percent newCount requestLimit then warning else active in
        storage_call (MemStorage.upsertActiveRateLimit
          (InsertActiveRateLimit.literal clientId newCount
             (ActiveRateLimit.resetTime activeLimit) status) now) ;;;
        ret (RateLimitStatus.mk true (requestLimit - newCount)
               (ActiveRateLimit.resetTime activeLimit) None)
  end.

Definition algorithm : RateLimiterAlgorithm :=
  Build_RateLimiterAlgorithm checkLimit.

End FixedWindowLimiter.

(** The request object as [getClientId] reads it. *)
Module Request.
Record t : Type := mk {
  ip : option string;
  headers : gmap string string;
  connection_remoteAddress : option string;
  user_id : option string
}.
End Request.

Module RateLimiterService.

(** The [algorithms] map filled by the constructor. *)
Definition algorithms : list (string * RateLimiterAlgorithm) :=
  [ ("token-bucket", TokenBucketLimiter.algorithm);
    ("sliding-window", SlidingWindowLimiter.algorithm);
    ("fixed-window", FixedWindowLimiter.algorithm) ].

Fixpoint algorithms_get (key : string)
    (m : list (string * RateLimiterAlgorithm)) : option RateLimiterAlgorithm :=
  match m with
  | [] => None
  | (k, a) :: m' => if String.eqb key k then Some a else algorithms_get key m'
  end.

Definition checkRateLimit (clientId endpoint : string) (now : Z)
    : M RateLimitStatus.t :=
  config <- storage_read MemStorage.getRateLimitConfig ;;
  match config with
  | None => throw "No rate limit configuration found"
  | Some config =>
      match algorithms_get (RateLimitConfig.algorithm config) algorithms with
      | None =>
          throw ("Unknown algorithm: " ++ RateLimitConfig.algorithm config)%string
      | Some algorithm =>
          result <- checkLimit algorithm clientId config now ;;
          (* Update system stats *)
          stats <- storage_read MemStorage.getSystemStats ;;
          storage_exec (MemStorage.updateSystemStats
            (PartialSystemStats.only_totalRequests
               (DashboardStats.totalRequests stats + 1)) now) ;;;
          if negb (RateLimitStatus.allowed result) then
            (* Log violation *)
            storage_call (MemStorage.createViolation
              (InsertRateLimitViolation.literal clientId endpoint) now) ;;;
            (* Update rate limited counter *)
            stats <- storage_read MemStorage.getSystemStats ;;
            storage_exec (MemStorage.updateSystemStats
              (PartialSystemStats.only_rateLimitedRequests
                 (DashboardStats.rateLimited stats + 1)) now) ;;;
            ret result
          else ret result
      end
  end.

Definition forwardedFor (req : Request.t) : option string :=
  match Request.headers req !! "x-forwarded-for" with
  | Some h => Some (JS.trim (JS.split_first "," h))
  | None => None
  end.

Definition bearerToken (req : Request.t) : option string :=
  match Request.headers req !! "authorization" with
  | Some h => Some (JS.replace "Bearer " "" h)
  | None => None
  end.

Definition getClientId (req : Request.t) (clientIdType : string) : string :=
  if String.eqb clientIdType "ip" then
    JS.or_lit
      (JS.or
         (JS.or
            (JS.or (Request.ip req) (forwardedFor req))
            (Request.headers req !! "x-real-ip"))
         (Request.connection_remoteAddress req))
      "127.0.0.1"
  else if String.eqb clientIdType "api-key" then
    JS.or_lit
      (JS.or (Request.headers req !! "x-api-key") (bearerToken req))
      "anonymous-api"
  else if String.eqb clientIdType "user-id" then
    JS.or_lit
      (JS.or
         (JS.or (Request.user_id req) (Request.headers req !! "x-user-id"))
         (Request.headers req !! "user-id"))
      "anonymous-user"
  else
    JS.or_lit (Request.ip req) "127.0.0.1".

End RateLimiterService.

(** * Specification vocabulary *)

(** [k] is the ceiling of [x / d]. *)
Definition is_ceil_div (x d k : Z) : Prop := d * (k - 1) < x <= d * k.

(** The client has no record, or its record's [resetTime] has passed. *)
Definition fresh_or_expired (w : World) (clientId : string) (now : Z) : Prop :=
  match MemStorage.getActiveRateLimit clientId (storage w) with
  | None => True
  | Some a => exists r, ActiveRateLimit.resetTime a = Num r /\ r <= now
  end.

(** The timestamps the sliding-window limiter holds for a client. *)
Definition stored_times (w : World) (clientId : string) : list Z :=
  nullish (requestTimes w !! clientId) [].

(** The timestamps of [ts] inside the window [(now - windowMs, now]]. *)
Definition in_window (now windowMs : Z) (ts : list Z) : list Z :=
  List.filter (fun t => (now - windowMs <? t) && (t <=? now)) ts.

(** Timestamps in arrival order under a clock that does not run backwards:
    each one is at most every later one, and none is after [now]. *)
Definition arrival_ordered (now : Z) (ts : list Z) : Prop :=
  StronglySorted Z.le ts /\ Forall (fun t => t <= now) ts.

(** The shape of a decision: [retryAfter] is present exactly on a denial,
    [remaining] is not negative, and it is zero on a denial. *)
Definition well_shaped (r : RateLimitStatus.t) : Prop :=
  (is_Some (RateLimitStatus.retryAfter r) <-> RateLimitStatus.allowed r = false) /\
  0 <= RateLimitStatus.remaining r /\
  (RateLimitStatus.allowed r = false -> RateLimitStatus.remaining r = 0).

(** What a run returned, if it returned. *)
Definition result_of {A : Type} (o : outcome A) : option A :=
  match o with
  | Returned a _ => Some a
  | Thrown _ _ => None
  end.

(** ** States of the store

    The states [MemStorage] goes through: the constructor, then any sequence
    of the methods modelled above. *)
Inductive reachable : MemStorage.t -> Prop :=
| reach_new (now : Z) :
    reachable (MemStorage.new now)
| reach_updateRateLimitConfig (s : MemStorage.t) (d : InsertRateLimitConfig.t)
    (now : Z) :
    reachable s -> reachable (snd (MemStorage.updateRateLimitConfig d now s))
| reach_upsertActiveRateLimit (s : MemStorage.t) (d : InsertActiveRateLimit.t)
    (now : Z) :
    reachable s -> reachable (snd (MemStorage.upsertActiveRateLimit d now s))
| reach_deleteActiveRateLimit (s : MemStorage.t) (c : string) :
    reachable s -> reachable (MemStorage.deleteActiveRateLimit c s)
| reach_createViolation (s : MemStorage.t) (d : InsertRateLimitViolation.t)
    (now : Z) :
    reachable s -> reachable (snd (MemStorage.createViolation d now s))
| reach_blockClient (s : MemStorage.t) (c : string) :
    reachable s -> reachable (MemStorage.blockClient c s)
| reach_updateSystemStats (s : MemStorage.t) (p : PartialSystemStats.t)
    (now : Z) :
    reachable s -> reachable (MemStorage.updateSystemStats p now s)
| reach_cleanupExpiredLimits (s : MemStorage.t) (now : Z) :
    reachable s -> reachable (MemStorage.cleanupExpiredLimits now s)
| reach_allocateId (s : MemStorage.t) :
    reachable s -> reachable (MemStorage.allocateId s).

(** Record [a] was created after record [b]: identifiers are drawn from a
    counter that only grows. *)
Definition newer (a b : RateLimitViolation.t) : Prop :=
  RateLimitViolation.id b < RateLimitViolation.id a.

(** The log lists violations most recent first, and every identifier in it
    has already been drawn. *)
Definition newest_first (s : MemStorage.t) : Prop :=
  StronglySorted newer (MemStorage.violations s) /\
  Forall (fun v => RateLimitViolation.id v < MemStorage.currentId s)
         (MemStorage.violations s).

(** ** Readings the code does not follow

    Stated as predicates so that they can be tested on concrete inputs. *)

(** A fixed-window request on a fresh or expired client opens a window that
    ends at [now + windowMs]. *)
Definition window_anchored_at_arrival (w : World) (clientId : string)
    (config : RateLimitConfig.t) (now : Z) : Prop :=
  fresh_or_expired w clientId now ->
  exists r w' a',
    FixedWindowLimiter.checkLimit clientId config now w = Returned r w' /\
    RateLimitStatus.allowed r = true /\
    RateLimitStatus.remaining r = RateLimitConfig.requestLimit config - 1 /\
    MemStorage.getActiveRateLimit clientId (storage w') = Some a' /\
    ActiveRateLimit.requestCount a' = 1 /\
    ActiveRateLimit.resetTime a'
    = JS.add (Num now) (parseTimeWindow (RateLimitConfig.timeWindow config)).

(** A sliding-window request that finds at least [requestLimit] timestamps
    in the window is denied with [resetTime = oldest + windowMs], [oldest]
    being the earliest timestamp of the window, and the store receives that
    [resetTime]. *)
Definition sliding_denial_resets_at_oldest (w : World) (clientId : string)
    (config : RateLimitConfig.t) (now : Z) : Prop :=
  forall wms,
    parseTimeWindow (RateLimitConfig.timeWindow config) = Num wms ->
    RateLimitConfig.requestLimit config
    <= Z.of_nat (List.length (in_window now wms (stored_times w clientId))) ->
    exists oldest k w' a',
      In oldest (in_window now wms (stored_times w clientId)) /\
      Forall (fun t => oldest <= t) (in_window now wms (stored_times w clientId)) /\
      is_ceil_div (oldest - (now - wms)) 1000 k /\
      SlidingWindowLimiter.checkLimit clientId config now w
      = Returned (RateLimitStatus.mk false 0 (Num (oldest + wms)) (Some (Num k))) w' /\
      requestTimes w' = requestTimes w /\
      MemStorage.getActiveRateLimit clientId (storage w') = Some a' /\
      ActiveRateLimit.status a' = blocked /\
      ActiveRateLimit.requestCount a'
      = Z.of_nat (List.length (in_window now wms (stored_times w clientId))) + 1 /\
      ActiveRateLimit.resetTime a' = Num (oldest + wms).

(** Every decision the service returns is well shaped, whatever the active
    policy. *)
Definition decisions_well_shaped (w : World) (clientId endpoint : string)
    (now : Z) : Prop :=
  forall r w',
    RateLimiterService.checkRateLimit clientId endpoint now w = Returned r w' ->
    well_shaped r.

(** An unrecognised [clientIdType] resolves the client as the [ip] mode
    does. *)
Definition unknown_mode_uses_ip_chain (req : Request.t) (clientIdType : string)
    : Prop :=
  clientIdType <> "ip" -> clientIdType <> "api-key" -> clientIdType <> "user-id" ->
  RateLimiterService.getClientId req clientIdType
  = RateLimiterService.getClientId req "ip".

(** * Sample states *)

Definition demoRecord (c : string) (count : Z) (reset : Z) (s : Status)
    : ActiveRateLimit.t :=
  ActiveRateLimit.mk 2 None s None None c count (Num reset) 1000.

Definition demoConfig (alg : string) (limit : Z) (window : string)
    : RateLimitConfig.t :=
  RateLimitConfig.mk 1 "Default Config" alg limit window "ip" true 0
                     None None None None.

Definition demoStore (alg : string) (limit : Z) (window : string)
    (limits : gmap string ActiveRateLimit.t) : MemStorage.t :=
  MemStorage.mk [(1, demoConfig alg limit window)] limits []
                (SystemStats.mk 1 None 0 0 0 0 0 0 0) 3.

(** A fixed-window client that has used up its three requests. *)
Definition demoBlockedWorld : World :=
  mkWorld (demoStore "fixed-window" 3 "30s"
             {[ "10.0.0.1" := demoRecord "10.0.0.1" 3 30000 warning ]}) ∅.

(** A token-bucket client whose bucket was due for refill at 1200, and who
    also has a timestamp left in the sliding-window limiter. *)
Definition demoRefillWorld : World :=
  mkWorld (demoStore "token-bucket" 3 "30s"
             {[ "10.0.0.1" := demoRecord "10.0.0.1" 3 1200 warning ]})
          {[ "10.0.0.1" := [1000] ]}.

(** A sliding-window client with three requests on record. *)
Definition demoSlidingWorld : World :=
  mkWorld (demoStore "sliding-window" 3 "10s" ∅)
          {[ "10.0.0.1" := [1000; 1200; 1400] ]}.

(** A sliding-window client with one request on record, under a window of
    100 000 001 days: [oldest + windowMs] lies beyond the range of [Date]. *)
Definition demoLongWindowWorld : World :=
  mkWorld (demoStore "sliding-window" 1 "100000001d" ∅)
          {[ "10.0.0.1" := [1000] ]}.

(** Two sliding-window clients, each with a record and timestamps. *)
Definition demoSharedWorld : World :=
  mkWorld
    (MemStorage.mk [(1, demoConfig "sliding-window" 3 "10s")]
       (<["10.0.0.9" :=
            ActiveRateLimit.mk 3 None active None None "10.0.0.9" 2
              (Num 11300) 1300]>
          {[ "10.0.0.1" := demoRecord "10.0.0.1" 3 11400 warning ]})
       [] (SystemStats.mk 1 None 0 0 0 0 0 0 0) 4)
    (<["10.0.0.9" := [1100; 1300]]> {[ "10.0.0.1" := [1000; 1200; 1400] ]}).

(** A request that only carries a forwarded-for header. *)
Definition demoForwarded : Request.t :=
  Request.mk None {[ "x-forwarded-for" := "203.0.113.7, 10.0.0.2" ]} None None.

Definition slidingPolicy : InsertRateLimitConfig.t :=
  InsertRateLimitConfig.mk None "sliding-window" 1 "60s" "ip" (Some true)
                           None None None.

(** One client under a sliding-window policy of one request per minute: a
    first request, a second one that is denied, then the policy is installed
    again and the client asks a third time. *)
Definition policySwapScenario
    : M (bool * bool * option ActiveRateLimit.t * bool) :=
  storage_call (MemStorage.updateRateLimitConfig slidingPolicy 1000) ;;;
  r1 <- RateLimiterService.checkRateLimit "10.0.0.1" "/api/protected/test" 100000 ;;
  r2 <- RateLimiterService.checkRateLimit "10.0.0.1" "/api/protected/test" 100001 ;;
  storage_call (MemStorage.updateRateLimitConfig slidingPolicy 100002) ;;;
  cleared <- storage_read (MemStorage.getActiveRateLimit "10.0.0.1") ;;
  r3 <- RateLimiterService.checkRateLimit "10.0.0.1" "/api/protected/test" 100003 ;;
  ret (RateLimitStatus.allowed r1, RateLimitStatus.allowed r2, cleared,
       RateLimitStatus.allowed r3).

(** [n] violations recorded one after the other. *)
Fixpoint record_violations (n : nat) (s : MemStorage.t) : MemStorage.t :=
  match n with
  | O => s
  | S n' =>
      snd (MemStorage.createViolation
             (InsertRateLimitViolation.literal "10.0.0.1" "/api/protected/test")
             0 (record_violations n' s))
  end.

(** A store whose violation log is full: 100 violations on a new store. *)
Definition demoFullLog : MemStorage.t := record_violations 100 (MemStorage.new 0).

Definition demoViolation : InsertRateLimitViolation.t :=
  InsertRateLimitViolation.literal "10.0.0.1" "/api/protected/test".

(** * Proof steps shared by the limiters *)

Ltac run_limiter :=
  unfold TokenBucketLimiter.checkLimit, SlidingWindowLimiter.checkLimit,
    FixedWindowLimiter.checkLimit, FixedWindowLimiter.startWindow,
    bind, ret, storage_read, storage_call, requestTimes_get, requestTimes_set.

Ltac limiter_branches :=
  repeat match goal with
         | |- context [match ?x with _ => _ end] => destruct x eqn:?
         end.

(** * The protected-route middleware ([server/routes.ts])

    The handler registered on ['/api/protected/*'].  The response is kept as
    what the handler decides: pass the request on ([next]) or answer 429,
    with the rate-limit headers as the values the code serialises
    ([toString], [toISOString]).  [new Date(result.resetTime).toISOString()]
    throws on the invalid date, that is when [resetTime] is [NaN] or lies
    beyond the range of [Date]; the [try]/[catch] around the whole body
    turns any exception into [next()].  The WebSocket broadcasts are not
    part of the state modelled here. *)

Module Routes.

Record RateLimitHeaders : Type := mkHeaders {
  X_RateLimit_Limit : Z;
  X_RateLimit_Remaining : Z;
  X_RateLimit_Reset : Z;
  Retry_After : option Z
}.

Inductive Handled : Type :=
| next (headers : option RateLimitHeaders)
| status429 (headers : RateLimitHeaders) (retryAfter : option num).

(** [if (result.retryAfter) res.set('Retry-After', ...)]: absent, zero and
    [NaN] are falsy. *)
Definition retryAfterHeader (retryAfter : option num) : option Z :=
  match retryAfter with
  | Some (Num z) => if z =? 0 then None else Some z
  | _ => None
  end.

(** The body of the [try] block. *)
Definition handle (req : Request.t) (path : string) (now : Z) : M Handled :=
  config <- storage_read MemStorage.getRateLimitConfig ;;
  match config with
  | None => ret (next None)
  | Some config =>
      let clientId :=
        RateLimiterService.getClientId req (RateLimitConfig.clientIdType config) in
      result <- RateLimiterService.checkRateLimit clientId path now ;;
      (* Update total requests counter *)
      stats <- storage_read MemStorage.getSystemStats ;;
      storage_exec (MemStorage.updateSystemStats
        (PartialSystemStats.only_totalRequests
           (DashboardStats.totalRequests stats + 1)) now) ;;;
      (* Set rate limit headers *)
      match JS.newDate (RateLimitStatus.resetTime result) with
      | NaN => throw "Invalid time value"
      | Num reset =>
          let headers :=
            mkHeaders (RateLimitConfig.requestLimit config)
                      (RateLimitStatus.remaining result) reset
                      (retryAfterHeader (RateLimitStatus.retryAfter result)) in
          if negb (RateLimitStatus.allowed result) then
            (* Update rate limited counter *)
            storage_exec (MemStorage.updateSystemStats
              (PartialSystemStats.only_rateLimitedRequests
                 (DashboardStats.rateLimited stats + 1)) now) ;;;
            (* Create violation record *)
            storage_call (MemStorage.createViolation
              (InsertRateLimitViolation.literal clientId path) now) ;;;
            ret (status429 headers (RateLimitStatus.retryAfter result))
          else ret (next (Some headers))
      end
  end.

(** The handler with its [catch]: an exception is logged and the request is
    passed on. *)
Definition rateLimitMiddleware (req : Request.t) (path : string) (now : Z)
    (w : World) : Handled * World :=
  match handle req path now w with
  | Returned h w' => (h, w')
  | Thrown _ w' => (next None, w')
  end.

End Routes.

(** * Runs of one client

    The requests of one client served one after the other by a limiter, at
    the given instants. *)
Fixpoint serve (alg : RateLimiterAlgorithm) (clientId : string)
    (config : RateLimitConfig.t) (times : list Z) : M (list RateLimitStatus.t) :=
  match times with
  | [] => ret []
  | now :: rest =>
      r <- checkLimit alg clientId config now ;;
      rs <- serve alg clientId config rest ;;
      ret (r :: rs)
  end.

(** The instants at which a run admitted a request. *)
Definition admitted (times : list Z) (rs : list RateLimitStatus.t) : list Z :=
  List.map fst
    (List.filter (fun p => RateLimitStatus.allowed (snd p)) (List.combine times rs)).

(** One of the three limiters the service registers. *)
Definition registered (alg : RateLimiterAlgorithm) : Prop :=
  alg = TokenBucketLimiter.algorithm \/
  alg = SlidingWindowLimiter.algorithm \/
  alg = FixedWindowLimiter.algorithm.

(** The names under which the service registers them. *)
Definition known_algorithm (name : string) : Prop :=
  name = "token-bucket" \/ name = "sliding-window" \/ name = "fixed-window".

(** * Well-formedness of the store *)

(** The policy map: keys are distinct, each policy is filed under its own
    [id], and at most one policy is active. *)
Definition configs_wf (s : MemStorage.t) : Prop :=
  List.NoDup (List.map fst (MemStorage.configs s)) /\
  List.Forall (fun kc => fst kc = RateLimitConfig.id (snd kc)) (MemStorage.configs s) /\
  (List.length (List.filter RateLimitConfig.isActive
                  (List.map snd (MemStorage.configs s))) <= 1)%nat.

(** The state table: each record is filed under its own [clientId], its
    [id] has been drawn from the counter, and no two clients share an
    [id]. *)
Definition limits_wf (s : MemStorage.t) : Prop :=
  (forall c a, MemStorage.getActiveRateLimit c s = Some a ->
     ActiveRateLimit.clientId a = c /\
     ActiveRateLimit.id a < MemStorage.currentId s) /\
  (forall c1 c2 a1 a2,
     MemStorage.getActiveRateLimit c1 s = Some a1 ->
     MemStorage.getActiveRateLimit c2 s = Some a2 ->
     ActiveRateLimit.id a1 = ActiveRateLimit.id a2 -> c1 = c2).

(** The end of the aligned window that contains [now]. *)
Definition aligned_window_end (now windowMs : Z) : Z :=
  now / windowMs * windowMs + windowMs.

(** The decisions a client gets for [n] requests inside one window of a
    fixed-window or token-bucket policy: request number [i] (from zero) is
    allowed when it is the first or when [i < requestLimit]. *)
Definition within_quota (requestLimit : Z) (i : nat) : bool :=
  (Nat.eqb i 0) || (Z.of_nat i <? requestLimit).

Definition quota_flags (requestLimit : Z) (n : nat) : list bool :=
  List.map (within_quota requestLimit) (List.seq 0 n).

Definition quota_remaining (requestLimit : Z) (n : nat) : list Z :=
  List.map (fun i => if within_quota requestLimit i
                     then requestLimit - (Z.of_nat i + 1) else 0)
           (List.seq 0 n).

(** The decisions on a running record holding [k] requests: request [j] is
    allowed when [k + j] is below the limit. *)
Definition running_flag (requestLimit k : Z) (j : nat) : bool :=
  k + Z.of_nat j <? requestLimit.

Definition running_remaining (requestLimit k : Z) (j : nat) : Z :=
  if running_flag requestLimit k j then requestLimit - (k + Z.of_nat j + 1) else 0.

(** What a run on a running record returns. *)
Definition running_outcome (alg : RateLimiterAlgorithm) (clientId : string)
    (config : RateLimitConfig.t) (e : num) (k : Z) (times : list Z) (w : World)
    : Prop :=
  exists rs w',
    serve alg clientId config times w = Returned rs w' /\
    List.map RateLimitStatus.allowed rs
    = List.map (running_flag (RateLimitConfig.requestLimit config) k)
               (List.seq 0 (List.length times)) /\
    List.map RateLimitStatus.remaining rs
    = List.map (running_remaining (RateLimitConfig.requestLimit config) k)
               (List.seq 0 (List.length times)) /\
    List.Forall (fun r => RateLimitStatus.resetTime r = e) rs.

(** No window [(t - windowMs, t]] holds more than [requestLimit] of the
    instants of [l]. *)
Definition at_most_per_window (requestLimit windowMs : Z) (l : list Z) : Prop :=
  forall t, Z.of_nat (List.length (in_window t windowMs l)) <= requestLimit.

(** Every character of the string satisfies [p]. *)
Fixpoint string_forall (p : ascii -> bool) (s : string) : bool :=
  match s with
  | EmptyString => true
  | String c s' => p c && string_forall p s'
  end.

(** A string without white space and without commas, such as an address. *)
Definition plain_token (s : string) : bool :=
  string_forall (fun c => negb (JS.isWhiteSpace c) && negb (Ascii.eqb c ",")) s.

Definition all_white_space (s : string) : bool :=
  string_forall JS.isWhiteSpace s.

(** Empty, or beginning with a comma: what follows the first entry of a
    comma-separated header. *)
Definition further_entries (s : string) : Prop :=
  match s with
  | EmptyString => True
  | String c _ => c = ","%char
  end.

(** * Properties *)

(** ** [parseTimeWindow] on examples *)

Example parseTimeWindow_30s : parseTimeWindow "30s" = Num 30000.
Proof. reflexivity. Qed.
Example parseTimeWindow_1d : parseTimeWindow "1d" = Num 86400000.
Proof. reflexivity. Qed.
Example parseTimeWindow_unknown_unit : parseTimeWindow "10x" = Num 60000.
Proof. reflexivity. Qed.
Example parseTimeWindow_no_digits : parseTimeWindow "xs" = NaN.
Proof. reflexivity. Qed.

(** ** Arithmetic of [Math.ceil] *)

Lemma ceil_div_spec (x d : Z) :
  0 < d -> exists k, JS.ceil_div (Num x) d = Num k /\ is_ceil_div x d k.
Proof.
  intros Hd. exists (- ((- x) / d)). split; [reflexivity|].
  unfold is_ceil_div.
  pose proof (Z.mul_div_le (- x) d Hd).
  pose proof (Z.mul_succ_div_gt (- x) d Hd).
  nia.
Qed.

Lemma is_ceil_div_unique (x d k k' : Z) :
  0 < d -> is_ceil_div x d k -> is_ceil_div x d k' -> k = k'.
Proof. unfold is_ceil_div. intros. nia. Qed.

Lemma is_ceil_div_pos (x d k : Z) : 0 < d -> 0 < x -> is_ceil_div x d k -> 0 < k.
Proof. unfold is_ceil_div. intros. nia. Qed.

(** ** The range of [Date] *)

Lemma newDate_in_range (z : Z) :
  Z.abs z <= JS.MAX_TIME -> JS.newDate (Num z) = Num z.
Proof.
  intros Hin. unfold JS.newDate.
  destruct (Z.leb_spec (Z.abs z) JS.MAX_TIME); [reflexivity | lia].
Qed.

Lemma newDate_beyond (z : Z) :
  JS.MAX_TIME < Z.abs z -> JS.newDate (Num z) = NaN.
Proof.
  intros Hout. unfold JS.newDate.
  destruct (Z.leb_spec (Z.abs z) JS.MAX_TIME); [lia | reflexivity].
Qed.

(** A time value read back from a date builds the same date. *)
Lemma newDate_idempotent (x : num) : JS.newDate (JS.newDate x) = JS.newDate x.
Proof.
  destruct x as [z|]; [|reflexivity]. unfold JS.newDate.
  destruct (Z.abs z <=? JS.MAX_TIME) eqn:Hin; [now rewrite Hin | reflexivity].
Qed.

(** A date is the number it was built from, or the invalid date when that
    number is beyond the range. *)
Lemma newDate_cases (x : num) :
  JS.newDate x = x \/
  (JS.newDate x = NaN /\ exists z, x = Num z /\ JS.MAX_TIME < Z.abs z).
Proof.
  destruct x as [z|]; [|now left]. unfold JS.newDate.
  destruct (Z.leb_spec (Z.abs z) JS.MAX_TIME); [now left | right; eauto].
Qed.

(** ** Running the monad *)

Lemma bind_inv {A B : Type} (c : M A) (k : A -> M B) (w w'' : World) (b : B) :
  bind c k w = Returned b w'' ->
  exists a w', c w = Returned a w' /\ k a w' = Returned b w''.
Proof.
  unfold bind. destruct (c w) as [a w'|msg w']; [eauto | discriminate].
Qed.

(** ** [upsertActiveRateLimit] *)

Section Upsert.

Variable limitData : InsertActiveRateLimit.t.
Variable now : Z.
Variable s : MemStorage.t.

Let written := fst (MemStorage.upsertActiveRateLimit limitData now s).
Let after := snd (MemStorage.upsertActiveRateLimit limitData now s).

(** The client's record after the call is the record written. *)
Lemma upsert_lookup :
  MemStorage.getActiveRateLimit (InsertActiveRateLimit.clientId limitData) after
  = Some written.
Proof.
  unfold after, written, MemStorage.getActiveRateLimit,
    MemStorage.upsertActiveRateLimit.
  destruct (MemStorage.activeLimits s !! InsertActiveRateLimit.clientId limitData);
    simpl; apply lookup_insert_eq.
Qed.

(** Every other client's record is left alone. *)
Lemma upsert_lookup_ne (other : string) :
  other <> InsertActiveRateLimit.clientId limitData ->
  MemStorage.getActiveRateLimit other after
  = MemStorage.getActiveRateLimit other s.
Proof.
  intros Hne.
  unfold after, MemStorage.getActiveRateLimit, MemStorage.upsertActiveRateLimit.
  destruct (MemStorage.activeLimits s !! InsertActiveRateLimit.clientId limitData);
    simpl; apply lookup_insert_ne; congruence.
Qed.

Lemma upsert_fields :
  ActiveRateLimit.clientId written = InsertActiveRateLimit.clientId limitData /\
  ActiveRateLimit.requestCount written
  = nullish (InsertActiveRateLimit.requestCount limitData) 0 /\
  ActiveRateLimit.resetTime written = InsertActiveRateLimit.resetTime limitData /\
  ActiveRateLimit.status written = InsertActiveRateLimit.status limitData /\
  ActiveRateLimit.lastRequest written = now.
Proof.
  unfold written, MemStorage.upsertActiveRateLimit.
  destruct (MemStorage.activeLimits s !! InsertActiveRateLimit.clientId limitData);
    simpl; auto.
Qed.

(** The policies, the violation log and the counters are left alone. *)
Lemma upsert_frame :
  MemStorage.configs after = MemStorage.configs s /\
  MemStorage.violations after = MemStorage.violations s /\
  MemStorage.stats after = MemStorage.stats s.
Proof.
  unfold after, MemStorage.upsertActiveRateLimit.
  destruct (MemStorage.activeLimits s !! InsertActiveRateLimit.clientId limitData);
    simpl; auto.
Qed.

End Upsert.

(** ** Token bucket *)

(** C5: a token-bucket request that finds the bucket not yet due for refill
    ([now < resetTime]) and already consumed ([requestCount >= requestLimit])
    is denied with [remaining = 0] and [retryAfter] the ceiling of
    [(resetTime - now) / 1000]; the whole process state, and so every field
    of the client's record, is left as it was. *)
Theorem C5_token_bucket_denial_leaves_state
    (w : World) (clientId : string) (config : RateLimitConfig.t) (now r : Z)
    (a : ActiveRateLimit.t) :
  MemStorage.getActiveRateLimit clientId (storage w) = Some a ->
  ActiveRateLimit.resetTime a = Num r ->
  now < r ->
  RateLimitConfig.requestLimit config <= ActiveRateLimit.requestCount a ->
  exists k,
    is_ceil_div (r - now) 1000 k /\
    TokenBucketLimiter.checkLimit clientId config now w
    = Returned (RateLimitStatus.mk false 0 (Num r) (Some (Num k))) w.
Proof.
  intros Hget Hr Hlt Hcount.
  destruct (ceil_div_spec (r - now) 1000) as [k [Hk Hceil]]; [lia|].
  exists k. split; [exact Hceil|].
  unfold TokenBucketLimiter.checkLimit, bind, storage_read.
  rewrite Hget, Hr. unfold JS.geb, JS.leb.
  destruct (Z.leb_spec r now) as [Hle|_]; [lia|].
  destruct (Z.leb_spec (RateLimitConfig.requestLimit config)
              (ActiveRateLimit.requestCount a)) as [_|Hgt]; [|lia].
  unfold ret. simpl JS.sub. now rewrite Hk.
Qed.

Lemma C5_witness :
  exists k,
    is_ceil_div (30000 - 1500) 1000 k /\
    TokenBucketLimiter.checkLimit "10.0.0.1" (demoConfig "token-bucket" 3 "30s") 1500
      (mkWorld (demoStore "token-bucket" 3 "30s"
                  {[ "10.0.0.1" := demoRecord "10.0.0.1" 3 30000 warning ]}) ∅)
    = Returned (RateLimitStatus.mk false 0 (Num 30000) (Some (Num k)))
        (mkWorld (demoStore "token-bucket" 3 "30s"
                    {[ "10.0.0.1" := demoRecord "10.0.0.1" 3 30000 warning ]}) ∅).
Proof.
  apply (C5_token_bucket_denial_leaves_state _ _ _ 1500 30000
           (demoRecord "10.0.0.1" 3 30000 warning)).
  - reflexivity.
  - reflexivity.
  - lia.
  - simpl. lia.
Defined.

(** ** Fixed window *)

(** Arithmetic of the aligned window: for a positive length the start of the
    window is the multiple of the length at or before [now]. *)
Lemma aligned_window_bounds (now wms : Z) :
  0 < wms ->
  now / wms * wms <= now < aligned_window_end now wms /\
  aligned_window_end now wms <= now + wms /\
  (wms | aligned_window_end now wms) /\
  (0 <= now -> 0 <= now / wms * wms).
Proof.
  intros Hpos. unfold aligned_window_end.
  pose proof (Z.mul_div_le now wms Hpos).
  pose proof (Z.mul_succ_div_gt now wms Hpos).
  repeat split; try lia.
  - exists (now / wms + 1). lia.
  - intros Hnow. pose proof (Z.div_pos now wms Hnow Hpos). nia.
Qed.

(** The end of the window a fixed-window request opens, while it is within
    the range of [Date]: the next multiple of the window length after
    [now]. *)
Lemma windowEnd_aligned (now wms : Z) :
  0 < wms -> 0 <= now -> aligned_window_end now wms <= JS.MAX_TIME ->
  FixedWindowLimiter.windowEnd now (Num wms) = Num (aligned_window_end now wms).
Proof.
  intros Hpos Hnow Hrange.
  destruct (aligned_window_bounds now wms Hpos) as (Hstart & Hend & _ & Hnonneg).
  specialize (Hnonneg Hnow).
  unfold FixedWindowLimiter.windowEnd, JS.floor_multiple.
  destruct (Z.eqb_spec wms 0) as [Hz|_]; [lia|].
  unfold JS.newDate at 2.
  destruct (Z.leb_spec (Z.abs (now / wms * wms)) JS.MAX_TIME) as [_|Hout]; [|lia].
  unfold JS.add, JS.newDate. fold (aligned_window_end now wms).
  destruct (Z.leb_spec (Z.abs (aligned_window_end now wms)) JS.MAX_TIME)
    as [_|Hout]; [reflexivity | lia].
Qed.

(** Beyond the range of [Date] the window end is the invalid date. *)
Lemma windowEnd_beyond (now wms : Z) :
  0 < wms -> 0 <= now -> JS.MAX_TIME < aligned_window_end now wms ->
  FixedWindowLimiter.windowEnd now (Num wms) = NaN.
Proof.
  intros Hpos Hnow Hrange.
  unfold FixedWindowLimiter.windowEnd, JS.floor_multiple.
  destruct (Z.eqb_spec wms 0) as [Hz|_]; [lia|].
  unfold JS.newDate at 2.
  destruct (Z.leb_spec (Z.abs (now / wms * wms)) JS.MAX_TIME) as [_|_];
    [|reflexivity].
  unfold JS.add, JS.newDate. fold (aligned_window_end now wms).
  destruct (Z.leb_spec (Z.abs (aligned_window_end now wms)) JS.MAX_TIME)
    as [Hin|_]; [lia | reflexivity].
Qed.

(** What the first branch of the fixed-window limiter does. *)
Lemma fixed_window_start (w : World) (clientId : string)
    (config : RateLimitConfig.t) (now : Z) :
  fresh_or_expired w clientId now ->
  let e := FixedWindowLimiter.windowEnd now
             (parseTimeWindow (RateLimitConfig.timeWindow config)) in
  exists w' a',
    FixedWindowLimiter.checkLimit clientId config now w
    = Returned (RateLimitStatus.mk true (RateLimitConfig.requestLimit config - 1)
                  e None) w' /\
    MemStorage.getActiveRateLimit clientId (storage w') = Some a' /\
    ActiveRateLimit.requestCount a' = 1 /\
    ActiveRateLimit.resetTime a' = e /\
    ActiveRateLimit.status a' = active.
Proof.
  intros Hfresh e.
  set (ins := InsertActiveRateLimit.literal clientId 1 e active).
  exists (mkWorld (snd (MemStorage.upsertActiveRateLimit ins now (storage w)))
                  (requestTimes w)),
         (fst (MemStorage.upsertActiveRateLimit ins now (storage w))).
  split.
  - unfold fresh_or_expired in Hfresh.
    unfold FixedWindowLimiter.checkLimit, bind, storage_read.
    destruct (MemStorage.getActiveRateLimit clientId (storage w)) as [a|].
    + destruct Hfresh as [r [Hr Hle]]. rewrite Hr. unfold JS.leb.
      destruct (Z.leb_spec r now); [reflexivity | lia].
    + reflexivity.
  - pose proof (upsert_lookup ins now (storage w)) as Hl.
    pose proof (upsert_fields ins now (storage w)) as Hf.
    simpl in Hl, Hf. destruct Hf as (_ & Hc & Hr & Hs & _). auto.
Qed.

(** C2 (amended): a fixed-window request from a client with no record, or
    whose record's [resetTime] has passed, stores a record with
    [requestCount = 1], status [active] and [resetTime] the date of the end
    of the aligned window that contains [now],
    [new Date(new Date(Math.floor(now / windowMs) * windowMs).getTime() + windowMs)],
    and returns [allowed = true] with [remaining = requestLimit - 1] and that
    [resetTime].  For a positive window and a clock at or after the epoch,
    that end is the next multiple of [windowMs] after [now], at most
    [now + windowMs], as long as it is within the range of [Date] (at most
    8.64e15 ms), and the invalid date beyond it. *)
Theorem C2_fixed_window_opens_aligned_window
    (w : World) (clientId : string) (config : RateLimitConfig.t) (now : Z) :
  fresh_or_expired w clientId now ->
  exists e w' a',
    e = JS.newDate
          (JS.add
             (JS.newDate
                (JS.floor_multiple (Num now)
                   (parseTimeWindow (RateLimitConfig.timeWindow config))))
             (parseTimeWindow (RateLimitConfig.timeWindow config))) /\
    (forall wms,
        parseTimeWindow (RateLimitConfig.timeWindow config) = Num wms ->
        0 < wms ->
        0 <= now ->
        (now / wms * wms + wms <= JS.MAX_TIME ->
         e = Num (now / wms * wms + wms) /\
         (wms | now / wms * wms + wms) /\
         now < now / wms * wms + wms <= now + wms) /\
        (JS.MAX_TIME < now / wms * wms + wms -> e = NaN)) /\
    FixedWindowLimiter.checkLimit clientId config now w
    = Returned (RateLimitStatus.mk true (RateLimitConfig.requestLimit config - 1)
                  e None) w' /\
    MemStorage.getActiveRateLimit clientId (storage w') = Some a' /\
    ActiveRateLimit.requestCount a' = 1 /\
    ActiveRateLimit.resetTime a' = e /\
    ActiveRateLimit.status a' = active.
Proof.
  intros Hfresh.
  destruct (fixed_window_start w clientId config now Hfresh)
    as (w' & a' & Hrun & Hget & Hcount & Hreset & Hstatus).
  eexists _, w', a'. split; [reflexivity|]. split.
  - intros wms Hparse Hpos Hnow. rewrite Hparse.
    fold (FixedWindowLimiter.windowEnd now (Num wms)).
    fold (aligned_window_end now wms). split.
    + intros Hrange. rewrite (windowEnd_aligned now wms Hpos Hnow Hrange).
      destruct (aligned_window_bounds now wms Hpos) as (Hstart & Hend & Hdiv & _).
      split; [reflexivity|]. split; [exact Hdiv | lia].
    + intros Hrange. exact (windowEnd_beyond now wms Hpos Hnow Hrange).
  - auto 10.
Qed.

Lemma C2_witness :
  fresh_or_expired demoBlockedWorld "10.0.0.1" 31000 /\
  exists w' a',
    FixedWindowLimiter.checkLimit "10.0.0.1" (demoConfig "fixed-window" 3 "30s")
      31000 demoBlockedWorld
    = Returned (RateLimitStatus.mk true (3 - 1) (Num 60000) None) w' /\
    MemStorage.getActiveRateLimit "10.0.0.1" (storage w') = Some a' /\
    ActiveRateLimit.requestCount a' = 1 /\
    ActiveRateLimit.resetTime a' = Num 60000 /\
    ActiveRateLimit.status a' = active.
Proof.
  assert (Hexpired : fresh_or_expired demoBlockedWorld "10.0.0.1" 31000).
  { exists 30000. split; [reflexivity | lia]. }
  split; [exact Hexpired|].
  destruct (C2_fixed_window_opens_aligned_window demoBlockedWorld "10.0.0.1"
              (demoConfig "fixed-window" 3 "30s") 31000 Hexpired)
    as (e & w' & a' & _ & Hread & Hrun & Hget & Hcount & Hreset & Hstatus).
  assert (Hpos : 0 < 30000) by lia.
  assert (Hnow : 0 <= 31000) by lia.
  destruct (Hread 30000 eq_refl Hpos Hnow) as [Hin _].
  assert (Hrange : 31000 / 30000 * 30000 + 30000 <= JS.MAX_TIME)
    by (vm_compute; discriminate).
  destruct (Hin Hrange) as (He & _).
  change (31000 / 30000 * 30000 + 30000) with 60000 in He.
  rewrite He in Hrun, Hreset.
  exists w', a'. repeat split; assumption.
Defined.

(** The two readings of the window end on examples: 30 seconds at
    [now = 1500], and 100 000 001 days, one day more than a [Date] can
    hold. *)
Example fixed_window_end_30s :
  FixedWindowLimiter.windowEnd 1500 (parseTimeWindow "30s") = Num 30000.
Proof. reflexivity. Qed.

Example fixed_window_end_beyond_date_range :
  parseTimeWindow "100000001d" = Num 8640000086400000 /\
  FixedWindowLimiter.windowEnd 1500 (parseTimeWindow "100000001d") = NaN.
Proof. split; reflexivity. Qed.

(** C2 as stated fails: at [now = 1500] with a 30 second window the
    stored [resetTime] is 30000, the end of the aligned window, and not
    [now + windowMs = 31500]. *)
Lemma C2_counterexample :
  ~ window_anchored_at_arrival
      (mkWorld (demoStore "fixed-window" 3 "30s" ∅) ∅)
      "10.0.0.1" (demoConfig "fixed-window" 3 "30s") 1500.
Proof.
  intros Hclaim.
  assert (Hfresh : fresh_or_expired
            (mkWorld (demoStore "fixed-window" 3 "30s" ∅) ∅) "10.0.0.1" 1500)
    by exact I.
  destruct (Hclaim Hfresh) as (r & w' & a' & Hrun & _ & _ & Hget & _ & Hreset).
  destruct (fixed_window_start _ _ (demoConfig "fixed-window" 3 "30s") _ Hfresh)
    as (w2 & a2 & Hrun2 & Hget2 & _ & Hreset2 & _).
  rewrite Hrun2 in Hrun. injection Hrun as _ Hw. subst w2.
  rewrite Hget2 in Hget. injection Hget as Ha. subst a2.
  rewrite Hreset2 in Hreset. vm_compute in Hreset. discriminate Hreset.
Qed.

(** C6: a fixed-window request that finds a record still running
    ([now < resetTime]) with [requestCount >= requestLimit] is denied with
    [remaining = 0] and [retryAfter] the ceiling of [(resetTime - now) / 1000];
    the stored [requestCount] still goes up by one, the [resetTime] is kept
    and the status becomes [blocked]. *)
Theorem C6_fixed_window_denial_is_tallied
    (w : World) (clientId : string) (config : RateLimitConfig.t) (now r : Z)
    (a : ActiveRateLimit.t) :
  MemStorage.getActiveRateLimit clientId (storage w) = Some a ->
  ActiveRateLimit.resetTime a = Num r ->
  now < r ->
  RateLimitConfig.requestLimit config <= ActiveRateLimit.requestCount a ->
  exists k w' a',
    is_ceil_div (r - now) 1000 k /\
    FixedWindowLimiter.checkLimit clientId config now w
    = Returned (RateLimitStatus.mk false 0 (Num r) (Some (Num k))) w' /\
    MemStorage.getActiveRateLimit clientId (storage w') = Some a' /\
    ActiveRateLimit.requestCount a' = ActiveRateLimit.requestCount a + 1 /\
    ActiveRateLimit.resetTime a' = Num r /\
    ActiveRateLimit.status a' = blocked.
Proof.
  intros Hget Hr Hlt Hcount.
  destruct (ceil_div_spec (r - now) 1000) as [k [Hk Hceil]]; [lia|].
  set (ins := InsertActiveRateLimit.literal clientId
                (ActiveRateLimit.requestCount a + 1) (Num r) blocked).
  exists k,
    (mkWorld (snd (MemStorage.upsertActiveRateLimit ins now (storage w)))
             (requestTimes w)),
    (fst (MemStorage.upsertActiveRateLimit ins now (storage w))).
  split; [exact Hceil|]. split.
  - unfold FixedWindowLimiter.checkLimit, bind, storage_read.
    rewrite Hget, Hr. unfold JS.leb.
    destruct (Z.leb_spec r now) as [Hle|_]; [lia|].
    destruct (Z.leb_spec (RateLimitConfig.requestLimit config)
                (ActiveRateLimit.requestCount a)) as [_|Hgt]; [|lia].
    unfold ret, storage_call. simpl JS.sub. now rewrite Hk.
  - pose proof (upsert_lookup ins now (storage w)) as Hl.
    pose proof (upsert_fields ins now (storage w)) as Hf.
    simpl in Hl, Hf. destruct Hf as (_ & Hc & Hreset & Hs & _). auto.
Qed.

Lemma C6_witness :
  exists k w' a',
    is_ceil_div (30000 - 1800) 1000 k /\
    FixedWindowLimiter.checkLimit "10.0.0.1" (demoConfig "fixed-window" 3 "30s")
      1800
      (mkWorld (demoStore "fixed-window" 3 "30s"
                  {[ "10.0.0.1" := demoRecord "10.0.0.1" 3 30000 warning ]}) ∅)
    = Returned (RateLimitStatus.mk false 0 (Num 30000) (Some (Num k))) w' /\
    MemStorage.getActiveRateLimit "10.0.0.1" (storage w') = Some a' /\
    ActiveRateLimit.requestCount a' = 3 + 1 /\
    ActiveRateLimit.resetTime a' = Num 30000 /\
    ActiveRateLimit.status a' = blocked.
Proof.
  apply (C6_fixed_window_denial_is_tallied _ _ _ 1800 30000
           (demoRecord "10.0.0.1" 3 30000 warning)).
  - reflexivity.
  - reflexivity.
  - lia.
  - simpl. lia.
Defined.

(** ** Sliding window *)

Lemma StronglySorted_filter_le (f : Z -> bool) (ts : list Z) :
  StronglySorted Z.le ts -> StronglySorted Z.le (List.filter f ts).
Proof.
  induction 1 as [|t ts Hs IH Hall]; simpl.
  - constructor.
  - destruct (f t); [|exact IH].
    constructor; [exact IH|].
    rewrite !List.Forall_forall in *. intros x Hx.
    apply Hall. apply filter_In in Hx. tauto.
Qed.

(** With no timestamp from the future, the limiter's filter
    [time > windowStart] selects the window [(now - windowMs, now]]. *)
Lemma sliding_filter_in_window (now wms : Z) (ts : list Z) :
  Forall (fun t => t <= now) ts ->
  List.filter (fun time => JS.gtb (Num time) (JS.sub (Num now) (Num wms))) ts
  = in_window now wms ts.
Proof.
  intros Hall. unfold in_window. apply filter_ext_in.
  intros t Ht. rewrite List.Forall_forall in Hall. specialize (Hall t Ht).
  unfold JS.gtb, JS.ltb, JS.sub.
  destruct (Z.leb_spec t now); [|lia]. now rewrite andb_true_r.
Qed.

(** C4 (amended): under a policy with a positive [requestLimit], with the
    client's timestamps in arrival order and none after [now], a clock at or
    after the epoch and [now + windowMs] within the range of [Date]: when the
    timestamps inside [(now - windowMs, now]] number at least [requestLimit],
    the sliding-window limiter denies with [remaining = 0],
    [resetTime = oldest + windowMs] and [retryAfter] the ceiling of
    [(oldest - (now - windowMs)) / 1000], where [oldest] is the earliest
    timestamp in the window; the client's timestamp list is left as it was,
    and the shared store receives status [blocked], [requestCount] the
    window count plus one and [resetTime = oldest + windowMs]. *)
Theorem C4_sliding_window_denial
    (w : World) (clientId : string) (config : RateLimitConfig.t) (now wms : Z) :
  parseTimeWindow (RateLimitConfig.timeWindow config) = Num wms ->
  arrival_ordered now (stored_times w clientId) ->
  0 < RateLimitConfig.requestLimit config ->
  0 <= now ->
  now + wms <= JS.MAX_TIME ->
  RateLimitConfig.requestLimit config
  <= Z.of_nat (List.length (in_window now wms (stored_times w clientId))) ->
  exists oldest k w' a',
    In oldest (in_window now wms (stored_times w clientId)) /\
    Forall (fun t => oldest <= t) (in_window now wms (stored_times w clientId)) /\
    is_ceil_div (oldest - (now - wms)) 1000 k /\
    SlidingWindowLimiter.checkLimit clientId config now w
    = Returned (RateLimitStatus.mk false 0 (Num (oldest + wms)) (Some (Num k))) w' /\
    requestTimes w' = requestTimes w /\
    MemStorage.getActiveRateLimit clientId (storage w') = Some a' /\
    ActiveRateLimit.status a' = blocked /\
    ActiveRateLimit.requestCount a'
    = Z.of_nat (List.length (in_window now wms (stored_times w clientId))) + 1 /\
    ActiveRateLimit.resetTime a' = Num (oldest + wms).
Proof.
  intros Hparse [Hsorted Hpast] Hpos Hnow Hrange Hfull.
  pose proof (sliding_filter_in_window now wms _ Hpast) as Hfilter.
  pose proof (StronglySorted_filter_le
                (fun t => (now - wms <? t) && (t <=? now)) _ Hsorted) as Hinw.
  fold (in_window now wms (stored_times w clientId)) in Hinw.
  destruct (in_window now wms (stored_times w clientId)) as [|oldest rest] eqn:Ein.
  { simpl in Hfull. lia. }
  assert (Hold : now - wms < oldest <= now).
  { assert (Hin : In oldest (in_window now wms (stored_times w clientId)))
      by (rewrite Ein; now left).
    unfold in_window in Hin. apply filter_In in Hin. destruct Hin as [_ Hin].
    apply andb_true_iff in Hin. destruct Hin as [Hlo Hhi].
    apply Z.ltb_lt in Hlo. apply Z.leb_le in Hhi. lia. }
  assert (Hdate : JS.newDate (Num (oldest + wms)) = Num (oldest + wms))
    by (apply newDate_in_range; lia).
  destruct (ceil_div_spec (oldest - (now - wms)) 1000) as [k [Hk Hceil]]; [lia|].
  set (ins := InsertActiveRateLimit.literal clientId
                (Z.of_nat (List.length (oldest :: rest)) + 1)
                (Num (oldest + wms)) blocked).
  exists oldest, k,
    (mkWorld (snd (MemStorage.upsertActiveRateLimit ins now (storage w)))
             (requestTimes w)),
    (fst (MemStorage.upsertActiveRateLimit ins now (storage w))).
  split; [now left|]. split.
  { apply StronglySorted_inv in Hinw. destruct Hinw as [_ Hall].
    constructor; [lia | exact Hall]. }
  split; [exact Hceil|]. split.
  { unfold SlidingWindowLimiter.checkLimit, bind, requestTimes_get.
    rewrite Hparse. unfold stored_times in Hfilter. rewrite Hfilter.
    destruct (Z.leb_spec (RateLimitConfig.requestLimit config)
                (Z.of_nat (List.length (oldest :: rest)))) as [_|Hgt]; [|lia].
    unfold storage_call, ret. simpl SlidingWindowLimiter.first.
    simpl JS.sub. simpl JS.add. now rewrite Hk, Hdate. }
  split; [reflexivity|].
  pose proof (upsert_lookup ins now (storage w)) as Hl.
  pose proof (upsert_fields ins now (storage w)) as Hf.
  simpl in Hl, Hf. destruct Hf as (_ & Hc & Hreset & Hs & _). auto.
Qed.

Lemma C4_witness :
  exists oldest k w' a',
    In oldest (in_window 1500 10000 (stored_times demoSlidingWorld "10.0.0.1")) /\
    Forall (fun t => oldest <= t)
           (in_window 1500 10000 (stored_times demoSlidingWorld "10.0.0.1")) /\
    is_ceil_div (oldest - (1500 - 10000)) 1000 k /\
    SlidingWindowLimiter.checkLimit "10.0.0.1"
      (demoConfig "sliding-window" 3 "10s") 1500 demoSlidingWorld
    = Returned (RateLimitStatus.mk false 0 (Num (oldest + 10000)) (Some (Num k))) w' /\
    requestTimes w' = requestTimes demoSlidingWorld /\
    MemStorage.getActiveRateLimit "10.0.0.1" (storage w') = Some a' /\
    ActiveRateLimit.status a' = blocked /\
    ActiveRateLimit.requestCount a'
    = Z.of_nat (List.length
                  (in_window 1500 10000 (stored_times demoSlidingWorld "10.0.0.1")))
      + 1 /\
    ActiveRateLimit.resetTime a' = Num (oldest + 10000).
Proof.
  apply (C4_sliding_window_denial demoSlidingWorld "10.0.0.1"
           (demoConfig "sliding-window" 3 "10s") 1500 10000).
  - reflexivity.
  - split.
    + vm_compute (stored_times _ _). repeat constructor; lia.
    + vm_compute (stored_times _ _). repeat constructor; lia.
  - simpl. lia.
  - lia.
  - vm_compute. discriminate.
  - vm_compute. discriminate.
Defined.

(** C4 as stated fails on two counts.  Under [requestLimit = 0], which the
    store accepts, a client with no timestamp at all is denied: there is no
    [oldest], and the decision carries [resetTime = NaN].  Under a positive
    limit and a window of 100 000 001 days, the decision carries the number
    [oldest + windowMs], but the date written to the store is the invalid
    date, since that number is beyond the range of [Date]. *)
Lemma C4_counterexample :
  ~ sliding_denial_resets_at_oldest
      (mkWorld (demoStore "sliding-window" 0 "10s" ∅) ∅)
      "10.0.0.1" (demoConfig "sliding-window" 0 "10s") 1500 /\
  ~ sliding_denial_resets_at_oldest demoLongWindowWorld
      "10.0.0.1" (demoConfig "sliding-window" 1 "100000001d") 1500.
Proof.
  split; intros Hclaim.
  - destruct (Hclaim 10000 eq_refl) as (oldest & _ & _ & _ & Hin & _).
    { vm_compute. discriminate. }
    vm_compute in Hin. exact Hin.
  - assert (Hcode : exists r0 w0 a0,
               SlidingWindowLimiter.checkLimit "10.0.0.1"
                 (demoConfig "sliding-window" 1 "100000001d") 1500
                 demoLongWindowWorld = Returned r0 w0 /\
               MemStorage.getActiveRateLimit "10.0.0.1" (storage w0) = Some a0 /\
               ActiveRateLimit.resetTime a0 = NaN).
    { eexists. eexists. eexists. split; [vm_compute; reflexivity|].
      split; vm_compute; reflexivity. }
    destruct Hcode as (r0 & w0 & a0 & Hrun0 & Hget0 & Hreset0).
    destruct (Hclaim 8640000086400000 eq_refl)
      as (oldest & k & w' & a' & _ & _ & _ & Hrun & _ & Hget & _ & _ & Hreset).
    { vm_compute. discriminate. }
    rewrite Hrun0 in Hrun. injection Hrun as _ Hw. subst w'.
    rewrite Hget0 in Hget. injection Hget as Ha. subst a'.
    rewrite Hreset0 in Hreset. discriminate Hreset.
Qed.

(** The two denials on which C4 fails, as the code answers them: no
    timestamp and a zero limit give [resetTime] and [retryAfter] [NaN]; the
    long window gives the number [1000 + 8640000086400000]. *)
Example sliding_denial_under_zero_limit :
  result_of
    (SlidingWindowLimiter.checkLimit "10.0.0.1"
       (demoConfig "sliding-window" 0 "10s") 1500
       (mkWorld (demoStore "sliding-window" 0 "10s" ∅) ∅))
  = Some (RateLimitStatus.mk false 0 NaN (Some NaN)).
Proof. reflexivity. Qed.

Example sliding_denial_under_long_window :
  result_of
    (SlidingWindowLimiter.checkLimit "10.0.0.1"
       (demoConfig "sliding-window" 1 "100000001d") 1500 demoLongWindowWorld)
  = Some (RateLimitStatus.mk false 0 (Num 8640000086401000) (Some (Num 8640000086400))).
Proof. reflexivity. Qed.

(** A request the sliding-window limiter serves at [now] keeps every
    client's timestamps in arrival order. *)
Lemma sliding_window_keeps_arrival_order
    (w w' : World) (clientId : string) (config : RateLimitConfig.t) (now : Z)
    (r : RateLimitStatus.t) :
  (forall c, arrival_ordered now (stored_times w c)) ->
  SlidingWindowLimiter.checkLimit clientId config now w = Returned r w' ->
  forall c, arrival_ordered now (stored_times w' c).
Proof.
  intros Hinv Hrun c.
  unfold SlidingWindowLimiter.checkLimit, bind, requestTimes_get,
    requestTimes_set, storage_call, ret in Hrun.
  destruct (RateLimitConfig.requestLimit config <=? _) in Hrun;
    injection Hrun as _ Hw; subst w'; unfold stored_times; simpl.
  - apply Hinv.
  - destruct (decide (clientId = c)) as [->|Hne].
    + rewrite lookup_insert_eq. simpl.
      destruct (Hinv c) as [Hs Hp]. fold (stored_times w c).
      set (f := fun time => JS.gtb (Num time) _).
      assert (Hp' : Forall (fun t => t <= now) (List.filter f (stored_times w c))).
      { rewrite !List.Forall_forall in *. intros x Hx.
        apply Hp. apply filter_In in Hx. tauto. }
      split.
      * clear Hp. pose proof (StronglySorted_filter_le f _ Hs) as Hf.
        induction Hf as [|t ts Hts IH Hall]; simpl.
        -- repeat constructor.
        -- inversion Hp' as [|? ? Ht Hrest]; subst.
           constructor; [now apply IH|].
           apply Forall_app. split; [exact Hall|]. now repeat constructor.
      * apply Forall_app. split; [exact Hp'|]. repeat constructor. lia.
    + rewrite lookup_insert_ne by exact Hne. apply Hinv.
Qed.

(** ** The service *)

(** The limiters registered by the constructor. *)
Lemma algorithms_get_cases (key : string) (alg : RateLimiterAlgorithm) :
  RateLimiterService.algorithms_get key RateLimiterService.algorithms = Some alg ->
  alg = TokenBucketLimiter.algorithm \/
  alg = SlidingWindowLimiter.algorithm \/
  alg = FixedWindowLimiter.algorithm.
Proof.
  unfold RateLimiterService.algorithms. simpl.
  repeat (destruct (String.eqb key _); [intros [= <-]; auto|]).
  discriminate.
Qed.

(** Every limiter returns a decision, and touches neither the policies, nor
    the violation log, nor the counters. *)
Lemma checkLimit_returns_and_frames (alg : RateLimiterAlgorithm)
    (clientId : string) (config : RateLimitConfig.t) (now : Z) (w : World) :
  alg = TokenBucketLimiter.algorithm \/
  alg = SlidingWindowLimiter.algorithm \/
  alg = FixedWindowLimiter.algorithm ->
  exists r w',
    checkLimit alg clientId config now w = Returned r w' /\
    MemStorage.configs (storage w') = MemStorage.configs (storage w) /\
    MemStorage.violations (storage w') = MemStorage.violations (storage w) /\
    MemStorage.stats (storage w') = MemStorage.stats (storage w).
Proof.
  intros [-> | [-> | ->]]; simpl checkLimit; run_limiter; limiter_branches;
    (do 2 eexists; split; [reflexivity|]; simpl;
     first [ apply upsert_frame | auto ]).
Qed.

Lemma is_Some_retryAfter_denied (x : num) : is_Some (Some x) <-> false = false.
Proof. split; [reflexivity | intros _; now exists x]. Qed.

Lemma is_Some_retryAfter_allowed : is_Some (@None num) <-> true = false.
Proof. split; [intros [x Hx]; discriminate Hx | discriminate]. Qed.

(** The shape of the decision of every limiter: [retryAfter] exactly on a
    denial, [remaining = 0] on a denial, and [remaining] not negative when
    the limit is positive. *)
Lemma checkLimit_shape (alg : RateLimiterAlgorithm)
    (clientId : string) (config : RateLimitConfig.t) (now : Z) (w w' : World)
    (r : RateLimitStatus.t) :
  alg = TokenBucketLimiter.algorithm \/
  alg = SlidingWindowLimiter.algorithm \/
  alg = FixedWindowLimiter.algorithm ->
  checkLimit alg clientId config now w = Returned r w' ->
  (is_Some (RateLimitStatus.retryAfter r) <-> RateLimitStatus.allowed r = false) /\
  (RateLimitStatus.allowed r = false -> RateLimitStatus.remaining r = 0) /\
  (1 <= RateLimitConfig.requestLimit config -> 0 <= RateLimitStatus.remaining r).
Proof.
  intros [-> | [-> | ->]]; simpl checkLimit; run_limiter; limiter_branches;
    intros [= <- _]; simpl;
    repeat match goal with
           | H : (_ <=? _) = false |- _ => apply Z.leb_gt in H
           end;
    rewrite ?length_app, ?Nat2Z.inj_add in *; simpl List.length in *;
    (split; [first [apply is_Some_retryAfter_denied
                   | apply is_Some_retryAfter_allowed] |]);
    (split; [first [reflexivity | discriminate] | intros Hpos; lia]).
Qed.

(** The service throws before touching anything when no policy is active or
    the policy names no registered limiter, and returns a decision
    otherwise. *)
Lemma checkRateLimit_throws_without_policy
    (w : World) (clientId endpoint : string) (now : Z) :
  MemStorage.getRateLimitConfig (storage w) = None ->
  RateLimiterService.checkRateLimit clientId endpoint now w
  = Thrown "No rate limit configuration found" w.
Proof.
  intros Hnone. unfold RateLimiterService.checkRateLimit, bind, storage_read.
  now rewrite Hnone.
Qed.

Lemma checkRateLimit_returns
    (w : World) (clientId endpoint : string) (now : Z)
    (config : RateLimitConfig.t) (alg : RateLimiterAlgorithm) :
  MemStorage.getRateLimitConfig (storage w) = Some config ->
  RateLimiterService.algorithms_get (RateLimitConfig.algorithm config)
    RateLimiterService.algorithms = Some alg ->
  exists r w', RateLimiterService.checkRateLimit clientId endpoint now w
               = Returned r w'.
Proof.
  intros Hcfg Halg.
  destruct (checkLimit_returns_and_frames alg clientId config now w
              (algorithms_get_cases _ _ Halg)) as (r & w1 & Hrun & _).
  unfold RateLimiterService.checkRateLimit, bind, storage_read.
  rewrite Hcfg, Halg, Hrun. unfold storage_exec, storage_call, ret.
  destruct (RateLimitStatus.allowed r); simpl; eauto.
Qed.

(** The decision of the service is the decision of the limiter the active
    policy names, taken in the state the service was called in. *)
Lemma checkRateLimit_inv
    (w w' : World) (clientId endpoint : string) (now : Z) (r : RateLimitStatus.t) :
  RateLimiterService.checkRateLimit clientId endpoint now w = Returned r w' ->
  exists config alg w1,
    MemStorage.getRateLimitConfig (storage w) = Some config /\
    RateLimiterService.algorithms_get (RateLimitConfig.algorithm config)
      RateLimiterService.algorithms = Some alg /\
    checkLimit alg clientId config now w = Returned r w1 /\
    let counted :=
      MemStorage.updateSystemStats
        (PartialSystemStats.only_totalRequests
           (DashboardStats.totalRequests (MemStorage.getSystemStats (storage w1)) + 1))
        now (storage w1) in
    let logged :=
      snd (MemStorage.createViolation
             (InsertRateLimitViolation.literal clientId endpoint) now counted) in
    storage w' =
      (if RateLimitStatus.allowed r then counted
       else MemStorage.updateSystemStats
              (PartialSystemStats.only_rateLimitedRequests
                 (DashboardStats.rateLimited (MemStorage.getSystemStats logged) + 1))
              now logged) /\
    requestTimes w' = requestTimes w1.
Proof.
  unfold RateLimiterService.checkRateLimit, bind at 1, storage_read at 1.
  destruct (MemStorage.getRateLimitConfig (storage w)) as [config|];
    [|discriminate].
  destruct (RateLimiterService.algorithms_get _ _) as [alg|] eqn:Halg;
    [|discriminate].
  intros Hrun. apply bind_inv in Hrun. destruct Hrun as (r1 & w1 & Hlim & Hrest).
  unfold bind, storage_read, storage_exec, storage_call, ret in Hrest.
  destruct (RateLimitStatus.allowed r1) eqn:Hallowed; simpl in Hrest;
    injection Hrest as <- <-;
    (exists config, alg, w1; split; [reflexivity|]; split; [exact Halg|];
     split; [exact Hlim|]; rewrite Hallowed; simpl; auto).
Qed.

(** C3: a call to [checkRateLimit] that returns a decision raises
    [totalRequests] by exactly one; when the decision is a denial it also puts
    one new violation record at the head of the (capped) log and raises
    [rateLimited] by exactly one; when the decision is an admission the
    [rateLimited] counter and the violation log are unchanged. *)
Theorem C3_counters_and_violation_log
    (w w' : World) (clientId endpoint : string) (now : Z) (r : RateLimitStatus.t) :
  RateLimiterService.checkRateLimit clientId endpoint now w = Returned r w' ->
  DashboardStats.totalRequests (MemStorage.getSystemStats (storage w'))
  = DashboardStats.totalRequests (MemStorage.getSystemStats (storage w)) + 1 /\
  (RateLimitStatus.allowed r = false ->
   DashboardStats.rateLimited (MemStorage.getSystemStats (storage w'))
   = DashboardStats.rateLimited (MemStorage.getSystemStats (storage w)) + 1 /\
   exists v,
     MemStorage.violations (storage w')
     = List.firstn 100 (v :: MemStorage.violations (storage w)) /\
     RateLimitViolation.clientId v = clientId /\
     RateLimitViolation.endpoint v = endpoint /\
     RateLimitViolation.attempts v = 1 /\
     RateLimitViolation.isBlocked v = false) /\
  (RateLimitStatus.allowed r = true ->
   DashboardStats.rateLimited (MemStorage.getSystemStats (storage w'))
   = DashboardStats.rateLimited (MemStorage.getSystemStats (storage w)) /\
   MemStorage.violations (storage w') = MemStorage.violations (storage w)).
Proof.
  intros Hrun.
  destruct (checkRateLimit_inv _ _ _ _ _ _ Hrun)
    as (config & alg & w1 & Hcfg & Halg & Hlim & Hstore & _).
  destruct (checkLimit_returns_and_frames alg clientId config now w
              (algorithms_get_cases _ _ Halg))
    as (r1 & w1' & Hlim' & _ & Hviol & Hstats).
  rewrite Hlim in Hlim'. injection Hlim' as <- <-.
  rewrite Hstore. clear Hstore Hrun.
  destruct (RateLimitStatus.allowed r); simpl; rewrite ?Hstats, ?Hviol.
  - split; [reflexivity|]. split; [discriminate | auto].
  - split; [reflexivity|]. split; [|discriminate].
    intros _. split; [reflexivity|].
    eexists. split.
    + destruct (100 <? _) eqn:Hlen; [reflexivity|].
      apply Z.ltb_ge in Hlen. f_equal. symmetry. apply firstn_all2.
      simpl List.length in Hlen. lia.
    + simpl. auto.
Qed.

Lemma C3_witness :
  exists r w',
    RateLimiterService.checkRateLimit "10.0.0.1" "/api/protected/test" 1800
      demoBlockedWorld = Returned r w' /\
    RateLimitStatus.allowed r = false /\
    DashboardStats.totalRequests (MemStorage.getSystemStats (storage w'))
    = DashboardStats.totalRequests
        (MemStorage.getSystemStats (storage demoBlockedWorld)) + 1 /\
    (RateLimitStatus.allowed r = false ->
     DashboardStats.rateLimited (MemStorage.getSystemStats (storage w'))
     = DashboardStats.rateLimited
         (MemStorage.getSystemStats (storage demoBlockedWorld)) + 1 /\
     exists v,
       MemStorage.violations (storage w')
       = List.firstn 100 (v :: MemStorage.violations (storage demoBlockedWorld)) /\
       RateLimitViolation.clientId v = "10.0.0.1" /\
       RateLimitViolation.endpoint v = "/api/protected/test" /\
       RateLimitViolation.attempts v = 1 /\
       RateLimitViolation.isBlocked v = false) /\
    (RateLimitStatus.allowed r = true ->
     DashboardStats.rateLimited (MemStorage.getSystemStats (storage w'))
     = DashboardStats.rateLimited
         (MemStorage.getSystemStats (storage demoBlockedWorld)) /\
     MemStorage.violations (storage w')
     = MemStorage.violations (storage demoBlockedWorld)).
Proof.
  eexists. eexists.
  split; [vm_compute; reflexivity|].
  split; [reflexivity|].
  apply (C3_counters_and_violation_log demoBlockedWorld _
           "10.0.0.1" "/api/protected/test" 1800).
  vm_compute. reflexivity.
Defined.

(** C8 (amended): every decision [checkRateLimit] returns, whichever of the
    three limiters the active policy names, carries [retryAfter] exactly
    when [allowed] is false and has [remaining = 0] when it is a denial;
    and [remaining] is not negative when the policy's [requestLimit] is at
    least 1. *)
Theorem C8_decision_shape
    (w w' : World) (clientId endpoint : string) (now : Z)
    (config : RateLimitConfig.t) (r : RateLimitStatus.t) :
  MemStorage.getRateLimitConfig (storage w) = Some config ->
  RateLimiterService.checkRateLimit clientId endpoint now w = Returned r w' ->
  (is_Some (RateLimitStatus.retryAfter r) <-> RateLimitStatus.allowed r = false) /\
  (RateLimitStatus.allowed r = false -> RateLimitStatus.remaining r = 0) /\
  (1 <= RateLimitConfig.requestLimit config -> 0 <= RateLimitStatus.remaining r).
Proof.
  intros Hcfg Hrun.
  destruct (checkRateLimit_inv _ _ _ _ _ _ Hrun)
    as (config' & alg & w1 & Hcfg' & Halg & Hlim & _).
  rewrite Hcfg in Hcfg'. injection Hcfg' as <-.
  exact (checkLimit_shape alg clientId config now w w1 r
           (algorithms_get_cases _ _ Halg) Hlim).
Qed.

Lemma C8_witness :
  exists r w',
    RateLimiterService.checkRateLimit "10.0.0.1" "/api/protected/test" 1500
      demoSlidingWorld = Returned r w' /\
    RateLimitStatus.allowed r = false /\
    (is_Some (RateLimitStatus.retryAfter r) <-> RateLimitStatus.allowed r = false) /\
    RateLimitStatus.remaining r = 0 /\
    0 <= RateLimitStatus.remaining r.
Proof.
  assert (Hrun : exists r w',
             RateLimiterService.checkRateLimit "10.0.0.1" "/api/protected/test"
               1500 demoSlidingWorld = Returned r w' /\
             RateLimitStatus.allowed r = false).
  { eexists. eexists. split; [vm_compute; reflexivity | reflexivity]. }
  destruct Hrun as (r & w' & Hrun & Hdenied).
  destruct (C8_decision_shape demoSlidingWorld w' "10.0.0.1" "/api/protected/test"
              1500 (demoConfig "sliding-window" 3 "10s") r eq_refl Hrun)
    as (Hiff & Hzero & Hnonneg).
  assert (Hlimit : 1 <= RateLimitConfig.requestLimit
                          (demoConfig "sliding-window" 3 "10s"))
    by (vm_compute; discriminate).
  exists r, w'.
  split; [exact Hrun|]. split; [exact Hdenied|]. split; [exact Hiff|].
  split; [exact (Hzero Hdenied) | exact (Hnonneg Hlimit)].
Defined.

(** C8 as stated fails: the store accepts a policy with [requestLimit = 0],
    and the first request under it is allowed with [remaining = -1]. *)
Lemma C8_counterexample :
  ~ decisions_well_shaped (mkWorld (demoStore "fixed-window" 0 "30s" ∅) ∅)
      "10.0.0.1" "/api/protected/test" 1500.
Proof.
  intros Hclaim.
  assert (Hrun : exists r w',
             RateLimiterService.checkRateLimit "10.0.0.1" "/api/protected/test"
               1500 (mkWorld (demoStore "fixed-window" 0 "30s" ∅) ∅)
             = Returned r w' /\
             RateLimitStatus.remaining r = -1).
  { eexists. eexists. split; [vm_compute; reflexivity | reflexivity]. }
  destruct Hrun as (r & w' & Hrun & Hrem).
  destruct (Hclaim r w' Hrun) as (_ & Hnonneg & _). lia.
Qed.

(** The decision on which C8 fails, as the code returns it. *)
Example remaining_under_zero_limit :
  result_of
    (RateLimiterService.checkRateLimit "10.0.0.1" "/api/protected/test" 1500
       (mkWorld (demoStore "fixed-window" 0 "30s" ∅) ∅))
  = Some (RateLimitStatus.mk true (-1) (Num 30000) None).
Proof. reflexivity. Qed.

(** ** The violation log *)

Lemma createViolation_log (d : InsertRateLimitViolation.t) (now : Z)
    (s : MemStorage.t) :
  MemStorage.violations (snd (MemStorage.createViolation d now s))
  = fst (MemStorage.createViolation d now s)
      :: List.firstn 99 (MemStorage.violations s).
Proof.
  unfold MemStorage.createViolation. cbv zeta. cbn [fst snd MemStorage.violations].
  destruct (100 <? _) eqn:Hlen; [reflexivity|].
  apply Z.ltb_ge in Hlen. f_equal. symmetry. apply firstn_all2.
  simpl List.length in Hlen. lia.
Qed.

Lemma StronglySorted_firstn {A : Type} (R : A -> A -> Prop) (n : nat) (l : list A) :
  StronglySorted R l -> StronglySorted R (List.firstn n l).
Proof.
  intros Hs. revert n. induction Hs as [|a l Hs IH Hall]; intros [|n]; simpl;
    try constructor.
  - apply IH.
  - rewrite List.Forall_forall in *. intros x Hx. apply Hall.
    rewrite <- (firstn_skipn n l). apply in_or_app. now left.
Qed.

Lemma Forall_firstn {A : Type} (P : A -> Prop) (n : nat) (l : list A) :
  Forall P l -> Forall P (List.firstn n l).
Proof.
  rewrite !List.Forall_forall. intros Hall x Hx. apply Hall.
  rewrite <- (firstn_skipn n l). apply in_or_app. now left.
Qed.

(** One more record keeps the log most recent first. *)
Lemma createViolation_newest_first (d : InsertRateLimitViolation.t) (now : Z)
    (s : MemStorage.t) :
  newest_first s -> newest_first (snd (MemStorage.createViolation d now s)).
Proof.
  intros [Hs Hb]. unfold newest_first. rewrite createViolation_log.
  assert (Hid : RateLimitViolation.id (fst (MemStorage.createViolation d now s))
                = MemStorage.currentId s) by reflexivity.
  assert (Hnext : MemStorage.currentId (snd (MemStorage.createViolation d now s))
                  = MemStorage.currentId s + 1) by reflexivity.
  split.
  - constructor; [now apply StronglySorted_firstn|].
    apply Forall_firstn. unfold newer. rewrite Hid. exact Hb.
  - rewrite Hnext. constructor; [rewrite Hid; lia|].
    apply Forall_firstn. eapply List.Forall_impl; [|exact Hb]. simpl. intros; lia.
Qed.

Lemma blockClient_newest_first (c : string) (s : MemStorage.t) :
  newest_first s -> newest_first (MemStorage.blockClient c s).
Proof.
  intros [Hs Hb]. unfold newest_first, MemStorage.blockClient.
  cbn [MemStorage.violations MemStorage.currentId].
  set (f := fun v => if String.eqb (RateLimitViolation.clientId v) c
                     then RateLimitViolation.block v else v).
  assert (Hf : forall v, RateLimitViolation.id (f v) = RateLimitViolation.id v).
  { intros v. unfold f. now destruct (String.eqb _ _). }
  split.
  - induction Hs as [|v vs Hvs IH Hall]; simpl; constructor.
    + apply IH. now inversion Hb.
    + rewrite List.Forall_forall in *. intros x Hx.
      apply in_map_iff in Hx. destruct Hx as (y & <- & Hy).
      unfold newer. rewrite !Hf. now apply Hall.
  - rewrite List.Forall_forall in *. intros x Hx.
    apply in_map_iff in Hx. destruct Hx as (y & <- & Hy).
    rewrite Hf. now apply Hb.
Qed.

(** Every state of the store keeps its log most recent first. *)
Lemma reachable_newest_first (s : MemStorage.t) : reachable s -> newest_first s.
Proof.
  induction 1 as [now | s d now _ IH | s d now _ IH | s c _ IH | s d now _ IH
                 | s c _ IH | s p now _ IH | s now _ IH | s _ IH].
  - split; constructor.
  - destruct IH as [Hs Hb]. split; [exact Hs|].
    eapply List.Forall_impl; [|exact Hb]. simpl. intros; lia.
  - destruct IH as [Hs Hb]. unfold newest_first, MemStorage.upsertActiveRateLimit.
    destruct (MemStorage.activeLimits s !! _); simpl; split; auto.
    eapply List.Forall_impl; [|exact Hb]. simpl. intros; lia.
  - exact IH.
  - now apply createViolation_newest_first.
  - now apply blockClient_newest_first.
  - exact IH.
  - exact IH.
  - destruct IH as [Hs Hb]. split; [exact Hs|].
    eapply List.Forall_impl; [|exact Hb]. simpl. intros; lia.
Qed.

(** The store with [n] more violations on record is a state of the store. *)
Lemma reachable_record_violations (n : nat) (s : MemStorage.t) :
  reachable s -> reachable (record_violations n s).
Proof.
  intros Hs. induction n as [|n IH]; [exact Hs|].
  change (record_violations (S n) s)
    with (snd (MemStorage.createViolation
                 (InsertRateLimitViolation.literal "10.0.0.1" "/api/protected/test")
                 0 (record_violations n s))).
  now apply reach_createViolation.
Qed.

(** C9: after a call to [createViolation], in any state of the store, the
    log holds at most 100 records, most recent first: the new record heads
    it, followed by the previous records in their order; and when the log
    was full the record dropped is the last, oldest one. *)
Theorem C9_violation_log_capped
    (s : MemStorage.t) (d : InsertRateLimitViolation.t) (now : Z) :
  reachable s ->
  (List.length (MemStorage.violations (snd (MemStorage.createViolation d now s)))
   <= 100)%nat /\
  MemStorage.violations (snd (MemStorage.createViolation d now s))
  = fst (MemStorage.createViolation d now s)
      :: List.firstn 99 (MemStorage.violations s) /\
  StronglySorted newer
    (MemStorage.violations (snd (MemStorage.createViolation d now s))) /\
  (List.length (MemStorage.violations s) = 100%nat ->
   MemStorage.violations (snd (MemStorage.createViolation d now s))
   = fst (MemStorage.createViolation d now s)
       :: List.removelast (MemStorage.violations s)).
Proof.
  intros Hreach.
  pose proof (createViolation_newest_first d now s
                (reachable_newest_first s Hreach)) as [Hsorted _].
  split; [|split; [|split]].
  - rewrite createViolation_log. simpl List.length.
    pose proof (firstn_le_length 99 (MemStorage.violations s)). lia.
  - apply createViolation_log.
  - exact Hsorted.
  - intros Hfull. rewrite createViolation_log. f_equal.
    rewrite removelast_firstn_len, Hfull. reflexivity.
Qed.

Lemma C9_witness :
  reachable demoFullLog /\
  List.length (MemStorage.violations demoFullLog) = 100%nat /\
  (List.length
     (MemStorage.violations
        (snd (MemStorage.createViolation demoViolation 1800 demoFullLog)))
   <= 100)%nat /\
  MemStorage.violations
    (snd (MemStorage.createViolation demoViolation 1800 demoFullLog))
  = fst (MemStorage.createViolation demoViolation 1800 demoFullLog)
      :: List.firstn 99 (MemStorage.violations demoFullLog) /\
  StronglySorted newer
    (MemStorage.violations
       (snd (MemStorage.createViolation demoViolation 1800 demoFullLog))) /\
  MemStorage.violations
    (snd (MemStorage.createViolation demoViolation 1800 demoFullLog))
  = fst (MemStorage.createViolation demoViolation 1800 demoFullLog)
      :: List.removelast (MemStorage.violations demoFullLog).
Proof.
  assert (Hreach : reachable demoFullLog)
    by (apply reachable_record_violations, reach_new).
  assert (Hfull : List.length (MemStorage.violations demoFullLog) = 100%nat)
    by (vm_compute; reflexivity).
  pose proof (C9_violation_log_capped demoFullLog demoViolation 1800 Hreach)
    as (Hlen & Hlog & Hsorted & Hevict).
  split; [exact Hreach|]. split; [exact Hfull|]. split; [exact Hlen|].
  split; [exact Hlog|]. split; [exact Hsorted | exact (Hevict Hfull)].
Defined.

(** The same call on the full log, by identifiers: records 1 to 100 are in
    the log, newest first; the new record takes identifier 101 and record 1,
    the oldest, is the one dropped. *)
Example violation_log_eviction :
  List.map RateLimitViolation.id (MemStorage.violations demoFullLog)
  = List.rev (List.map Z.of_nat (List.seq 1 100)) /\
  List.map RateLimitViolation.id
    (MemStorage.violations
       (snd (MemStorage.createViolation demoViolation 1800 demoFullLog)))
  = List.rev (List.map Z.of_nat (List.seq 2 100)).
Proof. split; vm_compute; reflexivity. Qed.

(** The log after 101 violations on a new store: 100 records, the newest
    (identifier 101) first, the oldest kept (identifier 2) last. *)
Example violation_log_after_101 :
  List.map RateLimitViolation.id
    (MemStorage.violations (record_violations 101 (MemStorage.new 0)))
  = List.rev (List.map Z.of_nat (List.seq 2 100)).
Proof. vm_compute. reflexivity. Qed.

(** ** Client identity *)

(** C10 (amended): with an unrecognised [clientIdType], [getClientId] returns
    the resolved peer address [req.ip] when it is non-empty, which is what
    the [ip] mode returns then, and ['127.0.0.1'] otherwise; no header and
    no transport-level address is consulted. *)
Theorem C10_unknown_mode_reads_peer_address
    (req : Request.t) (clientIdType : string) :
  clientIdType <> "ip" -> clientIdType <> "api-key" -> clientIdType <> "user-id" ->
  (forall a, Request.ip req = Some a -> a <> "" ->
     RateLimiterService.getClientId req clientIdType = a /\
     RateLimiterService.getClientId req "ip" = a) /\
  (Request.ip req = None \/ Request.ip req = Some "" ->
     RateLimiterService.getClientId req clientIdType = "127.0.0.1").
Proof.
  intros Hip Hkey Huser.
  unfold RateLimiterService.getClientId.
  destruct (String.eqb_spec clientIdType "ip") as [->|_]; [congruence|].
  destruct (String.eqb_spec clientIdType "api-key") as [->|_]; [congruence|].
  destruct (String.eqb_spec clientIdType "user-id") as [->|_]; [congruence|].
  simpl String.eqb. unfold JS.or_lit, JS.or. split.
  - intros a Ha Hne. rewrite Ha.
    assert (Ht : JS.truthy (Some a) = true).
    { simpl. now destruct (String.eqb_spec a "") as [->|_]. }
    rewrite !Ht. cbv iota. rewrite ?Ht. auto.
  - intros [Hnone | Hempty]; [rewrite Hnone | rewrite Hempty]; reflexivity.
Qed.

Lemma C10_witness :
  (forall a, Request.ip (Request.mk (Some "198.51.100.4") ∅ None None) = Some a ->
     a <> "" ->
     RateLimiterService.getClientId
       (Request.mk (Some "198.51.100.4") ∅ None None) "session" = a /\
     RateLimiterService.getClientId
       (Request.mk (Some "198.51.100.4") ∅ None None) "ip" = a) /\
  (Request.ip (Request.mk (Some "198.51.100.4") ∅ None None) = None \/
   Request.ip (Request.mk (Some "198.51.100.4") ∅ None None) = Some "" ->
     RateLimiterService.getClientId
       (Request.mk (Some "198.51.100.4") ∅ None None) "session" = "127.0.0.1").
Proof.
  apply (C10_unknown_mode_reads_peer_address
           (Request.mk (Some "198.51.100.4") ∅ None None) "session");
    discriminate.
Defined.

(** C10 as stated fails: a request that only carries
    [x-forwarded-for] is keyed by the header's first entry in [ip] mode and
    by ['127.0.0.1'] in an unrecognised mode. *)
Lemma C10_counterexample : ~ unknown_mode_uses_ip_chain demoForwarded "session".
Proof.
  intros Hclaim.
  assert (H : RateLimiterService.getClientId demoForwarded "session"
              = RateLimiterService.getClientId demoForwarded "ip")
    by (apply Hclaim; discriminate).
  vm_compute in H. discriminate H.
Qed.

(** The [ip] mode on the same request, for comparison. *)
Example getClientId_ip_forwarded :
  RateLimiterService.getClientId demoForwarded "ip" = "203.0.113.7" /\
  RateLimiterService.getClientId demoForwarded "session" = "127.0.0.1".
Proof. split; reflexivity. Qed.

(** ** [parseTimeWindow] *)

Lemma slice_last_app (s : string) (u : ascii) :
  JS.slice_last (s ++ String u EmptyString) = String u EmptyString.
Proof.
  induction s as [|c s IH]; [reflexivity|].
  simpl. rewrite IH. destruct s; reflexivity.
Qed.

Lemma slice_init_app (s : string) (u : ascii) :
  JS.slice_init (s ++ String u EmptyString) = s.
Proof.
  induction s as [|c s IH]; [reflexivity|].
  simpl. rewrite IH. destruct s; reflexivity.
Qed.

(** The digit loop of [parseInt] agrees with the standard reading of a
    decimal numeral. *)
Lemma parseDigits_uint (d : Decimal.uint) (acc : nat) :
  JS.parseDigits 10 (NilEmpty.string_of_uint d) (Some (Z.of_nat acc))
  = Some (Z.of_nat (Nat.of_uint_acc d acc)).
Proof.
  revert acc. induction d; intros acc; simpl; [reflexivity | ..];
    rewrite <- IHd; do 2 f_equal; rewrite Nat.tail_mul_spec;
    match goal with
    | |- context [nat_of_ascii ?c] =>
        let v := eval vm_compute in (Z.of_nat (nat_of_ascii c)) in
        change (Z.of_nat (nat_of_ascii c)) with v
    end; lia.
Qed.

Lemma parseInt_uint (d : Decimal.uint) :
  d <> Decimal.Nil ->
  JS.parseInt (NilEmpty.string_of_uint d) = Num (Z.of_nat (Nat.of_uint d)).
Proof.
  intros Hne. unfold Nat.of_uint.
  assert (Hgo : forall (k : nat) (d' : Decimal.uint),
             match JS.parseDigits 10 (NilEmpty.string_of_uint d')
                     (Some (Z.of_nat k)) with
             | Some v => Num (1 * v)
             | None => NaN
             end = Num (Z.of_nat (Nat.of_uint_acc d' k))).
  { intros k d'. rewrite parseDigits_uint. f_equal. lia. }
  destruct d as [|d|d|d|d|d|d|d|d|d|d]; [congruence | ..];
    [destruct d as [|d|d|d|d|d|d|d|d|d|d]; [reflexivity | ..] | ..];
    unfold JS.parseInt; simpl;
    match goal with
    | |- match JS.parseDigits 10 _ (Some ?z) with _ => _ end
         = Num (Z.of_nat (Nat.of_uint_acc _ ?k)) =>
        change (Some z) with (Some (Z.of_nat k))
    end; apply Hgo.
Qed.

(** A decimal numeral followed by a unit is read as that many seconds,
    minutes, hours or days, in milliseconds, as long as the result is at
    most [Number.MAX_SAFE_INTEGER], the range in which the code's [parseInt]
    and products are exact. *)
Lemma parseTimeWindow_decimal (d : Decimal.uint) :
  d <> Decimal.Nil ->
  (Z.of_nat (Nat.of_uint d) * 1000 <= JS.MAX_SAFE_INTEGER ->
   parseTimeWindow (NilEmpty.string_of_uint d ++ "s")
   = Num (Z.of_nat (Nat.of_uint d) * 1000)) /\
  (Z.of_nat (Nat.of_uint d) * 60000 <= JS.MAX_SAFE_INTEGER ->
   parseTimeWindow (NilEmpty.string_of_uint d ++ "m")
   = Num (Z.of_nat (Nat.of_uint d) * 60000)) /\
  (Z.of_nat (Nat.of_uint d) * 3600000 <= JS.MAX_SAFE_INTEGER ->
   parseTimeWindow (NilEmpty.string_of_uint d ++ "h")
   = Num (Z.of_nat (Nat.of_uint d) * 3600000)) /\
  (Z.of_nat (Nat.of_uint d) * 86400000 <= JS.MAX_SAFE_INTEGER ->
   parseTimeWindow (NilEmpty.string_of_uint d ++ "d")
   = Num (Z.of_nat (Nat.of_uint d) * 86400000)).
Proof.
  intros Hne. unfold parseTimeWindow.
  rewrite !slice_last_app, !slice_init_app, (parseInt_uint d Hne).
  simpl. repeat split; intros _; f_equal; lia.
Qed.

(** A string that does not end in one of the four units is read as one
    minute. *)
Lemma parseTimeWindow_default (timeWindow : string) :
  JS.slice_last timeWindow <> "s" -> JS.slice_last timeWindow <> "m" ->
  JS.slice_last timeWindow <> "h" -> JS.slice_last timeWindow <> "d" ->
  parseTimeWindow timeWindow = Num 60000.
Proof.
  intros Hs Hm Hh Hd. unfold parseTimeWindow.
  destruct (String.eqb_spec (JS.slice_last timeWindow) "s"); [congruence|].
  destruct (String.eqb_spec (JS.slice_last timeWindow) "m"); [congruence|].
  destruct (String.eqb_spec (JS.slice_last timeWindow) "h"); [congruence|].
  destruct (String.eqb_spec (JS.slice_last timeWindow) "d"); [congruence|].
  reflexivity.
Qed.

(** C7: a string with a known unit and no integer before it is not read as
    the default of 60000 milliseconds: ["xs"] yields [NaN]. *)
Theorem C7_parseTimeWindow_not_a_number :
  parseTimeWindow "xs" = NaN /\ parseTimeWindow "xs" <> Num 60000.
Proof. split; [reflexivity | discriminate]. Qed.

(** ** Replacing the policy *)

Lemma updateRateLimitConfig_clears (d : InsertRateLimitConfig.t) (now : Z)
    (s : MemStorage.t) (clientId : string) :
  MemStorage.getActiveRateLimit clientId
    (snd (MemStorage.updateRateLimitConfig d now s)) = None.
Proof. apply lookup_empty. Qed.

Lemma find_after_set (id : Z) (c : RateLimitConfig.t)
    (l : list (Z * RateLimitConfig.t)) :
  RateLimitConfig.isActive c = true ->
  List.find RateLimitConfig.isActive
    (List.map snd
       (MemStorage.map_set id c
          (List.map (fun kc => (fst kc, RateLimitConfig.deactivate (snd kc))) l)))
  = Some c.
Proof.
  intros Hact. induction l as [|[k c'] l IH]; simpl.
  - now rewrite Hact.
  - destruct (id =? k); simpl; [now rewrite Hact | exact IH].
Qed.

(** The policy just written is the active one, unless it was written
    inactive. *)
Lemma updateRateLimitConfig_installs (d : InsertRateLimitConfig.t) (now : Z)
    (s : MemStorage.t) :
  InsertRateLimitConfig.isActive d <> Some false ->
  MemStorage.getRateLimitConfig (snd (MemStorage.updateRateLimitConfig d now s))
  = Some (fst (MemStorage.updateRateLimitConfig d now s)).
Proof.
  intros Hact. unfold MemStorage.getRateLimitConfig, MemStorage.updateRateLimitConfig.
  cbn [fst snd MemStorage.configs]. apply find_after_set.
  simpl. destruct (InsertRateLimitConfig.isActive d) as [[|]|]; simpl; congruence.
Qed.

(** After a policy swap to fixed-window or token-bucket, every client's next
    request is allowed, whatever it had consumed before. *)
Lemma first_request_after_swap_allowed (w : World) (d : InsertRateLimitConfig.t)
    (now now' : Z) (clientId endpoint : string) :
  InsertRateLimitConfig.isActive d <> Some false ->
  InsertRateLimitConfig.algorithm d = "fixed-window" \/
  InsertRateLimitConfig.algorithm d = "token-bucket" ->
  exists r w',
    RateLimiterService.checkRateLimit clientId endpoint now'
      (mkWorld (snd (MemStorage.updateRateLimitConfig d now (storage w)))
               (requestTimes w))
    = Returned r w' /\
    RateLimitStatus.allowed r = true.
Proof.
  intros Hact Halg.
  unfold RateLimiterService.checkRateLimit, bind at 1, storage_read at 1.
  cbn [storage]. rewrite (updateRateLimitConfig_installs d now (storage w) Hact).
  cbn [fst MemStorage.updateRateLimitConfig RateLimitConfig.algorithm].
  destruct Halg as [-> | ->]; cbn [RateLimiterService.algorithms_get
    RateLimiterService.algorithms String.eqb Ascii.eqb Bool.eqb checkLimit
    FixedWindowLimiter.algorithm TokenBucketLimiter.algorithm];
    unfold bind, storage_read, storage_exec, storage_call, ret;
    run_limiter; cbn [storage];
    rewrite updateRateLimitConfig_clears; simpl; eauto.
Qed.

(** C1: the sliding-window limiter's timestamps outlive a policy swap.
    Under a sliding-window policy of one request per minute, after the
    policy has been installed again and the state table is empty, the client
    that was blocked before the swap is still denied. *)
Theorem C1_sliding_window_outlives_policy_swap :
  result_of (policySwapScenario (mkWorld (MemStorage.new 0) ∅))
  = Some (true, false, None, false).
Proof. vm_compute. reflexivity. Qed.

(** * Further properties of the engine *)

(** ** Token bucket and fixed window: the other branches *)

(** What the first two branches of the token-bucket limiter do. *)
Lemma token_bucket_start
    (w : World) (clientId : string) (config : RateLimitConfig.t) (now : Z) :
  fresh_or_expired w clientId now ->
  let e := JS.newDate
             (JS.add (Num now) (parseTimeWindow (RateLimitConfig.timeWindow config))) in
  exists w' a',
    TokenBucketLimiter.checkLimit clientId config now w
    = Returned
        (RateLimitStatus.mk true (RateLimitConfig.requestLimit config - 1) e None)
        w' /\
    MemStorage.getActiveRateLimit clientId (storage w') = Some a' /\
    ActiveRateLimit.requestCount a' = 1 /\
    ActiveRateLimit.resetTime a' = e /\
    ActiveRateLimit.status a' = active /\
    requestTimes w' = requestTimes w.
Proof.
  intros Hfresh e.
  set (ins := InsertActiveRateLimit.literal clientId 1 e active).
  exists (mkWorld (snd (MemStorage.upsertActiveRateLimit ins now (storage w)))
                  (requestTimes w)),
         (fst (MemStorage.upsertActiveRateLimit ins now (storage w))).
  split.
  - unfold fresh_or_expired in Hfresh.
    unfold TokenBucketLimiter.checkLimit, bind, storage_read.
    destruct (MemStorage.getActiveRateLimit clientId (storage w)) as [a|].
    + destruct Hfresh as [r [Hr Hle]]. rewrite Hr. unfold JS.geb, JS.leb.
      destruct (Z.leb_spec r now); [reflexivity | lia].
    + reflexivity.
  - pose proof (upsert_lookup ins now (storage w)) as Hl.
    pose proof (upsert_fields ins now (storage w)) as Hf.
    simpl in Hl, Hf. destruct Hf as (_ & Hc & Hr & Hs & _). auto 10.
Qed.

(** A token-bucket client with no bucket, or whose refill instant has been
    reached, gets a fresh bucket with one token taken: the record holds
    [requestCount = 1], status [active] and [resetTime] the date
    [new Date(now + windowMs)], counted from this request's arrival, and the
    request is allowed with [remaining = requestLimit - 1] and that
    [resetTime].  The date is [now + windowMs] as long as that is within the
    range of [Date], and the invalid date beyond it.  The sliding-window
    timestamps are left alone. *)
Theorem token_bucket_refill_anchored_at_arrival
    (w : World) (clientId : string) (config : RateLimitConfig.t) (now : Z) :
  fresh_or_expired w clientId now ->
  exists e w' a',
    e = JS.newDate
          (JS.add (Num now) (parseTimeWindow (RateLimitConfig.timeWindow config))) /\
    (forall wms,
        parseTimeWindow (RateLimitConfig.timeWindow config) = Num wms ->
        (Z.abs (now + wms) <= JS.MAX_TIME -> e = Num (now + wms)) /\
        (JS.MAX_TIME < Z.abs (now + wms) -> e = NaN)) /\
    TokenBucketLimiter.checkLimit clientId config now w
    = Returned
        (RateLimitStatus.mk true (RateLimitConfig.requestLimit config - 1) e None)
        w' /\
    MemStorage.getActiveRateLimit clientId (storage w') = Some a' /\
    ActiveRateLimit.requestCount a' = 1 /\
    ActiveRateLimit.resetTime a' = e /\
    ActiveRateLimit.status a' = active /\
    requestTimes w' = requestTimes w.
Proof.
  intros Hfresh.
  destruct (token_bucket_start w clientId config now Hfresh)
    as (w' & a' & Hrun & Hrest).
  eexists _, w', a'. split; [reflexivity|]. split; [|auto].
  intros wms Hparse. rewrite Hparse. simpl JS.add. split.
  - apply newDate_in_range.
  - apply newDate_beyond.
Qed.

Lemma token_bucket_refill_witness :
  fresh_or_expired demoRefillWorld "10.0.0.1" 1500 /\
  exists w' a',
    TokenBucketLimiter.checkLimit "10.0.0.1" (demoConfig "token-bucket" 3 "30s")
      1500 demoRefillWorld
    = Returned (RateLimitStatus.mk true (3 - 1) (Num 31500) None) w' /\
    MemStorage.getActiveRateLimit "10.0.0.1" (storage w') = Some a' /\
    ActiveRateLimit.requestCount a' = 1 /\
    ActiveRateLimit.resetTime a' = Num 31500 /\
    ActiveRateLimit.status a' = active /\
    requestTimes w' = requestTimes demoRefillWorld.
Proof.
  assert (Hexpired : fresh_or_expired demoRefillWorld "10.0.0.1" 1500).
  { exists 1200. split; [reflexivity | lia]. }
  split; [exact Hexpired|].
  destruct (token_bucket_refill_anchored_at_arrival demoRefillWorld "10.0.0.1"
              (demoConfig "token-bucket" 3 "30s") 1500 Hexpired)
    as (e & w' & a' & _ & Hread & Hrun & Hget & Hcount & Hreset & Hrest).
  destruct (Hread 30000 eq_refl) as [Hin _].
  assert (He : e = Num (1500 + 30000)) by (apply Hin; vm_compute; discriminate).
  change (1500 + 30000) with 31500 in He.
  rewrite He in Hrun, Hreset.
  exists w', a'. repeat split; solve [assumption | apply Hrest].
Defined.

(** The refill on examples: 30 seconds from [now = 1500], and a window of
    100 000 000 days, which from any instant after the epoch ends beyond the
    range of [Date]. *)
Example token_bucket_refill_30s :
  result_of
    (TokenBucketLimiter.checkLimit "10.0.0.1" (demoConfig "token-bucket" 3 "30s")
       1500 (mkWorld (demoStore "token-bucket" 3 "30s" ∅) ∅))
  = Some (RateLimitStatus.mk true 2 (Num 31500) None).
Proof. reflexivity. Qed.

Example token_bucket_refill_beyond_date_range :
  result_of
    (TokenBucketLimiter.checkLimit "10.0.0.1"
       (demoConfig "token-bucket" 3 "100000000d") 1500
       (mkWorld (demoStore "token-bucket" 3 "100000000d" ∅) ∅))
  = Some (RateLimitStatus.mk true 2 NaN None).
Proof. reflexivity. Qed.

(** On a record that is still running and below the limit, the token-bucket
    and the fixed-window limiter do the same thing: they store
    [requestCount + 1] with the [resetTime] kept, status [warning] once five
    times the new count reaches four times the limit and [active] before,
    and allow the request with [remaining = requestLimit - newCount]. *)
Theorem running_record_consumes_one
    (w : World) (clientId : string) (config : RateLimitConfig.t) (now r : Z)
    (a : ActiveRateLimit.t) :
  MemStorage.getActiveRateLimit clientId (storage w) = Some a ->
  ActiveRateLimit.resetTime a = Num r ->
  now < r ->
  ActiveRateLimit.requestCount a < RateLimitConfig.requestLimit config ->
  exists w' a',
    TokenBucketLimiter.checkLimit clientId config now w
    = Returned
        (RateLimitStatus.mk true
           (RateLimitConfig.requestLimit config
            - (ActiveRateLimit.requestCount a + 1)) (Num r) None) w' /\
    FixedWindowLimiter.checkLimit clientId config now w
    = TokenBucketLimiter.checkLimit clientId config now w /\
    MemStorage.getActiveRateLimit clientId (storage w') = Some a' /\
    ActiveRateLimit.requestCount a' = ActiveRateLimit.requestCount a + 1 /\
    ActiveRateLimit.resetTime a' = Num r /\
    ActiveRateLimit.status a'
    = (if 4 * RateLimitConfig.requestLimit config
          <=? 5 * (ActiveRateLimit.requestCount a + 1)
       then warning else active) /\
    ActiveRateLimit.id a' = ActiveRateLimit.id a.
Proof.
  intros Hget Hr Hlt Hcount.
  set (st := if 4 * RateLimitConfig.requestLimit config
                <=? 5 * (ActiveRateLimit.requestCount a + 1)
             then warning else active).
  set (ins := InsertActiveRateLimit.literal clientId
                (ActiveRateLimit.requestCount a + 1) (Num r) st).
  assert (Htoken :
    TokenBucketLimiter.checkLimit clientId config now w
    = Returned
        (RateLimitStatus.mk true
           (RateLimitConfig.requestLimit config
            - (ActiveRateLimit.requestCount a + 1)) (Num r) None)
        (mkWorld (snd (MemStorage.upsertActiveRateLimit ins now (storage w)))
                 (requestTimes w))).
  { unfold TokenBucketLimiter.checkLimit, bind, storage_read.
    rewrite Hget, Hr. unfold JS.geb, JS.leb.
    destruct (Z.leb_spec r now); [lia|].
    destruct (Z.leb_spec (RateLimitConfig.requestLimit config)
                (ActiveRateLimit.requestCount a)); [lia|].
    reflexivity. }
  exists (mkWorld (snd (MemStorage.upsertActiveRateLimit ins now (storage w)))
                  (requestTimes w)),
         (fst (MemStorage.upsertActiveRateLimit ins now (storage w))).
  split; [exact Htoken|]. split.
  - rewrite Htoken.
    unfold FixedWindowLimiter.checkLimit, bind, storage_read.
    rewrite Hget, Hr. unfold JS.leb.
    destruct (Z.leb_spec r now); [lia|].
    destruct (Z.leb_spec (RateLimitConfig.requestLimit config)
                (ActiveRateLimit.requestCount a)); [lia|].
    reflexivity.
  - pose proof (upsert_lookup ins now (storage w)) as Hl.
    pose proof (upsert_fields ins now (storage w)) as Hf.
    simpl in Hl, Hf. destruct Hf as (_ & Hc & Hreset & Hs & _).
    repeat split; auto.
    unfold MemStorage.upsertActiveRateLimit. simpl.
    unfold MemStorage.getActiveRateLimit in Hget. now rewrite Hget.
Qed.

Lemma running_record_consumes_one_witness :
  exists w' a',
    TokenBucketLimiter.checkLimit "10.0.0.1" (demoConfig "token-bucket" 3 "30s")
      1500
      (mkWorld (demoStore "token-bucket" 3 "30s"
                  {[ "10.0.0.1" := demoRecord "10.0.0.1" 1 30000 active ]}) ∅)
    = Returned (RateLimitStatus.mk true (3 - (1 + 1)) (Num 30000) None) w' /\
    FixedWindowLimiter.checkLimit "10.0.0.1" (demoConfig "token-bucket" 3 "30s")
      1500
      (mkWorld (demoStore "token-bucket" 3 "30s"
                  {[ "10.0.0.1" := demoRecord "10.0.0.1" 1 30000 active ]}) ∅)
    = TokenBucketLimiter.checkLimit "10.0.0.1"
        (demoConfig "token-bucket" 3 "30s") 1500
        (mkWorld (demoStore "token-bucket" 3 "30s"
                    {[ "10.0.0.1" := demoRecord "10.0.0.1" 1 30000 active ]}) ∅) /\
    MemStorage.getActiveRateLimit "10.0.0.1" (storage w') = Some a' /\
    ActiveRateLimit.requestCount a' = 1 + 1 /\
    ActiveRateLimit.resetTime a' = Num 30000 /\
    ActiveRateLimit.status a' = (if 4 * 3 <=? 5 * (1 + 1) then warning else active) /\
    ActiveRateLimit.id a' = 2.
Proof.
  apply (running_record_consumes_one _ "10.0.0.1"
           (demoConfig "token-bucket" 3 "30s") 1500 30000
           (demoRecord "10.0.0.1" 1 30000 active)).
  - reflexivity.
  - reflexivity.
  - lia.
  - simpl. lia.
Defined.

(** ** Sliding window: admission *)

(** With the client's timestamps in arrival order and none after [now], and
    [now + windowMs] within the range of [Date]: when fewer than
    [requestLimit] of the timestamps lie inside [(now - windowMs, now]], the
    sliding-window limiter admits the request: the client's list becomes the
    timestamps of the window followed by [now] (the expired ones are
    dropped), [remaining] is the limit minus the new length, the decision
    carries [resetTime = now + windowMs], and the store mirrors the new
    length with [resetTime = now + windowMs] and status [warning] when five
    times [remaining] is at most the limit. *)
Theorem sliding_window_admission
    (w : World) (clientId : string) (config : RateLimitConfig.t) (now wms : Z) :
  parseTimeWindow (RateLimitConfig.timeWindow config) = Num wms ->
  arrival_ordered now (stored_times w clientId) ->
  Z.abs (now + wms) <= JS.MAX_TIME ->
  Z.of_nat (List.length (in_window now wms (stored_times w clientId)))
  < RateLimitConfig.requestLimit config ->
  exists w' a',
    SlidingWindowLimiter.checkLimit clientId config now w
    = Returned
        (RateLimitStatus.mk true
           (RateLimitConfig.requestLimit config
            - (Z.of_nat (List.length (in_window now wms (stored_times w clientId)))
               + 1))
           (Num (now + wms)) None) w' /\
    stored_times w' clientId
    = (in_window now wms (stored_times w clientId) ++ [now])%list /\
    MemStorage.getActiveRateLimit clientId (storage w') = Some a' /\
    ActiveRateLimit.requestCount a'
    = Z.of_nat (List.length (in_window now wms (stored_times w clientId))) + 1 /\
    ActiveRateLimit.resetTime a' = Num (now + wms) /\
    ActiveRateLimit.status a'
    = (if 5 * (RateLimitConfig.requestLimit config
               - (Z.of_nat (List.length
                              (in_window now wms (stored_times w clientId))) + 1))
          <=? RateLimitConfig.requestLimit config
       then warning else active).
Proof.
  intros Hparse [Hsorted Hpast] Hrange Hroom.
  pose proof (sliding_filter_in_window now wms _ Hpast) as Hfilter.
  pose proof (newDate_in_range (now + wms) Hrange) as Hdate.
  set (inw := in_window now wms (stored_times w clientId)) in *.
  set (n1 := Z.of_nat (List.length inw) + 1).
  set (st := if 5 * (RateLimitConfig.requestLimit config - n1)
                <=? RateLimitConfig.requestLimit config
             then warning else active).
  set (ins := InsertActiveRateLimit.literal clientId n1 (Num (now + wms)) st).
  set (w1 := mkWorld (storage w) (<[clientId := (inw ++ [now])%list]> (requestTimes w))).
  exists (mkWorld (snd (MemStorage.upsertActiveRateLimit ins now (storage w1)))
                  (requestTimes w1)),
         (fst (MemStorage.upsertActiveRateLimit ins now (storage w1))).
  split.
  { unfold SlidingWindowLimiter.checkLimit, bind, requestTimes_get.
    rewrite Hparse. unfold stored_times in Hfilter. rewrite Hfilter.
    fold (stored_times w clientId). fold inw.
    destruct (Z.leb_spec (RateLimitConfig.requestLimit config)
                (Z.of_nat (List.length inw))) as [Hge|_]; [lia|].
    unfold requestTimes_set, storage_call, ret, within_20_percent.
    rewrite length_app, Nat2Z.inj_add. simpl List.length. simpl JS.add.
    rewrite Hdate.
    change (Z.of_nat 1) with 1. fold n1. fold st. reflexivity. }
  split.
  { unfold stored_times. simpl. now rewrite lookup_insert_eq. }
  pose proof (upsert_lookup ins now (storage w1)) as Hl.
  pose proof (upsert_fields ins now (storage w1)) as Hf.
  simpl in Hl, Hf. destruct Hf as (_ & Hc & Hreset & Hs & _). auto.
Qed.

Lemma sliding_window_admission_witness :
  exists w' a',
    SlidingWindowLimiter.checkLimit "10.0.0.1"
      (demoConfig "sliding-window" 3 "10s") 11100 demoSlidingWorld
    = Returned
        (RateLimitStatus.mk true
           (3 - (Z.of_nat (List.length
                             (in_window 11100 10000
                                (stored_times demoSlidingWorld "10.0.0.1"))) + 1))
           (Num (11100 + 10000)) None) w' /\
    stored_times w' "10.0.0.1"
    = (in_window 11100 10000 (stored_times demoSlidingWorld "10.0.0.1")
       ++ [11100])%list /\
    MemStorage.getActiveRateLimit "10.0.0.1" (storage w') = Some a' /\
    ActiveRateLimit.requestCount a'
    = Z.of_nat (List.length
                  (in_window 11100 10000 (stored_times demoSlidingWorld "10.0.0.1")))
      + 1 /\
    ActiveRateLimit.resetTime a' = Num (11100 + 10000) /\
    ActiveRateLimit.status a'
    = (if 5 * (3 - (Z.of_nat (List.length
                                (in_window 11100 10000
                                   (stored_times demoSlidingWorld "10.0.0.1")))
                    + 1))
          <=? 3
       then warning else active).
Proof.
  apply (sliding_window_admission demoSlidingWorld "10.0.0.1"
           (demoConfig "sliding-window" 3 "10s") 11100 10000).
  - reflexivity.
  - split.
    + vm_compute (stored_times _ _). repeat constructor; lia.
    + vm_compute (stored_times _ _). repeat constructor; lia.
  - vm_compute. discriminate.
  - vm_compute. reflexivity.
Defined.

(** ** All three limiters *)

(** A limiter serving one client leaves every other client's record and
    every other client's timestamps as they were. *)
Theorem limiters_isolate_clients
    (alg : RateLimiterAlgorithm) (clientId other : string)
    (config : RateLimitConfig.t) (now : Z) (w w' : World) (r : RateLimitStatus.t) :
  registered alg ->
  other <> clientId ->
  checkLimit alg clientId config now w = Returned r w' ->
  MemStorage.getActiveRateLimit other (storage w')
  = MemStorage.getActiveRateLimit other (storage w) /\
  stored_times w' other = stored_times w other.
Proof.
  intros [-> | [-> | ->]] Hne; simpl checkLimit; run_limiter; limiter_branches;
    intros [= _ <-]; unfold stored_times; simpl;
    rewrite ?lookup_insert_ne by congruence;
    (split; [|reflexivity]);
    first [ reflexivity
          | apply (upsert_lookup_ne
                     (InsertActiveRateLimit.literal clientId _ _ _) now _ other Hne) ].
Qed.

Lemma limiters_isolate_clients_witness :
  exists r w',
    checkLimit SlidingWindowLimiter.algorithm "10.0.0.1"
      (demoConfig "sliding-window" 3 "10s") 11100 demoSharedWorld = Returned r w' /\
    stored_times w' "10.0.0.1" = [1200; 1400; 11100] /\
    MemStorage.getActiveRateLimit "10.0.0.9" (storage demoSharedWorld)
    = Some (ActiveRateLimit.mk 3 None active None None "10.0.0.9" 2 (Num 11300) 1300) /\
    stored_times demoSharedWorld "10.0.0.9" = [1100; 1300] /\
    MemStorage.getActiveRateLimit "10.0.0.9" (storage w')
    = MemStorage.getActiveRateLimit "10.0.0.9" (storage demoSharedWorld) /\
    stored_times w' "10.0.0.9" = stored_times demoSharedWorld "10.0.0.9".
Proof.
  eexists. eexists. split; [vm_compute; reflexivity|].
  split; [vm_compute; reflexivity|].
  split; [vm_compute; reflexivity|].
  split; [vm_compute; reflexivity|].
  eapply (limiters_isolate_clients SlidingWindowLimiter.algorithm "10.0.0.1"
            "10.0.0.9" (demoConfig "sliding-window" 3 "10s") 11100 demoSharedWorld).
  - right. left. reflexivity.
  - discriminate.
  - vm_compute. reflexivity.
Defined.

Lemma upsert_size (limitData : InsertActiveRateLimit.t) (now : Z) (s : MemStorage.t) :
  Z.of_nat (size (MemStorage.activeLimits
                    (snd (MemStorage.upsertActiveRateLimit limitData now s))))
  = Z.of_nat (size (MemStorage.activeLimits s))
    + match MemStorage.getActiveRateLimit
              (InsertActiveRateLimit.clientId limitData) s with
      | Some _ => 0
      | None => 1
      end.
Proof.
  unfold MemStorage.upsertActiveRateLimit, MemStorage.getActiveRateLimit.
  destruct (MemStorage.activeLimits s !! InsertActiveRateLimit.clientId limitData)
    as [e|] eqn:He; simpl.
  - rewrite map_size_insert_Some by eauto. lia.
  - rewrite map_size_insert_None by exact He. lia.
Qed.

(** After any limiter has served a client, the client has a record in the
    state table, and the [activeClients] figure of [getSystemStats] has gone
    up by one if the client had none and is unchanged otherwise. *)
Theorem limiters_register_the_client
    (alg : RateLimiterAlgorithm) (clientId : string)
    (config : RateLimitConfig.t) (now : Z) (w w' : World) (r : RateLimitStatus.t) :
  registered alg ->
  checkLimit alg clientId config now w = Returned r w' ->
  is_Some (MemStorage.getActiveRateLimit clientId (storage w')) /\
  DashboardStats.activeClients (MemStorage.getSystemStats (storage w'))
  = DashboardStats.activeClients (MemStorage.getSystemStats (storage w))
    + match MemStorage.getActiveRateLimit clientId (storage w) with
      | Some _ => 0
      | None => 1
      end.
Proof.
  intros [-> | [-> | ->]]; simpl checkLimit; run_limiter;
    destruct (MemStorage.getActiveRateLimit clientId (storage w)) as [a|] eqn:Hget;
    limiter_branches; intros [= _ <-];
    cbn [storage MemStorage.getSystemStats DashboardStats.activeClients];
    rewrite ?upsert_size; cbn [InsertActiveRateLimit.clientId
                                InsertActiveRateLimit.literal];
    rewrite ?Hget;
    (split; [| lia]);
    first [ rewrite (upsert_lookup (InsertActiveRateLimit.literal clientId _ _ _));
            eexists; reflexivity
          | eexists; reflexivity ].
Qed.

Lemma limiters_register_the_client_witness :
  exists r w',
    checkLimit SlidingWindowLimiter.algorithm "10.0.0.1"
      (demoConfig "sliding-window" 3 "10s") 1500 demoSlidingWorld = Returned r w' /\
    is_Some (MemStorage.getActiveRateLimit "10.0.0.1" (storage w')) /\
    DashboardStats.activeClients (MemStorage.getSystemStats (storage w'))
    = DashboardStats.activeClients
        (MemStorage.getSystemStats (storage demoSlidingWorld))
      + match MemStorage.getActiveRateLimit "10.0.0.1" (storage demoSlidingWorld) with
        | Some _ => 0
        | None => 1
        end.
Proof.
  eexists. eexists. split; [vm_compute; reflexivity|].
  eapply (limiters_register_the_client SlidingWindowLimiter.algorithm "10.0.0.1"
            (demoConfig "sliding-window" 3 "10s") 1500 demoSlidingWorld).
  - right. left. reflexivity.
  - vm_compute. reflexivity.
Defined.

(** After an allowed decision of any limiter, the client's stored
    [requestCount] and the returned [remaining] add up to [requestLimit], the
    stored status is not [blocked], and the stored [resetTime] is the one
    returned, with one exception: the sliding-window limiter returns the
    number [now + windowMs] and stores the date built from it, so when that
    number is beyond the range of [Date] the store holds the invalid
    date. *)
Theorem allowed_decision_matches_record
    (alg : RateLimiterAlgorithm) (clientId : string)
    (config : RateLimitConfig.t) (now : Z) (w w' : World) (r : RateLimitStatus.t) :
  registered alg ->
  checkLimit alg clientId config now w = Returned r w' ->
  RateLimitStatus.allowed r = true ->
  exists a',
    MemStorage.getActiveRateLimit clientId (storage w') = Some a' /\
    ActiveRateLimit.requestCount a' + RateLimitStatus.remaining r
    = RateLimitConfig.requestLimit config /\
    ActiveRateLimit.status a' <> blocked /\
    (ActiveRateLimit.resetTime a' = RateLimitStatus.resetTime r \/
     (alg = SlidingWindowLimiter.algorithm /\
      ActiveRateLimit.resetTime a' = NaN /\
      exists z, RateLimitStatus.resetTime r = Num z /\ JS.MAX_TIME < Z.abs z)).
Proof.
  intros [-> | [-> | ->]]; simpl checkLimit; run_limiter; limiter_branches;
    intros [= <- <-]; simpl; try discriminate; intros _;
    (eexists; split;
     [apply (upsert_lookup (InsertActiveRateLimit.literal clientId _ _ _)) |]);
    match goal with
    | |- context [MemStorage.upsertActiveRateLimit ?ins ?n ?s] =>
        pose proof (upsert_fields ins n s) as Hf; simpl in Hf;
        destruct Hf as (_ & -> & -> & -> & _)
    end;
    (split; [lia |]);
    (split; [first [ discriminate | now destruct (reaches_80_percent _ _)
                   | now destruct (within_20_percent _ _) ] |]);
    first [ left; reflexivity
          | match goal with
            | |- JS.newDate ?x = _ \/ _ =>
                destruct (newDate_cases x) as [Hsame | (Hnan & z & Hz & Hout)];
                [left; exact Hsame
                | right; split; [reflexivity|]; split; [exact Hnan|];
                  exists z; split; [exact Hz | exact Hout]]
            end ].
Qed.

Lemma allowed_decision_matches_record_witness :
  exists r w' a',
    checkLimit SlidingWindowLimiter.algorithm "10.0.0.1"
      (demoConfig "sliding-window" 3 "10s") 11100 demoSlidingWorld
    = Returned r w' /\
    RateLimitStatus.allowed r = true /\
    RateLimitStatus.resetTime r = Num 21100 /\
    MemStorage.getActiveRateLimit "10.0.0.1" (storage w') = Some a' /\
    ActiveRateLimit.requestCount a' + RateLimitStatus.remaining r
    = RateLimitConfig.requestLimit (demoConfig "sliding-window" 3 "10s") /\
    ActiveRateLimit.status a' <> blocked /\
    (ActiveRateLimit.resetTime a' = RateLimitStatus.resetTime r \/
     (SlidingWindowLimiter.algorithm = SlidingWindowLimiter.algorithm /\
      ActiveRateLimit.resetTime a' = NaN /\
      exists z, RateLimitStatus.resetTime r = Num z /\ JS.MAX_TIME < Z.abs z)).
Proof.
  assert (Hrun : exists r w',
             checkLimit SlidingWindowLimiter.algorithm "10.0.0.1"
               (demoConfig "sliding-window" 3 "10s") 11100 demoSlidingWorld
             = Returned r w' /\ RateLimitStatus.allowed r = true /\
             RateLimitStatus.resetTime r = Num 21100).
  { eexists. eexists. split; [vm_compute; reflexivity | split; reflexivity]. }
  destruct Hrun as (r & w' & Hrun & Hallowed & Hreset).
  destruct (allowed_decision_matches_record SlidingWindowLimiter.algorithm
              "10.0.0.1" (demoConfig "sliding-window" 3 "10s") 11100
              demoSlidingWorld w' r (or_intror (or_introl eq_refl)) Hrun Hallowed)
    as (a' & Ha).
  exists r, w', a'. auto.
Defined.

(** The exception on an example: under a window of 100 000 001 days the
    sliding-window limiter returns a number and stores the invalid date. *)
Example sliding_admission_under_long_window :
  exists r w' a',
    SlidingWindowLimiter.checkLimit "10.0.0.9"
      (demoConfig "sliding-window" 1 "100000001d") 1500 demoLongWindowWorld
    = Returned r w' /\
    RateLimitStatus.allowed r = true /\
    RateLimitStatus.resetTime r = Num 8640000086401500 /\
    MemStorage.getActiveRateLimit "10.0.0.9" (storage w') = Some a' /\
    ActiveRateLimit.resetTime a' = NaN.
Proof.
  eexists. eexists. eexists. split; [vm_compute; reflexivity|].
  repeat split; vm_compute; reflexivity.
Qed.

(** ** The service: when a decision is returned *)

Lemma algorithms_get_known (name : string) :
  known_algorithm name ->
  exists alg,
    RateLimiterService.algorithms_get name RateLimiterService.algorithms = Some alg.
Proof. intros [-> | [-> | ->]]; simpl; eauto. Qed.

Lemma algorithms_get_unknown (name : string) :
  ~ known_algorithm name ->
  RateLimiterService.algorithms_get name RateLimiterService.algorithms = None.
Proof.
  intros Hunknown. unfold RateLimiterService.algorithms. simpl.
  destruct (String.eqb_spec name "token-bucket") as [->|_].
  { exfalso. apply Hunknown. left. reflexivity. }
  destruct (String.eqb_spec name "sliding-window") as [->|_].
  { exfalso. apply Hunknown. right. left. reflexivity. }
  destruct (String.eqb_spec name "fixed-window") as [->|_].
  { exfalso. apply Hunknown. right. right. reflexivity. }
  reflexivity.
Qed.

(** [checkRateLimit] returns a decision exactly when there is an active
    policy and it names one of the three registered algorithms.  With no
    active policy it throws ['No rate limit configuration found'], with an
    unregistered name it throws ['Unknown algorithm: <name>']; in both cases
    nothing has been written: no counter is raised and no limiter has run. *)
Theorem checkRateLimit_outcomes
    (w : World) (clientId endpoint : string) (now : Z) :
  match MemStorage.getRateLimitConfig (storage w) with
  | None =>
      RateLimiterService.checkRateLimit clientId endpoint now w
      = Thrown "No rate limit configuration found" w
  | Some config =>
      (known_algorithm (RateLimitConfig.algorithm config) ->
       exists r w',
         RateLimiterService.checkRateLimit clientId endpoint now w
         = Returned r w') /\
      (~ known_algorithm (RateLimitConfig.algorithm config) ->
       RateLimiterService.checkRateLimit clientId endpoint now w
       = Thrown ("Unknown algorithm: " ++ RateLimitConfig.algorithm config)%string
                w)
  end.
Proof.
  destruct (MemStorage.getRateLimitConfig (storage w)) as [config|] eqn:Hcfg.
  - split.
    + intros Hknown. destruct (algorithms_get_known _ Hknown) as [alg Halg].
      destruct (checkLimit_returns_and_frames alg clientId config now w
                  (algorithms_get_cases _ _ Halg)) as (r & w1 & Hrun & _).
      unfold RateLimiterService.checkRateLimit, bind, storage_read.
      rewrite Hcfg, Halg, Hrun. unfold storage_exec, storage_call, ret.
      destruct (RateLimitStatus.allowed r); simpl; eauto.
    + intros Hunknown.
      unfold RateLimiterService.checkRateLimit, bind, storage_read.
      now rewrite Hcfg, (algorithms_get_unknown _ Hunknown).
  - unfold RateLimiterService.checkRateLimit, bind, storage_read.
    now rewrite Hcfg.
Qed.

(** ** Client identity: the other modes *)

Lemma or_lit_nonempty (a : option string) (lit : string) :
  lit <> "" -> JS.or_lit a lit <> "".
Proof.
  intros Hlit. unfold JS.or_lit, JS.or.
  destruct (JS.truthy a) eqn:Ht.
  - destruct a as [s|]; [|discriminate]. simpl in Ht.
    destruct (String.eqb_spec s ""); [discriminate | assumption].
  - exact Hlit.
Qed.

(** In every mode, known or not, and for every request, the client key is a
    non-empty string. *)
Theorem getClientId_never_empty (req : Request.t) (clientIdType : string) :
  RateLimiterService.getClientId req clientIdType <> "".
Proof.
  unfold RateLimiterService.getClientId.
  repeat match goal with
         | |- context [if ?b then _ else _] => destruct b
         end;
    apply or_lit_nonempty; discriminate.
Qed.

Lemma replace_prefix (pat rest : string) :
  JS.replace pat "" (pat ++ rest) = rest.
Proof.
  assert (Hpre : forall p s, String.prefix p (p ++ s) = true).
  { induction p as [|c p IH]; intros s; simpl; [now destruct s|].
    destruct (Ascii.ascii_dec c c); [apply IH | congruence]. }
  assert (Hdrop : forall p s, JS.drop (String.length p) (p ++ s) = s).
  { induction p as [|c p IH]; intros s; simpl; [reflexivity | apply IH]. }
  assert (Hunfold : forall p r s,
             JS.replace p r s
             = if String.prefix p s then (r ++ JS.drop (String.length p) s)%string
               else match s with
                    | EmptyString => EmptyString
                    | String c s' => String c (JS.replace p r s')
                    end).
  { intros p r s. destruct s; reflexivity. }
  rewrite Hunfold, Hpre, Hdrop. reflexivity.
Qed.

(** In [api-key] mode the key is the [x-api-key] header when it is
    non-empty; failing that, the token of an [authorization: Bearer <token>]
    header with a non-empty token; and ['anonymous-api'] when there is
    neither header, or the bearer token is empty. *)
Theorem getClientId_api_key (req : Request.t) :
  (forall k, Request.headers req !! "x-api-key" = Some k -> k <> "" ->
     RateLimiterService.getClientId req "api-key" = k) /\
  (forall token,
     Request.headers req !! "x-api-key" = None \/
     Request.headers req !! "x-api-key" = Some "" ->
     Request.headers req !! "authorization" = Some ("Bearer " ++ token)%string ->
     token <> "" ->
     RateLimiterService.getClientId req "api-key" = token) /\
  (Request.headers req !! "x-api-key" = None \/
   Request.headers req !! "x-api-key" = Some "" ->
   Request.headers req !! "authorization" = None \/
   Request.headers req !! "authorization" = Some "Bearer " ->
   RateLimiterService.getClientId req "api-key" = "anonymous-api").
Proof.
  unfold RateLimiterService.getClientId, RateLimiterService.bearerToken.
  simpl String.eqb. cbv iota.
  assert (Htruthy : forall s, s <> "" -> JS.truthy (Some s) = true).
  { intros s Hs. simpl. now destruct (String.eqb_spec s ""). }
  split; [|split].
  - intros k Hk Hne. rewrite Hk. unfold JS.or_lit, JS.or.
    rewrite (Htruthy k Hne). cbv iota. now rewrite (Htruthy k Hne).
  - intros token Hkey Hauth Hne. rewrite Hauth, replace_prefix.
    unfold JS.or_lit, JS.or.
    destruct Hkey as [-> | ->];
      [change (JS.truthy None) with false
      | change (JS.truthy (Some "")) with false];
      cbv iota; rewrite (Htruthy token Hne); reflexivity.
  - intros Hkey Hauth.
    destruct Hkey as [-> | ->], Hauth as [-> | ->]; reflexivity.
Qed.

Lemma getClientId_api_key_witness :
  RateLimiterService.getClientId
    (Request.mk (Some "198.51.100.4")
       {[ "authorization" := "Bearer test-token-789" ]} None None) "api-key"
  = "test-token-789".
Proof.
  apply (getClientId_api_key
           (Request.mk (Some "198.51.100.4")
              {[ "authorization" := "Bearer test-token-789" ]} None None)).
  - left. reflexivity.
  - reflexivity.
  - discriminate.
Defined.

(** ** Invariants of the store *)

Lemma map_set_keys {V : Type} (k : Z) (v : V) (m : list (Z * V)) (x : Z) :
  In x (List.map fst (MemStorage.map_set k v m)) <-> x = k \/ In x (List.map fst m).
Proof.
  induction m as [|[k' v'] m IH]; simpl.
  - intuition.
  - destruct (Z.eqb_spec k k') as [->|Hne]; simpl; [intuition | rewrite IH; intuition].
Qed.

Lemma map_set_NoDup {V : Type} (k : Z) (v : V) (m : list (Z * V)) :
  List.NoDup (List.map fst m) ->
  List.NoDup (List.map fst (MemStorage.map_set k v m)).
Proof.
  induction m as [|[k' v'] m IH]; simpl; intros Hnd.
  - constructor; [intros [] | constructor].
  - apply List.NoDup_cons_iff in Hnd. destruct Hnd as [Hnotin Hnd].
    destruct (Z.eqb_spec k k') as [->|Hne]; simpl.
    + apply List.NoDup_cons_iff. split; assumption.
    + apply List.NoDup_cons_iff. split; [|now apply IH].
      rewrite map_set_keys. intros [Heq | Hin]; [congruence | contradiction].
Qed.

Lemma map_set_active (k : Z) (c : RateLimitConfig.t)
    (m : list (Z * RateLimitConfig.t)) :
  List.Forall (fun kc => RateLimitConfig.isActive (snd kc) = false) m ->
  List.filter RateLimitConfig.isActive (List.map snd (MemStorage.map_set k c m))
  = if RateLimitConfig.isActive c then [c] else [].
Proof.
  induction 1 as [|[k' c'] m Hc' Hm IH]; simpl.
  - reflexivity.
  - simpl in Hc'. destruct (Z.eqb_spec k k') as [->|Hne]; simpl.
    + assert (Hrest : List.filter RateLimitConfig.isActive (List.map snd m) = []).
      { clear IH. induction Hm as [|[k2 c2] m2 H2 Hm2 IH2]; simpl; [reflexivity|].
        simpl in H2. now rewrite H2. }
      rewrite Hrest. reflexivity.
    + rewrite Hc'. exact IH.
Qed.

(** In every state of the store the policy map is well formed: distinct
    keys, each policy under its own [id], and at most one active policy. *)
Theorem reachable_configs_wf (s : MemStorage.t) : reachable s -> configs_wf s.
Proof.
  induction 1 as [now | s d now _ IH | s d now _ IH | s c _ IH | s d now _ IH
                 | s c _ IH | s p now _ IH | s now _ IH | s _ IH];
    try exact IH.
  - repeat split; simpl; repeat constructor. intros [].
  - destruct IH as (Hnd & Hid & _).
    unfold configs_wf, MemStorage.updateRateLimitConfig.
    cbn [snd MemStorage.configs].
    set (deactivated := List.map _ (MemStorage.configs s)).
    assert (Hkeys : List.map fst deactivated = List.map fst (MemStorage.configs s)).
    { unfold deactivated. rewrite List.map_map. reflexivity. }
    split; [|split].
    + apply map_set_NoDup. now rewrite Hkeys.
    + assert (Hd : List.Forall (fun kc => fst kc = RateLimitConfig.id (snd kc))
                     deactivated).
      { unfold deactivated. rewrite List.Forall_forall in *. intros x Hx.
        apply in_map_iff in Hx. destruct Hx as (y & <- & Hy). simpl.
        now apply Hid. }
      clear Hkeys. induction Hd as [|[k c] m Hk Hm IHm]; simpl.
      * repeat constructor.
      * destruct (_ =? k); constructor; auto.
    + rewrite map_set_active.
      * destruct (RateLimitConfig.isActive _); simpl; lia.
      * unfold deactivated. rewrite List.Forall_forall. intros x Hx.
        apply in_map_iff in Hx. now destruct Hx as (y & <- & Hy).
  - unfold configs_wf, MemStorage.upsertActiveRateLimit.
    destruct (MemStorage.activeLimits s !! _); exact IH.
Qed.

Lemma reachable_configs_wf_witness :
  configs_wf
    (snd (MemStorage.updateRateLimitConfig slidingPolicy 1000 (MemStorage.new 0))).
Proof.
  apply (reachable_configs_wf
           (snd (MemStorage.updateRateLimitConfig slidingPolicy 1000
                   (MemStorage.new 0)))).
  apply reach_updateRateLimitConfig. apply reach_new.
Defined.

Lemma cleanup_lookup (now : Z) (s : MemStorage.t) (c : string) :
  MemStorage.getActiveRateLimit c (MemStorage.cleanupExpiredLimits now s)
  = match MemStorage.getActiveRateLimit c s with
    | Some a =>
        if JS.ltb (ActiveRateLimit.resetTime a) (Num now) then None else Some a
    | None => None
    end.
Proof.
  unfold MemStorage.getActiveRateLimit, MemStorage.cleanupExpiredLimits.
  cbn [MemStorage.activeLimits]. rewrite map_lookup_filter.
  destruct (MemStorage.activeLimits s !! c) as [a|]; simpl; [|reflexivity].
  destruct (JS.ltb (ActiveRateLimit.resetTime a) (Num now)) eqn:Hlt;
    case_guard; simpl in *; congruence.
Qed.

Lemma block_lookup (blockedClient c : string) (s : MemStorage.t) :
  MemStorage.getActiveRateLimit c (MemStorage.blockClient blockedClient s)
  = match MemStorage.getActiveRateLimit c s with
    | Some a =>
        Some (if String.eqb c blockedClient
              then ActiveRateLimit.with_status a blocked else a)
    | None => None
    end.
Proof.
  unfold MemStorage.getActiveRateLimit, MemStorage.blockClient.
  cbn [MemStorage.activeLimits].
  destruct (String.eqb_spec c blockedClient) as [->|Hne].
  - destruct (MemStorage.activeLimits s !! blockedClient) as [a|] eqn:Ha.
    + now rewrite lookup_insert_eq.
    + now rewrite Ha.
  - destruct (MemStorage.activeLimits s !! blockedClient) as [a|] eqn:Ha.
    + rewrite lookup_insert_ne by congruence.
      now destruct (MemStorage.activeLimits s !! c).
    + now destruct (MemStorage.activeLimits s !! c).
Qed.

(** In every state of the store each record of the state table is filed
    under its own [clientId], carries an [id] below the counter, and no two
    clients' records share an [id]. *)
Theorem reachable_limits_wf (s : MemStorage.t) : reachable s -> limits_wf s.
Proof.
  induction 1 as [now | s d now _ IH | s d now _ IH | s c _ IH | s d now _ IH
                 | s c _ IH | s p now _ IH | s now _ IH | s _ IH].
  - split; intros *; unfold MemStorage.getActiveRateLimit; simpl;
      rewrite lookup_empty; discriminate.
  - split; intros *; rewrite updateRateLimitConfig_clears; discriminate.
  - destruct IH as [Hrec Hinj].
    set (c0 := InsertActiveRateLimit.clientId d).
    pose proof (upsert_lookup d now s) as Hnew.
    pose proof (upsert_fields d now s) as (Hcid & _).
    assert (Hid : ActiveRateLimit.id (fst (MemStorage.upsertActiveRateLimit d now s))
                  < MemStorage.currentId (snd (MemStorage.upsertActiveRateLimit d now s))
                  /\ MemStorage.currentId s
                     <= MemStorage.currentId (snd (MemStorage.upsertActiveRateLimit d now s))
                  /\ (forall c a, c <> c0 -> MemStorage.getActiveRateLimit c s = Some a ->
                        ActiveRateLimit.id a
                        <> ActiveRateLimit.id (fst (MemStorage.upsertActiveRateLimit d now s)))).
    { unfold MemStorage.upsertActiveRateLimit.
      destruct (MemStorage.activeLimits s !! InsertActiveRateLimit.clientId d)
        as [e|] eqn:He; simpl.
      - destruct (Hrec c0 e He) as [_ Hlt]. repeat split; try lia.
        intros c a Hne Ha Heq. apply Hne. exact (Hinj c c0 a e Ha He Heq).
      - repeat split; try lia. intros c a _ Ha Heq.
        destruct (Hrec c a Ha) as [_ Hlt]. lia. }
    destruct Hid as (Hlt & Hmono & Hfresh).
    assert (Hcase : forall c a,
               MemStorage.getActiveRateLimit c
                 (snd (MemStorage.upsertActiveRateLimit d now s)) = Some a ->
               (c = c0 /\ a = fst (MemStorage.upsertActiveRateLimit d now s)) \/
               (c <> c0 /\ MemStorage.getActiveRateLimit c s = Some a)).
    { intros c a Ha. destruct (decide (c = c0)) as [->|Hne].
      - left. fold c0 in Hnew. rewrite Hnew in Ha. injection Ha as <-. auto.
      - right. rewrite upsert_lookup_ne in Ha by exact Hne. auto. }
    split.
    + intros c a Ha. destruct (Hcase c a Ha) as [[-> ->] | [Hne Hold]].
      * split; [exact Hcid | exact Hlt].
      * destruct (Hrec c a Hold). split; [assumption | lia].
    + intros c1 c2 a1 a2 H1 H2 Heq.
      destruct (Hcase c1 a1 H1) as [[-> ->] | [Hne1 Hold1]],
               (Hcase c2 a2 H2) as [[-> ->] | [Hne2 Hold2]].
      * reflexivity.
      * exfalso. exact (Hfresh c2 a2 Hne2 Hold2 (eq_sym Heq)).
      * exfalso. exact (Hfresh c1 a1 Hne1 Hold1 Heq).
      * exact (Hinj c1 c2 a1 a2 Hold1 Hold2 Heq).
  - destruct IH as [Hrec Hinj].
    assert (Hsub : forall c' a, MemStorage.getActiveRateLimit c'
                                  (MemStorage.deleteActiveRateLimit c s) = Some a ->
                                MemStorage.getActiveRateLimit c' s = Some a).
    { intros c' a. unfold MemStorage.getActiveRateLimit,
        MemStorage.deleteActiveRateLimit. simpl.
      destruct (decide (c = c')) as [->|Hne].
      - rewrite lookup_delete_eq. discriminate.
      - now rewrite lookup_delete_ne. }
    split; [intros c' a Ha; exact (Hrec c' a (Hsub c' a Ha)) |].
    intros c1 c2 a1 a2 H1 H2. exact (Hinj c1 c2 a1 a2 (Hsub _ _ H1) (Hsub _ _ H2)).
  - destruct IH as [Hrec Hinj]. split; [|exact Hinj].
    intros c a Ha. destruct (Hrec c a Ha). split; [assumption | simpl; lia].
  - destruct IH as [Hrec Hinj].
    assert (Hsub : forall c' a, MemStorage.getActiveRateLimit c'
                                  (MemStorage.blockClient c s) = Some a ->
                                exists a0, MemStorage.getActiveRateLimit c' s = Some a0 /\
                                  ActiveRateLimit.clientId a = ActiveRateLimit.clientId a0 /\
                                  ActiveRateLimit.id a = ActiveRateLimit.id a0).
    { intros c' a. rewrite block_lookup.
      destruct (MemStorage.getActiveRateLimit c' s) as [a0|]; [|discriminate].
      intros [= <-]. exists a0. now destruct (String.eqb c' c). }
    split.
    + intros c' a Ha. destruct (Hsub c' a Ha) as (a0 & H0 & -> & ->).
      exact (Hrec c' a0 H0).
    + intros c1 c2 a1 a2 H1 H2.
      destruct (Hsub c1 a1 H1) as (b1 & Hb1 & _ & ->).
      destruct (Hsub c2 a2 H2) as (b2 & Hb2 & _ & ->).
      exact (Hinj c1 c2 b1 b2 Hb1 Hb2).
  - exact IH.
  - destruct IH as [Hrec Hinj].
    assert (Hsub : forall c' a, MemStorage.getActiveRateLimit c'
                                  (MemStorage.cleanupExpiredLimits now s) = Some a ->
                                MemStorage.getActiveRateLimit c' s = Some a).
    { intros c' a. rewrite cleanup_lookup.
      destruct (MemStorage.getActiveRateLimit c' s) as [a0|]; [|discriminate].
      now destruct (JS.ltb _ _). }
    split; [intros c' a Ha; exact (Hrec c' a (Hsub c' a Ha)) |].
    intros c1 c2 a1 a2 H1 H2. exact (Hinj c1 c2 a1 a2 (Hsub _ _ H1) (Hsub _ _ H2)).
  - destruct IH as [Hrec Hinj]. split; [|exact Hinj].
    intros c a Ha. destruct (Hrec c a Ha). split; [assumption | simpl; lia].
Qed.

Lemma reachable_limits_wf_witness :
  limits_wf
    (snd (MemStorage.upsertActiveRateLimit
            (InsertActiveRateLimit.literal "10.0.0.1" 1 (Num 30000) active) 1500
            (MemStorage.new 0))).
Proof.
  apply (reachable_limits_wf
           (snd (MemStorage.upsertActiveRateLimit
                   (InsertActiveRateLimit.literal "10.0.0.1" 1 (Num 30000) active)
                   1500 (MemStorage.new 0)))).
  apply reach_upsertActiveRateLimit. apply reach_new.
Defined.

(** ** Cleanup and administrative block *)

(** The periodic cleanup never changes a decision: a request served at
    [now] gets the same answer from every limiter whether or not
    [cleanupExpiredLimits] ran at an earlier instant, since the records it
    deletes are those the limiters treat as expired. *)
Theorem cleanup_does_not_change_decisions
    (alg : RateLimiterAlgorithm) (clientId : string) (config : RateLimitConfig.t)
    (cleanedAt now : Z) (w : World) :
  registered alg ->
  cleanedAt <= now ->
  result_of (checkLimit alg clientId config now
               (mkWorld (MemStorage.cleanupExpiredLimits cleanedAt (storage w))
                        (requestTimes w)))
  = result_of (checkLimit alg clientId config now w).
Proof.
  intros Halg Hle.
  destruct Halg as [-> | [-> | ->]]; simpl checkLimit; run_limiter;
    cbn [storage requestTimes]; rewrite ?cleanup_lookup;
    destruct (MemStorage.getActiveRateLimit clientId (storage w)) as [a|];
    try reflexivity;
    try (destruct (ActiveRateLimit.resetTime a) as [r|] eqn:Hr;
         unfold JS.ltb, JS.geb, JS.leb;
         [destruct (Z.ltb_spec r cleanedAt);
          [destruct (Z.leb_spec r now); [reflexivity | lia] |] |];
         rewrite Hr; unfold JS.geb, JS.leb;
         limiter_branches; reflexivity);
    limiter_branches; reflexivity.
Qed.

Lemma cleanup_does_not_change_decisions_witness :
  result_of (checkLimit FixedWindowLimiter.algorithm "10.0.0.1"
               (demoConfig "fixed-window" 3 "30s") 31000
               (mkWorld (MemStorage.cleanupExpiredLimits 30500
                           (storage demoBlockedWorld))
                        (requestTimes demoBlockedWorld)))
  = result_of (checkLimit FixedWindowLimiter.algorithm "10.0.0.1"
                 (demoConfig "fixed-window" 3 "30s") 31000 demoBlockedWorld).
Proof.
  apply (cleanup_does_not_change_decisions FixedWindowLimiter.algorithm
           "10.0.0.1" (demoConfig "fixed-window" 3 "30s") 30500 31000
           demoBlockedWorld).
  - right. right. reflexivity.
  - lia.
Defined.

(** What the cleanup deletes: exactly the records whose [resetTime] is
    before [now].  A record with a later or equal [resetTime], or with the
    invalid date, stays as it is; running the cleanup twice at the same
    instant is the same as running it once. *)
Theorem cleanup_deletes_the_expired (now : Z) (s : MemStorage.t) (c : string) :
  (forall a,
      MemStorage.getActiveRateLimit c (MemStorage.cleanupExpiredLimits now s)
      = Some a <->
      MemStorage.getActiveRateLimit c s = Some a /\
      (ActiveRateLimit.resetTime a = NaN \/
       exists r, ActiveRateLimit.resetTime a = Num r /\ now <= r)) /\
  MemStorage.getActiveRateLimit c
    (MemStorage.cleanupExpiredLimits now (MemStorage.cleanupExpiredLimits now s))
  = MemStorage.getActiveRateLimit c (MemStorage.cleanupExpiredLimits now s).
Proof.
  split.
  - intros a. rewrite cleanup_lookup.
    destruct (MemStorage.getActiveRateLimit c s) as [a0|].
    + destruct (ActiveRateLimit.resetTime a0) as [r|] eqn:Hr; unfold JS.ltb.
      * destruct (Z.ltb_spec r now); split.
        -- discriminate.
        -- intros [[= <-] [Hnan | (r' & Hr' & Hle)]]; [congruence|].
           rewrite Hr in Hr'. injection Hr' as <-. lia.
        -- intros [= <-]. split; [reflexivity|]. right. exists r. auto.
        -- intros [[= <-] _]. reflexivity.
      * split.
        -- intros [= <-]. auto.
        -- intros [[= <-] _]. reflexivity.
    + split; [discriminate | intros [? _]; discriminate].
  - rewrite (cleanup_lookup now (MemStorage.cleanupExpiredLimits now s)).
    rewrite cleanup_lookup.
    destruct (MemStorage.getActiveRateLimit c s) as [a0|]; [|reflexivity].
    destruct (JS.ltb (ActiveRateLimit.resetTime a0) (Num now)) eqn:Hlt;
      [reflexivity | now rewrite Hlt].
Qed.

(** The administrative block is cosmetic for the limiters: after
    [blockClient], whatever client was blocked, every limiter gives every
    client the same decision as it would have given without the block.  The
    block only sets the [status] of the record, and no limiter reads it. *)
Theorem blockClient_does_not_change_decisions
    (alg : RateLimiterAlgorithm) (blockedClient clientId : string)
    (config : RateLimitConfig.t) (now : Z) (w : World) :
  registered alg ->
  result_of (checkLimit alg clientId config now
               (mkWorld (MemStorage.blockClient blockedClient (storage w))
                        (requestTimes w)))
  = result_of (checkLimit alg clientId config now w).
Proof.
  intros Halg.
  destruct Halg as [-> | [-> | ->]]; simpl checkLimit; run_limiter;
    cbn [storage requestTimes]; rewrite ?block_lookup;
    destruct (MemStorage.getActiveRateLimit clientId (storage w)) as [a|];
    try reflexivity;
    try (destruct (String.eqb clientId blockedClient);
         cbn [ActiveRateLimit.with_status ActiveRateLimit.resetTime
              ActiveRateLimit.requestCount]);
    limiter_branches; reflexivity.
Qed.

Lemma blockClient_does_not_change_decisions_witness :
  result_of (checkLimit TokenBucketLimiter.algorithm "10.0.0.1"
               (demoConfig "token-bucket" 5 "30s") 1500
               (mkWorld (MemStorage.blockClient "10.0.0.1" (storage demoBlockedWorld))
                        (requestTimes demoBlockedWorld)))
  = Some (RateLimitStatus.mk true 1 (Num 30000) None).
Proof.
  rewrite (blockClient_does_not_change_decisions TokenBucketLimiter.algorithm
             "10.0.0.1" "10.0.0.1" (demoConfig "token-bucket" 5 "30s") 1500
             demoBlockedWorld (or_introl eq_refl)).
  reflexivity.
Defined.

(** ** Quota of one window: fixed window and token bucket *)

Lemma serve_cons (alg : RateLimiterAlgorithm) (clientId : string)
    (config : RateLimitConfig.t) (now : Z) (rest : list Z)
    (w w1 w2 : World) (r : RateLimitStatus.t) (rs : list RateLimitStatus.t) :
  checkLimit alg clientId config now w = Returned r w1 ->
  serve alg clientId config rest w1 = Returned rs w2 ->
  serve alg clientId config (now :: rest) w = Returned (r :: rs) w2.
Proof. intros H1 H2. simpl. unfold bind. now rewrite H1, H2. Qed.

Lemma map_seq_S {A : Type} (f : nat -> A) (n : nat) :
  List.map f (List.seq 0 (S n))
  = f 0%nat :: List.map (fun j => f (S j)) (List.seq 0 n).
Proof. simpl. now rewrite <- seq_shift, List.map_map. Qed.

Lemma running_flag_S (requestLimit k : Z) (j : nat) :
  running_flag requestLimit k (S j) = running_flag requestLimit (k + 1) j.
Proof. unfold running_flag. f_equal. lia. Qed.

Lemma running_remaining_S (requestLimit k : Z) (j : nat) :
  running_remaining requestLimit k (S j) = running_remaining requestLimit (k + 1) j.
Proof.
  unfold running_remaining. rewrite running_flag_S.
  destruct (running_flag _ _ _); [|reflexivity]. lia.
Qed.

Lemma running_flag_full (requestLimit k : Z) (j : nat) :
  requestLimit <= k -> running_flag requestLimit k j = false.
Proof. intros Hfull. unfold running_flag. apply Z.ltb_ge. lia. Qed.

Lemma running_outcome_step (alg : RateLimiterAlgorithm) (clientId : string)
    (config : RateLimitConfig.t) (e : num) (k : Z) (now : Z) (rest : list Z)
    (w w1 : World) (r : RateLimitStatus.t) :
  checkLimit alg clientId config now w = Returned r w1 ->
  RateLimitStatus.allowed r = running_flag (RateLimitConfig.requestLimit config) k 0 ->
  RateLimitStatus.remaining r
  = running_remaining (RateLimitConfig.requestLimit config) k 0 ->
  RateLimitStatus.resetTime r = e ->
  (running_outcome alg clientId config e (k + 1) rest w1 \/
   (RateLimitConfig.requestLimit config <= k /\
    running_outcome alg clientId config e k rest w1)) ->
  running_outcome alg clientId config e k (now :: rest) w.
Proof.
  intros Hrun Hflag Hrem Hreset Hrest.
  assert (Hnext : exists rs w',
             serve alg clientId config rest w1 = Returned rs w' /\
             List.map RateLimitStatus.allowed rs
             = List.map (fun j => running_flag (RateLimitConfig.requestLimit config)
                                    k (S j))
                        (List.seq 0 (List.length rest)) /\
             List.map RateLimitStatus.remaining rs
             = List.map (fun j => running_remaining
                                    (RateLimitConfig.requestLimit config) k (S j))
                        (List.seq 0 (List.length rest)) /\
             List.Forall (fun r => RateLimitStatus.resetTime r = e) rs).
  { destruct Hrest as [(rs & w' & Hs & Hf & Hr & He)
                      | (Hfull & rs & w' & Hs & Hf & Hr & He)];
      exists rs, w'; (split; [exact Hs|]); (split; [|split; [|exact He]]).
    - rewrite Hf. apply List.map_ext. intros j. now rewrite running_flag_S.
    - rewrite Hr. apply List.map_ext. intros j. now rewrite running_remaining_S.
    - rewrite Hf. apply List.map_ext. intros j.
      now rewrite !running_flag_full by exact Hfull.
    - rewrite Hr. apply List.map_ext. intros j. unfold running_remaining.
      now rewrite !running_flag_full by exact Hfull. }
  destruct Hnext as (rs & w' & Hs & Hf & Hr & He).
  exists (r :: rs), w'. split; [exact (serve_cons _ _ _ _ _ _ _ _ _ _ Hrun Hs)|].
  cbn [List.length]. rewrite !map_seq_S. cbn [List.map].
  rewrite Hflag, Hrem, Hf, Hr. repeat split. constructor; assumption.
Qed.

Lemma fixed_window_running (clientId : string) (config : RateLimitConfig.t)
    (e : num) (times : list Z) :
  forall (k : Z) (w : World) (a : ActiveRateLimit.t),
    MemStorage.getActiveRateLimit clientId (storage w) = Some a ->
    ActiveRateLimit.resetTime a = e ->
    ActiveRateLimit.requestCount a = k ->
    List.Forall (fun t => JS.leb e (Num t) = false) times ->
    running_outcome FixedWindowLimiter.algorithm clientId config e k times w.
Proof.
  induction times as [|now rest IH]; intros k w a Hget He Hk Hbefore.
  - exists [], w. repeat split; constructor.
  - inversion Hbefore as [|? ? Hnow Hrest]; subst.
    set (st := if (RateLimitConfig.requestLimit config) <=? ActiveRateLimit.requestCount a then blocked
               else if reaches_80_percent (ActiveRateLimit.requestCount a + 1) (RateLimitConfig.requestLimit config)
                    then warning else active).
    set (ins := InsertActiveRateLimit.literal clientId
                  (ActiveRateLimit.requestCount a + 1)
                  (ActiveRateLimit.resetTime a) st).
    set (w1 := mkWorld (snd (MemStorage.upsertActiveRateLimit ins now (storage w)))
                       (requestTimes w)).
    set (r := if (RateLimitConfig.requestLimit config) <=? ActiveRateLimit.requestCount a
              then RateLimitStatus.mk false 0 (ActiveRateLimit.resetTime a)
                     (Some (JS.ceil_div
                              (JS.sub (ActiveRateLimit.resetTime a) (Num now)) 1000))
              else RateLimitStatus.mk true
                     ((RateLimitConfig.requestLimit config) - (ActiveRateLimit.requestCount a + 1))
                     (ActiveRateLimit.resetTime a) None).
    assert (Hrun : checkLimit FixedWindowLimiter.algorithm clientId config now w
                   = Returned r w1).
    { simpl checkLimit. unfold FixedWindowLimiter.checkLimit, bind, storage_read.
      rewrite Hget, Hnow. unfold r, w1, ins, st.
      destruct ((RateLimitConfig.requestLimit config) <=? ActiveRateLimit.requestCount a); reflexivity. }
    apply (running_outcome_step _ _ _ _ _ _ _ _ w1 r Hrun).
    + unfold r, running_flag. rewrite Z.add_0_r.
      destruct (Z.leb_spec (RateLimitConfig.requestLimit config) (ActiveRateLimit.requestCount a));
        destruct (Z.ltb_spec (ActiveRateLimit.requestCount a) (RateLimitConfig.requestLimit config));
        try reflexivity; lia.
    + unfold r, running_remaining, running_flag. rewrite Z.add_0_r.
      destruct (Z.leb_spec (RateLimitConfig.requestLimit config) (ActiveRateLimit.requestCount a));
        destruct (Z.ltb_spec (ActiveRateLimit.requestCount a) (RateLimitConfig.requestLimit config));
        simpl; try reflexivity; lia.
    + unfold r. now destruct ((RateLimitConfig.requestLimit config) <=? ActiveRateLimit.requestCount a).
    + left.
      pose proof (upsert_lookup ins now (storage w)) as Hl.
      pose proof (upsert_fields ins now (storage w)) as (_ & Hc & Hr & _).
      apply (IH _ w1 _ Hl); [exact Hr | exact Hc | exact Hrest].
Qed.

Lemma token_bucket_running (clientId : string) (config : RateLimitConfig.t)
    (e : num) (times : list Z) :
  forall (k : Z) (w : World) (a : ActiveRateLimit.t),
    MemStorage.getActiveRateLimit clientId (storage w) = Some a ->
    ActiveRateLimit.resetTime a = e ->
    ActiveRateLimit.requestCount a = k ->
    List.Forall (fun t => JS.leb e (Num t) = false) times ->
    running_outcome TokenBucketLimiter.algorithm clientId config e k times w.
Proof.
  induction times as [|now rest IH]; intros k w a Hget He Hk Hbefore.
  - exists [], w. repeat split; constructor.
  - inversion Hbefore as [|? ? Hnow Hrest]; subst.
    destruct (Z.leb_spec (RateLimitConfig.requestLimit config) (ActiveRateLimit.requestCount a)) as [Hfull|Hroom].
    + (* no token left: nothing is written *)
      set (r := RateLimitStatus.mk false 0 (ActiveRateLimit.resetTime a)
                  (Some (JS.ceil_div
                           (JS.sub (ActiveRateLimit.resetTime a) (Num now)) 1000))).
      assert (Hrun : checkLimit TokenBucketLimiter.algorithm clientId config now w
                     = Returned r w).
      { simpl checkLimit. unfold TokenBucketLimiter.checkLimit, bind, storage_read.
        rewrite Hget. unfold JS.geb. rewrite Hnow.
        destruct (Z.leb_spec (RateLimitConfig.requestLimit config) (ActiveRateLimit.requestCount a));
          [reflexivity | lia]. }
      apply (running_outcome_step _ _ _ _ _ _ _ _ w r Hrun).
      * unfold r, running_flag. simpl. symmetry. apply Z.ltb_ge. lia.
      * unfold r, running_remaining, running_flag.
        cbn [RateLimitStatus.remaining]. change (Z.of_nat 0) with 0.
        rewrite Z.add_0_r.
        destruct (Z.ltb_spec (ActiveRateLimit.requestCount a)
                    (RateLimitConfig.requestLimit config)); [lia | reflexivity].
      * reflexivity.
      * right. split; [exact Hfull|].
        exact (IH _ w a Hget eq_refl eq_refl Hrest).
    + set (st := if reaches_80_percent (ActiveRateLimit.requestCount a + 1) (RateLimitConfig.requestLimit config)
                 then warning else active).
      set (ins := InsertActiveRateLimit.literal clientId
                    (ActiveRateLimit.requestCount a + 1)
                    (ActiveRateLimit.resetTime a) st).
      set (w1 := mkWorld (snd (MemStorage.upsertActiveRateLimit ins now (storage w)))
                         (requestTimes w)).
      set (r := RateLimitStatus.mk true
                  ((RateLimitConfig.requestLimit config) - (ActiveRateLimit.requestCount a + 1))
                  (ActiveRateLimit.resetTime a) None).
      assert (Hrun : checkLimit TokenBucketLimiter.algorithm clientId config now w
                     = Returned r w1).
      { simpl checkLimit. unfold TokenBucketLimiter.checkLimit, bind, storage_read.
        rewrite Hget. unfold JS.geb. rewrite Hnow.
        destruct (Z.leb_spec (RateLimitConfig.requestLimit config) (ActiveRateLimit.requestCount a));
          [lia | reflexivity]. }
      apply (running_outcome_step _ _ _ _ _ _ _ _ w1 r Hrun).
      * unfold r, running_flag. simpl. symmetry. apply Z.ltb_lt. lia.
      * unfold r, running_remaining, running_flag.
        cbn [RateLimitStatus.remaining]. change (Z.of_nat 0) with 0.
        rewrite Z.add_0_r.
        destruct (Z.ltb_spec (ActiveRateLimit.requestCount a)
                    (RateLimitConfig.requestLimit config)); lia.
      * reflexivity.
      * left.
        pose proof (upsert_lookup ins now (storage w)) as Hl.
        pose proof (upsert_fields ins now (storage w)) as (_ & Hc & Hr & _).
        apply (IH _ w1 _ Hl); [exact Hr | exact Hc | exact Hrest].
Qed.

Lemma quota_after_first (alg : RateLimiterAlgorithm) (clientId : string)
    (config : RateLimitConfig.t) (e : num) (now : Z) (rest : list Z)
    (w w1 : World) :
  checkLimit alg clientId config now w
  = Returned (RateLimitStatus.mk true (RateLimitConfig.requestLimit config - 1)
                e None) w1 ->
  running_outcome alg clientId config e 1 rest w1 ->
  exists rs w',
    serve alg clientId config (now :: rest) w = Returned rs w' /\
    List.map RateLimitStatus.allowed rs
    = quota_flags (RateLimitConfig.requestLimit config) (S (List.length rest)) /\
    List.map RateLimitStatus.remaining rs
    = quota_remaining (RateLimitConfig.requestLimit config) (S (List.length rest)) /\
    List.Forall (fun r => RateLimitStatus.resetTime r = e) rs.
Proof.
  intros Hfirst (rs & w' & Hs & Hf & Hr & He).
  eexists (_ :: rs), w'. split; [exact (serve_cons _ _ _ _ _ _ _ _ _ _ Hfirst Hs)|].
  unfold quota_flags, quota_remaining. rewrite !map_seq_S. cbn [List.map].
  assert (Hflag : forall j, within_quota (RateLimitConfig.requestLimit config) (S j)
                            = running_flag (RateLimitConfig.requestLimit config) 1 j).
  { intros j. unfold within_quota, running_flag. simpl Nat.eqb. simpl orb.
    f_equal. lia. }
  split; [|split].
  - simpl. f_equal. rewrite Hf. apply List.map_ext. intros j. now rewrite Hflag.
  - simpl. f_equal. rewrite Hr. apply List.map_ext. intros j.
    rewrite Hflag. unfold running_remaining.
    destruct (running_flag _ _ _); [lia | reflexivity].
  - constructor; [reflexivity | exact He].
Qed.

(** Fixed window, one window, for a positive window whose aligned end is
    within the range of [Date] and a clock at or after the epoch: from a
    client with no running record, a first request at [now] followed by any
    number of requests before the end of the aligned window is answered
    like this: the first is allowed, and request number [i] (from zero) is
    allowed exactly while [i] is below [requestLimit]; [remaining] counts
    down from [requestLimit - 1] to zero and stays there; every decision
    carries the window end as [resetTime]. *)
Theorem fixed_window_quota
    (w : World) (clientId : string) (config : RateLimitConfig.t)
    (now wms : Z) (rest : list Z) :
  parseTimeWindow (RateLimitConfig.timeWindow config) = Num wms ->
  0 < wms ->
  0 <= now ->
  aligned_window_end now wms <= JS.MAX_TIME ->
  fresh_or_expired w clientId now ->
  List.Forall (fun t => t < aligned_window_end now wms) rest ->
  exists rs w',
    serve FixedWindowLimiter.algorithm clientId config (now :: rest) w
    = Returned rs w' /\
    List.map RateLimitStatus.allowed rs
    = quota_flags (RateLimitConfig.requestLimit config) (S (List.length rest)) /\
    List.map RateLimitStatus.remaining rs
    = quota_remaining (RateLimitConfig.requestLimit config) (S (List.length rest)) /\
    List.Forall
      (fun r => RateLimitStatus.resetTime r = Num (aligned_window_end now wms)) rs.
Proof.
  intros Hparse Hpos Hnow Hrange Hfresh Hbefore.
  destruct (fixed_window_start w clientId config now Hfresh)
    as (w1 & a1 & Hrun & Hget & Hcount & Hreset & _).
  assert (He : FixedWindowLimiter.windowEnd now
                 (parseTimeWindow (RateLimitConfig.timeWindow config))
               = Num (aligned_window_end now wms)).
  { rewrite Hparse. exact (windowEnd_aligned now wms Hpos Hnow Hrange). }
  rewrite He in Hrun, Hreset.
  apply (quota_after_first FixedWindowLimiter.algorithm _ _ _ _ _ w w1 Hrun).
  apply (fixed_window_running _ _ _ _ 1 w1 a1 Hget Hreset Hcount).
  eapply List.Forall_impl; [|exact Hbefore].
  intros t Ht. simpl in Ht. unfold JS.leb. apply Z.leb_gt. exact Ht.
Qed.

Lemma fixed_window_quota_witness :
  exists rs w',
    serve FixedWindowLimiter.algorithm "10.0.0.1"
      (demoConfig "fixed-window" 3 "30s") [1500; 1600; 1700; 1800; 1900]
      (mkWorld (demoStore "fixed-window" 3 "30s" ∅) ∅)
    = Returned rs w' /\
    List.map RateLimitStatus.allowed rs = [true; true; true; false; false] /\
    List.map RateLimitStatus.remaining rs = [2; 1; 0; 0; 0] /\
    List.Forall (fun r => RateLimitStatus.resetTime r = Num 30000) rs.
Proof.
  apply (fixed_window_quota (mkWorld (demoStore "fixed-window" 3 "30s" ∅) ∅)
           "10.0.0.1" (demoConfig "fixed-window" 3 "30s") 1500 30000
           [1600; 1700; 1800; 1900]).
  - reflexivity.
  - lia.
  - lia.
  - vm_compute. discriminate.
  - exact I.
  - repeat constructor.
Defined.

(** Token bucket, one bucket, for a window with [now + windowMs] within the
    range of [Date]: from a client with no running bucket, a first request
    at [now] followed by any number of requests before [now + windowMs] is
    answered in the same way: request number [i] is allowed exactly while
    [i] is below [requestLimit] (the first always is), [remaining] counts
    down to zero, and every decision carries [now + windowMs] as
    [resetTime]. *)
Theorem token_bucket_quota
    (w : World) (clientId : string) (config : RateLimitConfig.t)
    (now wms : Z) (rest : list Z) :
  parseTimeWindow (RateLimitConfig.timeWindow config) = Num wms ->
  Z.abs (now + wms) <= JS.MAX_TIME ->
  fresh_or_expired w clientId now ->
  List.Forall (fun t => t < now + wms) rest ->
  exists rs w',
    serve TokenBucketLimiter.algorithm clientId config (now :: rest) w
    = Returned rs w' /\
    List.map RateLimitStatus.allowed rs
    = quota_flags (RateLimitConfig.requestLimit config) (S (List.length rest)) /\
    List.map RateLimitStatus.remaining rs
    = quota_remaining (RateLimitConfig.requestLimit config) (S (List.length rest)) /\
    List.Forall (fun r => RateLimitStatus.resetTime r = Num (now + wms)) rs.
Proof.
  intros Hparse Hrange Hfresh Hbefore.
  destruct (token_bucket_start w clientId config now Hfresh)
    as (w1 & a1 & Hrun & Hget & Hcount & Hreset & _).
  rewrite Hparse in Hrun, Hreset. simpl JS.add in Hrun, Hreset.
  rewrite (newDate_in_range (now + wms) Hrange) in Hrun, Hreset.
  apply (quota_after_first TokenBucketLimiter.algorithm _ _ _ _ _ w w1 Hrun).
  apply (token_bucket_running _ _ _ _ 1 w1 a1 Hget Hreset Hcount).
  eapply List.Forall_impl; [|exact Hbefore].
  intros t Ht. simpl in Ht. unfold JS.leb. apply Z.leb_gt. exact Ht.
Qed.

Lemma token_bucket_quota_witness :
  exists rs w',
    serve TokenBucketLimiter.algorithm "10.0.0.1"
      (demoConfig "token-bucket" 4 "15s") [1500; 1600; 1700; 1800; 1900; 2000]
      (mkWorld (demoStore "token-bucket" 4 "15s" ∅) ∅)
    = Returned rs w' /\
    List.map RateLimitStatus.allowed rs = [true; true; true; true; false; false] /\
    List.map RateLimitStatus.remaining rs = [3; 2; 1; 0; 0; 0] /\
    List.Forall (fun r => RateLimitStatus.resetTime r = Num (1500 + 15000)) rs.
Proof.
  apply (token_bucket_quota (mkWorld (demoStore "token-bucket" 4 "15s" ∅) ∅)
           "10.0.0.1" (demoConfig "token-bucket" 4 "15s") 1500 15000
           [1600; 1700; 1800; 1900; 2000]).
  - reflexivity.
  - vm_compute. discriminate.
  - exact I.
  - repeat constructor.
Defined.

(** A window that does not parse to a number never ends: under a policy
    whose [timeWindow] is read as [NaN], the fixed-window and the
    token-bucket limiter store the invalid date as [resetTime], and a
    client's requests, however far apart in time, are allowed only while
    their number is below [requestLimit]; after that every request is
    denied. *)
Theorem NaN_window_never_resets
    (alg : RateLimiterAlgorithm) (w : World) (clientId : string)
    (config : RateLimitConfig.t) (now : Z) (rest : list Z) :
  alg = FixedWindowLimiter.algorithm \/ alg = TokenBucketLimiter.algorithm ->
  parseTimeWindow (RateLimitConfig.timeWindow config) = NaN ->
  fresh_or_expired w clientId now ->
  exists rs w',
    serve alg clientId config (now :: rest) w = Returned rs w' /\
    List.map RateLimitStatus.allowed rs
    = quota_flags (RateLimitConfig.requestLimit config) (S (List.length rest)) /\
    List.Forall (fun r => RateLimitStatus.resetTime r = NaN) rs.
Proof.
  intros Halg Hparse Hfresh.
  assert (Hany : List.Forall (fun t => JS.leb NaN (Num t) = false) rest).
  { apply List.Forall_forall. reflexivity. }
  destruct Halg as [-> | ->].
  - destruct (fixed_window_start w clientId config now Hfresh)
      as (w1 & a1 & Hrun & Hget & Hcount & Hreset & _).
    rewrite Hparse in Hrun, Hreset.
    change (FixedWindowLimiter.windowEnd now NaN) with NaN in Hrun, Hreset.
    destruct (quota_after_first FixedWindowLimiter.algorithm _ _ _ _ rest w w1 Hrun
                (fixed_window_running _ _ _ _ 1 w1 a1 Hget Hreset Hcount Hany))
      as (rs & w' & Hs & Hf & _ & He).
    exists rs, w'. auto.
  - destruct (token_bucket_start w clientId config now Hfresh)
      as (w1 & a1 & Hrun & Hget & Hcount & Hreset & _).
    rewrite Hparse in Hrun, Hreset.
    change (JS.newDate (JS.add (Num now) NaN)) with NaN in Hrun, Hreset.
    destruct (quota_after_first TokenBucketLimiter.algorithm _ _ _ _ rest w w1 Hrun
                (token_bucket_running _ _ _ _ 1 w1 a1 Hget Hreset Hcount Hany))
      as (rs & w' & Hs & Hf & _ & He).
    exists rs, w'. auto.
Qed.

Lemma NaN_window_never_resets_witness :
  exists rs w',
    serve FixedWindowLimiter.algorithm "10.0.0.1"
      (demoConfig "fixed-window" 2 "xs") [1500; 90000000; 180000000]
      (mkWorld (demoStore "fixed-window" 2 "xs" ∅) ∅)
    = Returned rs w' /\
    List.map RateLimitStatus.allowed rs = [true; true; false] /\
    List.Forall (fun r => RateLimitStatus.resetTime r = NaN) rs.
Proof.
  apply (NaN_window_never_resets FixedWindowLimiter.algorithm
           (mkWorld (demoStore "fixed-window" 2 "xs" ∅) ∅)
           "10.0.0.1" (demoConfig "fixed-window" 2 "xs") 1500
           [90000000; 180000000]).
  - left. reflexivity.
  - reflexivity.
  - exact I.
Defined.

(** ** Sliding window: never more than the limit in any window *)

Lemma filter_filter_implied {A : Type} (f g : A -> bool) (l : list A) :
  (forall a, g a = true -> f a = true) ->
  List.filter g (List.filter f l) = List.filter g l.
Proof.
  intros Himp. induction l as [|a l IH]; simpl; [reflexivity|].
  destruct (f a) eqn:Hf; simpl.
  - now rewrite IH.
  - destruct (g a) eqn:Hg; [|exact IH].
    rewrite (Himp a Hg) in Hf. discriminate.
Qed.

Lemma filter_length_implied {A : Type} (f g : A -> bool) (l : list A) :
  (forall a, f a = true -> g a = true) ->
  (List.length (List.filter f l) <= List.length (List.filter g l))%nat.
Proof.
  intros Himp. induction l as [|a l IH]; simpl; [lia|].
  destruct (f a) eqn:Hf.
  - rewrite (Himp a Hf). simpl. lia.
  - destruct (g a); simpl; lia.
Qed.

Lemma admitted_cons (now : Z) (rest : list Z) (r : RateLimitStatus.t)
    (rs : list RateLimitStatus.t) :
  admitted (now :: rest) (r :: rs)
  = if RateLimitStatus.allowed r then now :: admitted rest rs else admitted rest rs.
Proof. unfold admitted. simpl. now destruct (RateLimitStatus.allowed r). Qed.

(** One more admitted request keeps every window within the limit, when the
    window ending at the new request held fewer than the limit. *)
Lemma at_most_per_window_snoc (requestLimit wms now : Z) (l : list Z) :
  at_most_per_window requestLimit wms l ->
  Z.of_nat (List.length (List.filter (fun a => now - wms <? a) l)) < requestLimit ->
  at_most_per_window requestLimit wms (l ++ [now]).
Proof.
  intros Hsafe Hroom t. unfold in_window. rewrite List.filter_app, length_app.
  destruct (Z.leb_spec now t) as [Hle|Hlt].
  - assert (Hsub : le (List.length
                          (List.filter (fun x => (t - wms <? x) && (x <=? t)) l))
                       (List.length (List.filter (fun a => now - wms <? a) l))).
    { apply filter_length_implied. intros a Ha.
      apply andb_true_iff in Ha. destruct Ha as [Ha _].
      apply Z.ltb_lt in Ha. apply Z.ltb_lt. lia. }
    assert (Hone : le (List.length
                          (List.filter (fun x => (t - wms <? x) && (x <=? t)) [now]))
                       1).
    { simpl. destruct ((t - wms <? now) && (now <=? t)); simpl; lia. }
    lia.
  - assert (Hnone : List.filter (fun x => (t - wms <? x) && (x <=? t)) [now] = []).
    { simpl. destruct (Z.leb_spec now t); [lia|]. now rewrite andb_false_r. }
    rewrite Hnone. simpl. specialize (Hsafe t). unfold in_window in Hsafe. lia.
Qed.

Lemma sliding_window_safe_run (clientId : string) (config : RateLimitConfig.t)
    (wms : Z) (times : list Z) :
  parseTimeWindow (RateLimitConfig.timeWindow config) = Num wms ->
  forall (history : list Z) (b : Z) (w : World),
    (forall x, b <= x ->
       List.filter (fun a => x - wms <? a) (stored_times w clientId)
       = List.filter (fun a => x - wms <? a) history) ->
    at_most_per_window (RateLimitConfig.requestLimit config) wms history ->
    StronglySorted Z.le times ->
    List.Forall (fun t => b <= t) times ->
    exists rs w',
      serve SlidingWindowLimiter.algorithm clientId config times w
      = Returned rs w' /\
      at_most_per_window (RateLimitConfig.requestLimit config) wms
        (history ++ admitted times rs).
Proof.
  intros Hparse. induction times as [|now rest IH];
    intros history b w Hinv Hsafe Hsorted Hafter.
  - exists [], w. split; [reflexivity|]. unfold admitted. simpl.
    now rewrite app_nil_r.
  - apply StronglySorted_inv in Hsorted. destruct Hsorted as [Hsorted Hnext].
    inversion Hafter as [|? ? Hb _]; subst.
    pose proof (Hinv now Hb) as Hnow.
    set (inw := List.filter (fun a => now - wms <? a) (stored_times w clientId)) in *.
    destruct (Z.leb_spec (RateLimitConfig.requestLimit config)
                (Z.of_nat (List.length inw))) as [Hfull|Hroom].
    + (* denied: the list is left as it is *)
      assert (Hrun : exists r w1,
                 checkLimit SlidingWindowLimiter.algorithm clientId config now w
                 = Returned r w1 /\
                 RateLimitStatus.allowed r = false /\
                 requestTimes w1 = requestTimes w).
      { simpl checkLimit. unfold SlidingWindowLimiter.checkLimit, bind,
          requestTimes_get. rewrite Hparse.
        change (List.filter _ (nullish (requestTimes w !! clientId) [])) with inw.
        destruct (Z.leb_spec (RateLimitConfig.requestLimit config)
                    (Z.of_nat (List.length inw))); [|lia].
        unfold storage_call, ret. simpl. eauto. }
      destruct Hrun as (r & w1 & Hrun & Hdenied & Hsame).
      destruct (IH history now w1) as (rs & w' & Hs & Hres); auto.
      { intros x Hx. unfold stored_times. rewrite Hsame.
        apply Hinv. lia. }
      exists (r :: rs), w'. split; [exact (serve_cons _ _ _ _ _ _ _ _ _ _ Hrun Hs)|].
      now rewrite admitted_cons, Hdenied.
    + (* admitted: the window's timestamps, then [now] *)
      assert (Hrun : exists r w1,
                 checkLimit SlidingWindowLimiter.algorithm clientId config now w
                 = Returned r w1 /\
                 RateLimitStatus.allowed r = true /\
                 stored_times w1 clientId = (inw ++ [now])%list).
      { simpl checkLimit. unfold SlidingWindowLimiter.checkLimit, bind,
          requestTimes_get. rewrite Hparse.
        change (List.filter _ (nullish (requestTimes w !! clientId) [])) with inw.
        destruct (Z.leb_spec (RateLimitConfig.requestLimit config)
                    (Z.of_nat (List.length inw))); [lia|].
        unfold requestTimes_set, storage_call, ret. simpl.
        do 2 eexists. split; [reflexivity|]. split; [reflexivity|].
        unfold stored_times. simpl. now rewrite lookup_insert_eq. }
      destruct Hrun as (r & w1 & Hrun & Hallowed & Hstored).
      destruct (IH (history ++ [now])%list now w1) as (rs & w' & Hs & Hres); auto.
      { intros x Hx. rewrite Hstored, !List.filter_app. f_equal.
        unfold inw. rewrite filter_filter_implied.
        - apply Hinv. lia.
        - intros a Ha. apply Z.ltb_lt in Ha. apply Z.ltb_lt. lia. }
      { apply at_most_per_window_snoc; [exact Hsafe|].
        fold inw in Hnow. rewrite <- Hnow. exact Hroom. }
      exists (r :: rs), w'. split; [exact (serve_cons _ _ _ _ _ _ _ _ _ _ Hrun Hs)|].
      rewrite admitted_cons, Hallowed. now rewrite <- app_assoc in Hres.
Qed.

(** Sliding window: however a client's requests are spread over time, as
    long as the clock does not run backwards, no window of length
    [windowMs] ever contains more than [requestLimit] admitted requests,
    counting the timestamps the limiter already held for the client. *)
Theorem sliding_window_never_exceeds_limit
    (w : World) (clientId : string) (config : RateLimitConfig.t)
    (wms : Z) (times : list Z) :
  parseTimeWindow (RateLimitConfig.timeWindow config) = Num wms ->
  at_most_per_window (RateLimitConfig.requestLimit config) wms
    (stored_times w clientId) ->
  StronglySorted Z.le times ->
  exists rs w',
    serve SlidingWindowLimiter.algorithm clientId config times w
    = Returned rs w' /\
    at_most_per_window (RateLimitConfig.requestLimit config) wms
      (stored_times w clientId ++ admitted times rs).
Proof.
  intros Hparse Hsafe Hsorted.
  destruct times as [|now rest].
  - exists [], w. split; [reflexivity|]. unfold admitted. simpl.
    now rewrite app_nil_r.
  - apply (sliding_window_safe_run clientId config wms (now :: rest) Hparse
             (stored_times w clientId) now w); auto.
    apply StronglySorted_inv in Hsorted. destruct Hsorted as [_ Hnext].
    constructor; [lia | exact Hnext].
Qed.

Lemma sliding_window_never_exceeds_limit_witness :
  exists rs w',
    serve SlidingWindowLimiter.algorithm "10.0.0.1"
      (demoConfig "sliding-window" 3 "10s") [1000; 1200; 1400; 1500; 11100]
      (mkWorld (demoStore "sliding-window" 3 "10s" ∅) ∅)
    = Returned rs w' /\
    at_most_per_window 3 10000
      (stored_times (mkWorld (demoStore "sliding-window" 3 "10s" ∅) ∅) "10.0.0.1"
       ++ admitted [1000; 1200; 1400; 1500; 11100] rs).
Proof.
  apply (sliding_window_never_exceeds_limit
           (mkWorld (demoStore "sliding-window" 3 "10s" ∅) ∅) "10.0.0.1"
           (demoConfig "sliding-window" 3 "10s") 10000
           [1000; 1200; 1400; 1500; 11100]).
  - reflexivity.
  - intros t. vm_compute. discriminate.
  - repeat constructor; lia.
Defined.

(** ** The middleware in front of the protected routes *)

(** What [checkRateLimit] has written when it returns. *)
Lemma checkRateLimit_bookkeeping
    (w w1 : World) (clientId endpoint : string) (now : Z) (r : RateLimitStatus.t) :
  RateLimiterService.checkRateLimit clientId endpoint now w = Returned r w1 ->
  DashboardStats.totalRequests (MemStorage.getSystemStats (storage w1))
  = DashboardStats.totalRequests (MemStorage.getSystemStats (storage w)) + 1 /\
  DashboardStats.rateLimited (MemStorage.getSystemStats (storage w1))
  = DashboardStats.rateLimited (MemStorage.getSystemStats (storage w))
    + (if RateLimitStatus.allowed r then 0 else 1) /\
  MemStorage.violations (storage w1)
  = if RateLimitStatus.allowed r then MemStorage.violations (storage w)
    else RateLimitViolation.mk (MemStorage.currentId (storage w1) - 1) None None
           clientId endpoint 1 now false None None
         :: List.firstn 99 (MemStorage.violations (storage w)).
Proof.
  intros Hrun.
  destruct (checkRateLimit_inv _ _ _ _ _ _ Hrun)
    as (config & alg & w0 & Hcfg & Halg & Hlim & Hstore & _).
  destruct (checkLimit_returns_and_frames alg clientId config now w
              (algorithms_get_cases _ _ Halg))
    as (r1 & w0' & Hlim' & _ & Hviol & Hstats).
  rewrite Hlim in Hlim'. injection Hlim' as <- <-.
  rewrite Hstore. clear Hstore Hrun.
  destruct (RateLimitStatus.allowed r).
  - cbn [MemStorage.getSystemStats MemStorage.updateSystemStats MemStorage.stats
         MemStorage.violations DashboardStats.totalRequests
         DashboardStats.rateLimited SystemStats.totalRequests
         SystemStats.rateLimitedRequests PartialSystemStats.only_totalRequests
         PartialSystemStats.totalRequests PartialSystemStats.rateLimitedRequests
         nullish].
    rewrite Hstats, Hviol. repeat split; lia.
  - set (counted := MemStorage.updateSystemStats _ now (storage w0)).
    pose proof (createViolation_log
                  (InsertRateLimitViolation.literal clientId endpoint) now counted)
      as Hlog.
    cbn [MemStorage.getSystemStats MemStorage.updateSystemStats MemStorage.stats
         MemStorage.violations DashboardStats.totalRequests
         DashboardStats.rateLimited SystemStats.totalRequests
         SystemStats.rateLimitedRequests
         PartialSystemStats.only_rateLimitedRequests
         PartialSystemStats.totalRequests PartialSystemStats.rateLimitedRequests
         nullish MemStorage.currentId].
    rewrite Hlog. unfold counted.
    cbn [MemStorage.createViolation MemStorage.updateSystemStats fst snd
         MemStorage.stats MemStorage.violations MemStorage.currentId
         MemStorage.getSystemStats DashboardStats.totalRequests
         DashboardStats.rateLimited SystemStats.totalRequests
         SystemStats.rateLimitedRequests PartialSystemStats.only_totalRequests
         PartialSystemStats.totalRequests PartialSystemStats.rateLimitedRequests
         nullish InsertRateLimitViolation.literal
         InsertRateLimitViolation.userId InsertRateLimitViolation.apiKeyId
         InsertRateLimitViolation.clientId InsertRateLimitViolation.endpoint
         InsertRateLimitViolation.attempts InsertRateLimitViolation.isBlocked
         InsertRateLimitViolation.userAgent InsertRateLimitViolation.ipAddress].
    rewrite Hstats, Hviol. repeat split; try lia.
    do 2 f_equal. lia.
Qed.

(** The middleware after a decision whose [resetTime] is a valid date. *)
Lemma middleware_after_decision
    (req : Request.t) (path : string) (now : Z) (w w1 : World)
    (config : RateLimitConfig.t) (r : RateLimitStatus.t) (reset : Z) :
  MemStorage.getRateLimitConfig (storage w) = Some config ->
  RateLimiterService.checkRateLimit
    (RateLimiterService.getClientId req (RateLimitConfig.clientIdType config))
    path now w = Returned r w1 ->
  RateLimitStatus.resetTime r = Num reset ->
  Z.abs reset <= JS.MAX_TIME ->
  Routes.rateLimitMiddleware req path now w
  = let headers :=
      Routes.mkHeaders (RateLimitConfig.requestLimit config)
        (RateLimitStatus.remaining r) reset
        (Routes.retryAfterHeader (RateLimitStatus.retryAfter r)) in
    let stats := MemStorage.getSystemStats (storage w1) in
    let counted :=
      MemStorage.updateSystemStats
        (PartialSystemStats.only_totalRequests
           (DashboardStats.totalRequests stats + 1)) now (storage w1) in
    let limited :=
      MemStorage.updateSystemStats
        (PartialSystemStats.only_rateLimitedRequests
           (DashboardStats.rateLimited stats + 1)) now counted in
    if RateLimitStatus.allowed r
    then (Routes.next (Some headers), mkWorld counted (requestTimes w1))
    else (Routes.status429 headers (RateLimitStatus.retryAfter r),
          mkWorld
            (snd (MemStorage.createViolation
                    (InsertRateLimitViolation.literal
                       (RateLimiterService.getClientId req
                          (RateLimitConfig.clientIdType config)) path)
                    now limited))
            (requestTimes w1)).
Proof.
  intros Hcfg Hrun Hreset Hrange.
  unfold Routes.rateLimitMiddleware, Routes.handle, bind at 1, storage_read at 1.
  rewrite Hcfg. unfold bind at 1. rewrite Hrun.
  unfold bind, storage_read, storage_exec, storage_call, ret.
  rewrite Hreset, (newDate_in_range reset Hrange).
  destruct (RateLimitStatus.allowed r); reflexivity.
Qed.

(** The middleware after a decision whose [resetTime] is not a valid date:
    [toISOString] throws after the second count of the request, and the
    request is passed on. *)
Lemma middleware_after_invalid_date
    (req : Request.t) (path : string) (now : Z) (w w1 : World)
    (config : RateLimitConfig.t) (r : RateLimitStatus.t) :
  MemStorage.getRateLimitConfig (storage w) = Some config ->
  RateLimiterService.checkRateLimit
    (RateLimiterService.getClientId req (RateLimitConfig.clientIdType config))
    path now w = Returned r w1 ->
  JS.newDate (RateLimitStatus.resetTime r) = NaN ->
  fst (Routes.rateLimitMiddleware req path now w) = Routes.next None.
Proof.
  intros Hcfg Hrun Hreset.
  unfold Routes.rateLimitMiddleware, Routes.handle, bind at 1, storage_read at 1.
  rewrite Hcfg. unfold bind at 1. rewrite Hrun.
  unfold bind, storage_read, storage_exec, storage_call, ret.
  now rewrite Hreset.
Qed.

(** A request that goes through the middleware under an active policy, and
    whose decision carries a [resetTime] within the range of [Date], is
    counted twice: [checkRateLimit] raises [totalRequests] and the
    middleware raises it again, so the counter goes up by two.  When the
    request is denied, [rateLimited] goes up by two as well, two violation
    records are put at the head of the log (one by the service, one by the
    middleware) and the answer is 429; when it is allowed, [rateLimited] and
    the log are unchanged and the request is passed on with the rate-limit
    headers. *)
Theorem middleware_counts_every_request_twice
    (req : Request.t) (path : string) (now : Z) (w w1 : World)
    (config : RateLimitConfig.t) (r : RateLimitStatus.t) (reset : Z) :
  MemStorage.getRateLimitConfig (storage w) = Some config ->
  RateLimiterService.checkRateLimit
    (RateLimiterService.getClientId req (RateLimitConfig.clientIdType config))
    path now w = Returned r w1 ->
  RateLimitStatus.resetTime r = Num reset ->
  Z.abs reset <= JS.MAX_TIME ->
  let headers :=
    Routes.mkHeaders (RateLimitConfig.requestLimit config)
      (RateLimitStatus.remaining r) reset
      (Routes.retryAfterHeader (RateLimitStatus.retryAfter r)) in
  let after := storage (snd (Routes.rateLimitMiddleware req path now w)) in
  DashboardStats.totalRequests (MemStorage.getSystemStats after)
  = DashboardStats.totalRequests (MemStorage.getSystemStats (storage w)) + 2 /\
  (RateLimitStatus.allowed r = true ->
   fst (Routes.rateLimitMiddleware req path now w) = Routes.next (Some headers) /\
   DashboardStats.rateLimited (MemStorage.getSystemStats after)
   = DashboardStats.rateLimited (MemStorage.getSystemStats (storage w)) /\
   MemStorage.violations after = MemStorage.violations (storage w)) /\
  (RateLimitStatus.allowed r = false ->
   fst (Routes.rateLimitMiddleware req path now w)
   = Routes.status429 headers (RateLimitStatus.retryAfter r) /\
   DashboardStats.rateLimited (MemStorage.getSystemStats after)
   = DashboardStats.rateLimited (MemStorage.getSystemStats (storage w)) + 2 /\
   exists v1 v2,
     MemStorage.violations after
     = v2 :: List.firstn 99 (v1 :: List.firstn 99 (MemStorage.violations (storage w))) /\
     RateLimitViolation.id v1 < RateLimitViolation.id v2 /\
     RateLimitViolation.clientId v1 = RateLimitViolation.clientId v2 /\
     RateLimitViolation.endpoint v1 = path /\
     RateLimitViolation.endpoint v2 = path).
Proof.
  intros Hcfg Hrun Hreset Hrange headers after.
  destruct (checkRateLimit_bookkeeping _ _ _ _ _ _ Hrun) as (Htotal & Hlimited & Hlog).
  unfold after.
  rewrite (middleware_after_decision _ _ _ _ _ _ _ _ Hcfg Hrun Hreset Hrange).
  cbv zeta. fold headers.
  destruct (RateLimitStatus.allowed r); cbn [fst snd storage].
  - split; [|split; [|discriminate]].
    + cbn. cbn in Htotal. lia.
    + intros _. split; [reflexivity|]. split; [|exact Hlog].
      cbn. cbn in Hlimited. lia.
  - split; [|split; [discriminate|]].
    + cbn. cbn in Htotal. lia.
    + intros _. split; [reflexivity|]. split.
      * cbn. cbn in Hlimited. lia.
      * rewrite createViolation_log.
        cbn [MemStorage.updateSystemStats MemStorage.violations].
        rewrite Hlog. do 2 eexists. split; [reflexivity|].
        cbn. repeat split. lia.
Qed.

Lemma middleware_counts_every_request_twice_witness :
  exists r w1 v1 v2,
    RateLimiterService.checkRateLimit
      (RateLimiterService.getClientId
         (Request.mk (Some "10.0.0.1") ∅ None None) "ip")
      "/api/protected/test" 1800 demoBlockedWorld = Returned r w1 /\
    RateLimitStatus.allowed r = false /\
    RateLimitStatus.resetTime r = Num 30000 /\
    DashboardStats.totalRequests
      (MemStorage.getSystemStats
         (storage (snd (Routes.rateLimitMiddleware
                          (Request.mk (Some "10.0.0.1") ∅ None None)
                          "/api/protected/test" 1800 demoBlockedWorld))))
    = DashboardStats.totalRequests
        (MemStorage.getSystemStats (storage demoBlockedWorld)) + 2 /\
    fst (Routes.rateLimitMiddleware (Request.mk (Some "10.0.0.1") ∅ None None)
           "/api/protected/test" 1800 demoBlockedWorld)
    = Routes.status429
        (Routes.mkHeaders 3 (RateLimitStatus.remaining r) 30000
           (Routes.retryAfterHeader (RateLimitStatus.retryAfter r)))
        (RateLimitStatus.retryAfter r) /\
    DashboardStats.rateLimited
      (MemStorage.getSystemStats
         (storage (snd (Routes.rateLimitMiddleware
                          (Request.mk (Some "10.0.0.1") ∅ None None)
                          "/api/protected/test" 1800 demoBlockedWorld))))
    = DashboardStats.rateLimited
        (MemStorage.getSystemStats (storage demoBlockedWorld)) + 2 /\
    MemStorage.violations
      (storage (snd (Routes.rateLimitMiddleware
                       (Request.mk (Some "10.0.0.1") ∅ None None)
                       "/api/protected/test" 1800 demoBlockedWorld)))
    = v2 :: List.firstn 99
              (v1 :: List.firstn 99 (MemStorage.violations (storage demoBlockedWorld))).
Proof.
  assert (Hrun : exists r w1,
             RateLimiterService.checkRateLimit
               (RateLimiterService.getClientId
                  (Request.mk (Some "10.0.0.1") ∅ None None) "ip")
               "/api/protected/test" 1800 demoBlockedWorld = Returned r w1 /\
             RateLimitStatus.allowed r = false /\
             RateLimitStatus.resetTime r = Num 30000).
  { eexists. eexists. split; [vm_compute; reflexivity|]. split; reflexivity. }
  destruct Hrun as (r & w1 & Hrun & Hdenied & Hreset).
  assert (Hrange : Z.abs 30000 <= JS.MAX_TIME) by (vm_compute; discriminate).
  pose proof (middleware_counts_every_request_twice
                (Request.mk (Some "10.0.0.1") ∅ None None) "/api/protected/test"
                1800 demoBlockedWorld w1 (demoConfig "fixed-window" 3 "30s") r 30000
                eq_refl Hrun Hreset Hrange) as H.
  cbv zeta in H. destruct H as (Htotal & _ & Hden).
  destruct (Hden Hdenied) as (Hanswer & Hlimited & v1 & v2 & Hlog & _).
  exists r, w1, v1, v2. auto 10.
Defined.

(** The middleware answers 429 exactly when there is an active policy, the
    service returns a denial, and the denial's [resetTime] is a valid date:
    a number within the range of [Date].  In every other case (no active
    policy, an exception in the service, an allowed request, or a
    [resetTime] that [toISOString] rejects because it is [NaN] or beyond
    8.64e15 ms) the request is passed on. *)
Theorem middleware_answers_429_iff
    (req : Request.t) (path : string) (now : Z) (w : World) :
  (exists headers retryAfter,
      fst (Routes.rateLimitMiddleware req path now w)
      = Routes.status429 headers retryAfter) <->
  (exists config r w1 reset,
      MemStorage.getRateLimitConfig (storage w) = Some config /\
      RateLimiterService.checkRateLimit
        (RateLimiterService.getClientId req (RateLimitConfig.clientIdType config))
        path now w = Returned r w1 /\
      RateLimitStatus.allowed r = false /\
      RateLimitStatus.resetTime r = Num reset /\
      Z.abs reset <= JS.MAX_TIME).
Proof.
  split.
  - intros (h & ra & Hanswer).
    destruct (MemStorage.getRateLimitConfig (storage w)) as [config|] eqn:Hcfg.
    + destruct (RateLimiterService.checkRateLimit
                  (RateLimiterService.getClientId req
                     (RateLimitConfig.clientIdType config)) path now w)
        as [r w1|msg w1] eqn:Hrun.
      * destruct (RateLimitStatus.resetTime r) as [reset|] eqn:Hreset.
        -- destruct (Z.leb_spec (Z.abs reset) JS.MAX_TIME) as [Hrange|Hout].
           ++ rewrite (middleware_after_decision _ _ _ _ _ _ _ _
                         Hcfg Hrun Hreset Hrange) in Hanswer.
              cbv zeta in Hanswer.
              destruct (RateLimitStatus.allowed r) eqn:Hallowed;
                [discriminate Hanswer|].
              exists config, r, w1, reset. auto.
           ++ rewrite (middleware_after_invalid_date _ _ _ _ _ _ _ Hcfg Hrun)
                in Hanswer; [discriminate Hanswer|].
              rewrite Hreset. now apply newDate_beyond.
        -- rewrite (middleware_after_invalid_date _ _ _ _ _ _ _ Hcfg Hrun)
             in Hanswer; [discriminate Hanswer|].
           now rewrite Hreset.
      * unfold Routes.rateLimitMiddleware, Routes.handle, bind at 1,
          storage_read at 1 in Hanswer.
        rewrite Hcfg in Hanswer. unfold bind at 1 in Hanswer.
        rewrite Hrun in Hanswer. discriminate Hanswer.
    + unfold Routes.rateLimitMiddleware, Routes.handle, bind at 1,
        storage_read at 1 in Hanswer.
      rewrite Hcfg in Hanswer. discriminate Hanswer.
  - intros (config & r & w1 & reset & Hcfg & Hrun & Hdenied & Hreset & Hrange).
    rewrite (middleware_after_decision _ _ _ _ _ _ _ _ Hcfg Hrun Hreset Hrange).
    cbv zeta. rewrite Hdenied. eauto.
Qed.

(** A denial the middleware lets through: under a sliding-window policy
    with a window of 100 000 001 days the limiter denies the second request,
    and the middleware passes it on, since the [resetTime] of the denial is
    beyond the range of [Date]. *)
Example denial_passed_on_beyond_date_range :
  (exists r w1,
      RateLimiterService.checkRateLimit "10.0.0.1" "/api/protected/test" 1500
        demoLongWindowWorld = Returned r w1 /\
      RateLimitStatus.allowed r = false) /\
  fst (Routes.rateLimitMiddleware (Request.mk (Some "10.0.0.1") ∅ None None)
         "/api/protected/test" 1500 demoLongWindowWorld)
  = Routes.next None.
Proof.
  split; [|vm_compute; reflexivity].
  eexists. eexists. split; [vm_compute; reflexivity | reflexivity].
Qed.

(** With no active policy, or with a policy that names an unregistered
    algorithm, the middleware passes every request on, sets no header and
    leaves the whole state as it was. *)
Theorem middleware_fails_open
    (req : Request.t) (path : string) (now : Z) (w : World) :
  (MemStorage.getRateLimitConfig (storage w) = None \/
   exists config,
     MemStorage.getRateLimitConfig (storage w) = Some config /\
     ~ known_algorithm (RateLimitConfig.algorithm config)) ->
  Routes.rateLimitMiddleware req path now w = (Routes.next None, w).
Proof.
  intros [Hnone | (config & Hcfg & Hunknown)];
    unfold Routes.rateLimitMiddleware, Routes.handle, bind at 1, storage_read at 1.
  - now rewrite Hnone.
  - rewrite Hcfg. unfold bind at 1.
    unfold RateLimiterService.checkRateLimit, bind at 1, storage_read at 1.
    now rewrite Hcfg, (algorithms_get_unknown _ Hunknown).
Qed.

Lemma middleware_fails_open_witness :
  Routes.rateLimitMiddleware (Request.mk (Some "10.0.0.1") ∅ None None)
    "/api/protected/test" 1800
    (mkWorld (demoStore "leaky-bucket" 3 "30s" ∅) ∅)
  = (Routes.next None, mkWorld (demoStore "leaky-bucket" 3 "30s" ∅) ∅).
Proof.
  apply (middleware_fails_open (Request.mk (Some "10.0.0.1") ∅ None None)
           "/api/protected/test" 1800
           (mkWorld (demoStore "leaky-bucket" 3 "30s" ∅) ∅)).
  right. exists (demoConfig "leaky-bucket" 3 "30s"). split; [reflexivity|].
  intros [H | [H | H]]; discriminate H.
Defined.

(** A window read as [NaN] switches enforcement off under the
    sliding-window policy: whatever the state, every request is passed on by
    the middleware, because the decision's [resetTime] is not a date that
    can be written into the reset header. *)
Theorem NaN_window_disables_sliding_window
    (req : Request.t) (path : string) (now : Z) (w : World)
    (config : RateLimitConfig.t) :
  MemStorage.getRateLimitConfig (storage w) = Some config ->
  RateLimitConfig.algorithm config = "sliding-window" ->
  parseTimeWindow (RateLimitConfig.timeWindow config) = NaN ->
  fst (Routes.rateLimitMiddleware req path now w) = Routes.next None.
Proof.
  intros Hcfg Halg Hparse.
  unfold Routes.rateLimitMiddleware, Routes.handle, bind at 1, storage_read at 1.
  rewrite Hcfg. unfold bind at 1.
  unfold RateLimiterService.checkRateLimit, bind at 1, storage_read at 1.
  rewrite Hcfg, Halg.
  cbn [RateLimiterService.algorithms_get RateLimiterService.algorithms
       String.eqb Ascii.eqb Bool.eqb checkLimit SlidingWindowLimiter.algorithm].
  unfold SlidingWindowLimiter.checkLimit, bind, requestTimes_get, requestTimes_set,
    storage_read, storage_exec, storage_call, ret, throw.
  rewrite Hparse.
  assert (Hempty : forall l, List.filter
                               (fun time => JS.gtb (Num time) (JS.sub (Num now) NaN)) l
                             = []).
  { induction l; simpl; auto. }
  rewrite Hempty.
  destruct (RateLimitConfig.requestLimit config <=? _); reflexivity.
Qed.

Lemma NaN_window_disables_sliding_window_witness :
  fst (Routes.rateLimitMiddleware (Request.mk (Some "10.0.0.1") ∅ None None)
         "/api/protected/test" 1800
         (mkWorld (demoStore "sliding-window" 3 "xs" ∅) ∅))
  = Routes.next None.
Proof.
  apply (NaN_window_disables_sliding_window
           (Request.mk (Some "10.0.0.1") ∅ None None) "/api/protected/test" 1800
           (mkWorld (demoStore "sliding-window" 3 "xs" ∅) ∅)
           (demoConfig "sliding-window" 3 "xs")); reflexivity.
Defined.

(** ** Writing a policy *)

Lemma find_after_set_inactive (id : Z) (c : RateLimitConfig.t)
    (l : list (Z * RateLimitConfig.t)) :
  RateLimitConfig.isActive c = false ->
  List.find RateLimitConfig.isActive
    (List.map snd
       (MemStorage.map_set id c
          (List.map (fun kc => (fst kc, RateLimitConfig.deactivate (snd kc))) l)))
  = None.
Proof.
  intros Hoff. induction l as [|[k c'] l IH]; simpl.
  - now rewrite Hoff.
  - destruct (id =? k); simpl; [|exact IH].
    rewrite Hoff. clear IH. induction l as [|[k2 c2] l IH2]; simpl; auto.
Qed.

(** [updateRateLimitConfig] replaces the active policy: afterwards the active
    policy is the one just written, carrying the caller's algorithm, limit,
    window and identification mode, and the state table is empty; but a
    policy written with [isActive = false] leaves no active policy at all,
    so that [checkRateLimit] throws until another policy is written. *)
Theorem updateRateLimitConfig_replaces_active_policy
    (d : InsertRateLimitConfig.t) (now : Z) (s : MemStorage.t) :
  let written := fst (MemStorage.updateRateLimitConfig d now s) in
  let after := snd (MemStorage.updateRateLimitConfig d now s) in
  RateLimitConfig.algorithm written = InsertRateLimitConfig.algorithm d /\
  RateLimitConfig.requestLimit written = InsertRateLimitConfig.requestLimit d /\
  RateLimitConfig.timeWindow written = InsertRateLimitConfig.timeWindow d /\
  RateLimitConfig.clientIdType written = InsertRateLimitConfig.clientIdType d /\
  MemStorage.getRateLimitConfig after
  = (if nullish (InsertRateLimitConfig.isActive d) true then Some written else None) /\
  DashboardStats.activeClients (MemStorage.getSystemStats after) = 0 /\
  (InsertRateLimitConfig.isActive d = Some false ->
   forall requestTimes clientId endpoint now',
     RateLimiterService.checkRateLimit clientId endpoint now'
       (mkWorld after requestTimes)
     = Thrown "No rate limit configuration found" (mkWorld after requestTimes)).
Proof.
  intros written after.
  assert (Hfind : MemStorage.getRateLimitConfig after
                  = if nullish (InsertRateLimitConfig.isActive d) true
                    then Some written else None).
  { unfold after, written, MemStorage.getRateLimitConfig,
      MemStorage.updateRateLimitConfig. cbn [fst snd MemStorage.configs].
    destruct (nullish (InsertRateLimitConfig.isActive d) true) eqn:Hact.
    - apply find_after_set. reflexivity.
    - apply find_after_set_inactive. reflexivity. }
  repeat split; try reflexivity; try exact Hfind.
  intros Hoff requestTimes clientId endpoint now'.
  apply checkRateLimit_throws_without_policy. cbn [storage].
  rewrite Hfind, Hoff. reflexivity.
Qed.

Lemma updateRateLimitConfig_replaces_active_policy_witness :
  RateLimiterService.checkRateLimit "10.0.0.1" "/api/protected/test" 2000
    (mkWorld
       (snd (MemStorage.updateRateLimitConfig
               (InsertRateLimitConfig.mk None "fixed-window" 3 "30s" "ip"
                  (Some false) None None None) 1000 (MemStorage.new 0)))
       ∅)
  = Thrown "No rate limit configuration found"
      (mkWorld
         (snd (MemStorage.updateRateLimitConfig
                 (InsertRateLimitConfig.mk None "fixed-window" 3 "30s" "ip"
                    (Some false) None None None) 1000 (MemStorage.new 0)))
         ∅).
Proof.
  apply (updateRateLimitConfig_replaces_active_policy
           (InsertRateLimitConfig.mk None "fixed-window" 3 "30s" "ip"
              (Some false) None None None) 1000 (MemStorage.new 0)).
  reflexivity.
Defined.

(** ** Instances of the lemmas on [parseTimeWindow], policy swaps and arrival order *)

Lemma parseTimeWindow_decimal_witness :
  parseTimeWindow "30s" = Num (30 * 1000) /\
  parseTimeWindow "30m" = Num (30 * 60000) /\
  parseTimeWindow "30h" = Num (30 * 3600000) /\
  parseTimeWindow "30d" = Num (30 * 86400000).
Proof.
  destruct (parseTimeWindow_decimal (Decimal.D3 (Decimal.D0 Decimal.Nil)))
    as (Hs & Hm & Hh & Hd); [discriminate|].
  split; [apply Hs; vm_compute; discriminate|].
  split; [apply Hm; vm_compute; discriminate|].
  split; [apply Hh; vm_compute; discriminate|].
  apply Hd; vm_compute; discriminate.
Defined.

Lemma first_request_after_swap_allowed_witness :
  exists r w',
    RateLimiterService.checkRateLimit "10.0.0.1" "/api/protected/test" 2000
      (mkWorld
         (snd (MemStorage.updateRateLimitConfig
                 (InsertRateLimitConfig.mk None "token-bucket" 4 "15s" "ip"
                    (Some true) None None None) 1900 (storage demoBlockedWorld)))
         (requestTimes demoBlockedWorld))
    = Returned r w' /\
    RateLimitStatus.allowed r = true.
Proof.
  apply (first_request_after_swap_allowed demoBlockedWorld
           (InsertRateLimitConfig.mk None "token-bucket" 4 "15s" "ip"
              (Some true) None None None) 1900 2000 "10.0.0.1"
           "/api/protected/test").
  - discriminate.
  - right. reflexivity.
Defined.

Lemma sliding_window_keeps_arrival_order_witness :
  exists r w',
    SlidingWindowLimiter.checkLimit "10.0.0.1"
      (demoConfig "sliding-window" 3 "10s") 11100 demoSlidingWorld
    = Returned r w' /\
    stored_times demoSlidingWorld "10.0.0.1" = [1000; 1200; 1400] /\
    stored_times w' "10.0.0.1" = [1200; 1400; 11100] /\
    forall c, arrival_ordered 11100 (stored_times w' c).
Proof.
  eexists. eexists. split; [vm_compute; reflexivity|].
  split; [vm_compute; reflexivity|].
  split; [vm_compute; reflexivity|].
  eapply (sliding_window_keeps_arrival_order demoSlidingWorld _ "10.0.0.1"
            (demoConfig "sliding-window" 3 "10s") 11100).
  - intros c. unfold stored_times, demoSlidingWorld. cbn [requestTimes].
    destruct (decide (c = "10.0.0.1")) as [->|Hne].
    + rewrite lookup_singleton_eq. cbn [nullish].
      split; repeat constructor; lia.
    + rewrite lookup_singleton_ne by congruence. split; constructor.
  - vm_compute. reflexivity.
Defined.

(** ** Client identity behind a proxy *)

Lemma trimStart_white_space (lead s : string) :
  all_white_space lead = true -> JS.trimStart (lead ++ s) = JS.trimStart s.
Proof.
  induction lead as [|c lead IH]; simpl; [reflexivity|].
  intros H. apply andb_true_iff in H. destruct H as [Hc Hl].
  rewrite Hc. now apply IH.
Qed.

Lemma trimEnd_white_space (trail : string) :
  all_white_space trail = true -> JS.trimEnd trail = "".
Proof.
  induction trail as [|c trail IH]; simpl; [reflexivity|].
  intros H. apply andb_true_iff in H. destruct H as [Hc Hl].
  now rewrite (IH Hl), Hc.
Qed.

Lemma trimEnd_plain (core trail : string) :
  plain_token core = true -> all_white_space trail = true ->
  JS.trimEnd (core ++ trail) = core.
Proof.
  intros Hcore Htrail. induction core as [|c core IH].
  - now apply trimEnd_white_space.
  - simpl in Hcore. apply andb_true_iff in Hcore. destruct Hcore as [Hc Hrest].
    apply andb_true_iff in Hc. destruct Hc as [Hws _].
    apply negb_true_iff in Hws.
    simpl. rewrite (IH Hrest), Hws. now destruct core.
Qed.

Lemma split_first_stops (a tail : string) :
  string_forall (fun c => negb (Ascii.eqb c ",")) a = true ->
  further_entries tail ->
  JS.split_first "," (a ++ tail) = a.
Proof.
  intros Ha Htail. induction a as [|c a IH]; simpl.
  - destruct tail as [|c tail]; [reflexivity|]. simpl in Htail. subst c.
    reflexivity.
  - simpl in Ha. apply andb_true_iff in Ha. destruct Ha as [Hc Hrest].
    apply negb_true_iff in Hc. rewrite Hc. now rewrite (IH Hrest).
Qed.

Lemma string_forall_app (p : ascii -> bool) (a b : string) :
  string_forall p (a ++ b) = string_forall p a && string_forall p b.
Proof.
  induction a as [|c a IH]; simpl; [reflexivity|].
  now rewrite IH, andb_assoc.
Qed.

Lemma string_app_assoc (a b c : string) :
  ((a ++ b) ++ c = a ++ (b ++ c))%string.
Proof.
  induction a as [|x a IH]; [reflexivity|].
  change (String x ((a ++ b) ++ c) = String x (a ++ (b ++ c)))%string.
  now rewrite IH.
Qed.

Lemma string_forall_impl (p q : ascii -> bool) (s : string) :
  (forall c, p c = true -> q c = true) ->
  string_forall p s = true -> string_forall q s = true.
Proof.
  intros Himp. induction s as [|c s IH]; simpl; [reflexivity|].
  intros H. apply andb_true_iff in H. destruct H as [Hc Hs].
  now rewrite (Himp c Hc), (IH Hs).
Qed.

Lemma white_space_is_not_comma (c : ascii) :
  JS.isWhiteSpace c = true -> negb (Ascii.eqb c ",") = true.
Proof.
  intros Hws. destruct (Ascii.eqb_spec c ","%char) as [->|_]; [|reflexivity].
  discriminate Hws.
Qed.

(** In [ip] mode, when the request has no resolved peer address, the key is
    the first entry of the [x-forwarded-for] header with the white space
    around it removed: for a header made of an address (no white space, no
    comma), optionally padded with white space and optionally followed by a
    comma and further entries, the key is that address, whatever the other
    headers say. *)
Theorem getClientId_first_forwarded_entry
    (req : Request.t) (lead address trail others : string) :
  Request.ip req = None \/ Request.ip req = Some "" ->
  Request.headers req !! "x-forwarded-for"
  = Some (lead ++ address ++ trail ++ others)%string ->
  all_white_space lead = true ->
  plain_token address = true ->
  address <> "" ->
  all_white_space trail = true ->
  further_entries others ->
  RateLimiterService.getClientId req "ip" = address.
Proof.
  intros Hip Hheader Hlead Haddr Hne Htrail Hothers.
  assert (Hsplit : JS.split_first "," (lead ++ address ++ trail ++ others)
                   = (lead ++ address ++ trail)%string).
  { replace (lead ++ address ++ trail ++ others)%string
      with ((lead ++ address ++ trail) ++ others)%string.
    - apply split_first_stops; [|exact Hothers].
      rewrite !string_forall_app. apply andb_true_iff. split; [|apply andb_true_iff; split].
      + exact (string_forall_impl _ _ _ white_space_is_not_comma Hlead).
      + apply (string_forall_impl
                 (fun c => negb (JS.isWhiteSpace c) && negb (Ascii.eqb c ","))
                 (fun c => negb (Ascii.eqb c ",")) address); [|exact Haddr].
        intros c Hc. apply andb_true_iff in Hc. tauto.
      + exact (string_forall_impl _ _ _ white_space_is_not_comma Htrail).
    - now rewrite !string_app_assoc. }
  assert (Htrim : JS.trim (lead ++ address ++ trail) = address).
  { unfold JS.trim. rewrite (trimStart_white_space _ _ Hlead).
    destruct address as [|c address]; [congruence|].
    pose proof Haddr as Hplain.
    simpl in Haddr. apply andb_true_iff in Haddr. destruct Haddr as [Hc Hrest].
    pose proof Hc as Hc'. apply andb_true_iff in Hc'. destruct Hc' as [Hws _].
    apply negb_true_iff in Hws.
    assert (Hstart : JS.trimStart (String c address ++ trail)
                     = (String c address ++ trail)%string).
    { simpl. now rewrite Hws. }
    rewrite Hstart. apply trimEnd_plain; [exact Hplain | exact Htrail]. }
  assert (Htruthy : JS.truthy (Some address) = true).
  { simpl. now destruct (String.eqb_spec address ""). }
  unfold RateLimiterService.getClientId, RateLimiterService.forwardedFor.
  simpl String.eqb. cbv iota. rewrite Hheader, Hsplit, Htrim.
  unfold JS.or_lit, JS.or.
  destruct Hip as [-> | ->];
    [change (JS.truthy None) with false
    | change (JS.truthy (Some "")) with false];
    cbv iota; rewrite !Htruthy; cbv iota; rewrite ?Htruthy; reflexivity.
Qed.

Lemma getClientId_first_forwarded_entry_witness :
  RateLimiterService.getClientId demoForwarded "ip" = "203.0.113.7".
Proof.
  apply (getClientId_first_forwarded_entry demoForwarded "" "203.0.113.7" ""
           ", 10.0.0.2").
  - left. reflexivity.
  - reflexivity.
  - reflexivity.
  - reflexivity.
  - discriminate.
  - reflexivity.
  - reflexivity.
Defined.
